(** * Agent conversation orchestrator (tabs/tab_agent_convo.py)

    A shallow embedding of the turn-scheduling and resilience engine of
    [AgentConversationTab]: the remote generation call with its loop of
    attempts, the reply classifier, the round-robin conversation generator
    with its stagnation check, the transcript store, the rating ledger,
    the accounts and the UI callbacks that start a run, save and load
    discussions, log in and vote.

    Python values are modelled as follows.
    - [int] is [Z]; [a % b] is [Z.modulo] (same sign convention), raising
      [ZeroDivisionError] for [b = 0].
    - [str] is [string], holding the UTF-8 bytes of the text.  Equality and
      the [in] operator on valid UTF-8 agree with their code-point versions;
      [len] counts the bytes that start a code point.
    - [float] is [spec_float] at binary64 ([prec = 53], [emax = 1024]).
    - a [list] is a [list]; indexing follows Python (negative indices count
      from the end, anything else out of range raises [IndexError]).
    - a [dict] used as a map is a [gmap].
    - the outside world (generation service, clock for [time.sleep], SQLite
      file, rating file) is an explicit [world] threaded through the calls,
      driven by an [environment] that fixes what the service answers. *)

From Stdlib Require Import ZArith String Ascii List Lia Bool.
From Stdlib Require Import Floats.SpecFloat.
From stdpp Require Import base strings pretty list gmap.

Local Open Scope string_scope.
Local Open Scope list_scope.
Local Open Scope Z_scope.

(** ** Python preliminaries *)

Inductive exn :=
| ZeroDivisionError
| IndexError
| AttributeError
| KeyError
| OperationalError.          (* sqlite3.OperationalError raised by sqlite3.connect *)

Inductive result (A : Type) :=
| Ok (a : A)
| Raise (e : exn).
Arguments Ok {A} a.
Arguments Raise {A} e.

Definition nl : string := String "010"%char EmptyString.

(** [a % b] *)
Definition py_mod (a b : Z) : result Z :=
  if b =? 0 then Raise ZeroDivisionError else Ok (a mod b).

(** position of the Python index [i] in a list of length [len] *)
Definition py_pos (len : nat) (i : Z) : option nat :=
  if (0 <=? i) && (i <? Z.of_nat len) then Some (Z.to_nat i)
  else if (i <? 0) && (- Z.of_nat len <=? i) then Some (Z.to_nat (Z.of_nat len + i))
  else None.

(** [l[i]] *)
Definition py_index {A} (l : list A) (i : Z) : result A :=
  match py_pos (length l) i with
  | Some k => match l !! k with Some x => Ok x | None => Raise IndexError end
  | None => Raise IndexError
  end.

(** [l[i] = x] *)
Definition py_setitem {A} (l : list A) (i : Z) (x : A) : result (list A) :=
  match py_pos (length l) i with
  | Some k => Ok (<[k:=x]> l)
  | None => Raise IndexError
  end.

(** [range(n)] *)
Definition py_range (n : Z) : list Z := seqZ 0 n.

(** [str.lower] on one byte: the ASCII letters; every other byte is kept. *)
Definition lower_char (c : ascii) : ascii :=
  let n := N_of_ascii c in
  if ((65 <=? n) && (n <=? 90))%N then ascii_of_N (n + 32) else c.

(** the UTF-8 bytes [E2 84 AA] of U+212A KELVIN SIGN *)
Definition kelvin_sign (c c1 c2 : ascii) : bool :=
  ((N_of_ascii c =? 226) && (N_of_ascii c1 =? 132) && (N_of_ascii c2 =? 170))%N.

(** the UTF-8 bytes [C4 B0] of U+0130 LATIN CAPITAL LETTER I WITH DOT ABOVE *)
Definition dotted_capital_i (c c1 : ascii) : bool :=
  ((N_of_ascii c =? 196) && (N_of_ascii c1 =? 176))%N.

(** [i] followed by the bytes [CC 87] of U+0307 COMBINING DOT ABOVE *)
Definition dotted_i (rest : string) : string :=
  String "i"%char (String (ascii_of_N 204) (String (ascii_of_N 135) rest)).

(** [str.lower], exact on every code point whose lower case has an ASCII
    part: the letters A-Z, the Kelvin sign (lowered to [k]) and the dotted
    capital I (lowered to [i] and a combining dot).  Python lowers every
    other code point to code points outside ASCII; their bytes are kept
    here as they are, so an ASCII text occurs in the result exactly when
    it occurs in that of [str.lower]. *)
Fixpoint lower (s : string) : string :=
  match s with
  | EmptyString => EmptyString
  | String c t =>
      match t with
      | EmptyString => String (lower_char c) EmptyString
      | String c1 t1 =>
          if dotted_capital_i c c1 then dotted_i (lower t1)
          else
            match t1 with
            | EmptyString => String (lower_char c) (lower t)
            | String c2 t2 =>
                if kelvin_sign c c1 c2 then String "k"%char (lower t2)
                else String (lower_char c) (lower t)
            end
      end
  end.

(** [needle in hay] *)
Fixpoint contains (needle hay : string) : bool :=
  String.prefix needle hay ||
  match hay with
  | EmptyString => false
  | String _ t => contains needle t
  end.

(** [s[:n]] *)
Definition py_take (n : nat) (s : string) : string := String.substring 0 n s.

(** ** Floating point: the stagnation threshold [i > iterations * 0.6] *)

Definition prec : Z := 53.
Definition emax : Z := 1024.

(** [float(n)] for an [int] operand of a mixed product *)
Definition float_of_int (n : Z) : spec_float := binary_normalize prec emax n 0 false.

(** the literal [0.6], i.e. 0x1.3333333333333p-1 *)
Definition float_0_6 : spec_float := S754_finite false 5404319552844595 (-53).

(** [i > x] for an [int] [i] and a [float] [x]: Python compares the exact
    values. *)
Definition int_gt_float (i : Z) (x : spec_float) : bool :=
  match x with
  | S754_zero _ => 0 <? i
  | S754_infinity s => s
  | S754_nan => false
  | S754_finite s m e =>
      let v := if s then Z.neg m else Z.pos m in
      if 0 <=? e then v * 2 ^ e <? i else v <? i * 2 ^ (- e)
  end.

(** the state of the right shifter of [SpecFloat] after [k] steps on the
    mantissa [P]: quotient, round bit and sticky bit *)
Definition shifted (P : Z) (k : nat) (mrs : shr_record) : Prop :=
  shr_m mrs = P / 2 ^ Z.of_nat k /\
  exists t, 2 * (P mod 2 ^ Z.of_nat k) = (if shr_r mrs then 2 ^ Z.of_nat k else 0) + 2 * t /\
            0 <= t /\ 2 * t < 2 ^ Z.of_nat k /\ (shr_s mrs = false <-> t = 0).

(** ** ResponseQualityClassifier *)

Definition evaluate_response (response : string) : string :=
  let resp_l := lower response in
  if contains "wiederhole mich" resp_l then "schlechte antwort"
  else if contains "neue perspektive" resp_l then "gute antwort"
  else "neutral".

(** ** The outside world *)

(** What one [client.models.generate_content] request does: it returns a
    response object whose [text] may be missing or empty, or raises the
    client library's [APIError] with a status code, or raises something
    else.  [err_s] is [str(e)]. *)
Inductive api_outcome :=
| Response (text : option string)
| APIError (status_code : Z) (err_s : string)
| OtherException (err_s : string).

(** What the SQLite file does when a discussion is saved. *)
Inductive db_behaviour :=
| DbHealthy                   (* connect, execute, commit all proceed *)
| DbStatementFails            (* execute or commit raises sqlite3.Error *)
| DbConnectFails.             (* sqlite3.connect raises sqlite3.OperationalError *)

Record message := { role : string; content : string }.

Record discussion_row := {
  row_discussion_id : string;
  row_topic : string;
  row_agents : list string;
  row_chat_history : list message;
  row_summary : string;
  row_user : string
}.

Record environment := {
  (** outcome of the [k]-th request issued in this process, given its prompt *)
  generate_content : nat -> string -> api_outcome;
  (** behaviour of the SQLite file *)
  db_behaves : db_behaviour;
  (** [datetime.datetime.now().strftime("%Y%m%d_%H%M%S")] *)
  now_stamp : string
}.

Record world := {
  requests : list string;         (* prompts sent to the service, oldest first *)
  slept : list Z;                 (* arguments of [time.sleep], oldest first *)
  discussions : list discussion_row   (* rows of table [discussions] *)
}.

Definition send (E : environment) (prompt : string) (w : world) : api_outcome * world :=
  (generate_content E (length (requests w)) prompt,
   {| requests := requests w ++ [prompt]; slept := slept w; discussions := discussions w |}).

Definition sleep (seconds : Z) (w : world) : world :=
  {| requests := requests w; slept := slept w ++ [seconds]; discussions := discussions w |}.

(** Instance attributes set by [__init__] that the engine reads. *)
Record settings := {
  api_sleep_seconds : Z;
  api_max_retries : Z
}.

Definition default_settings : settings :=
  {| api_sleep_seconds := 10; api_max_retries := 3 |}.

(** ** RemoteGenerationClient *)

Section RemoteGenerationClient.
Variable self : settings.
Variable E : environment.

Definition no_text (t : option string) : bool :=
  match t with
  | None => true
  | Some s => String.eqb s ""
  end.

(** what an answered request makes the call return *)
Definition reply (t : option string) : string :=
  if no_text t then "Leere Antwort von Gemini API." else default "" t.

(** The [for attempt in range(...)] loop of [call_gemini_api].  A request
    that returns ends the call.  When [generate_content] raises, Python
    matches the exception against the first [except] clause and for that
    evaluates its expression, [genai.APIError].  The module [google.genai]
    imported at line 27 has no attribute [APIError] (the package keeps
    its exception classes in [google.genai.errors]), so the evaluation
    raises [AttributeError], which leaves the [try] statement and the
    call.  The bodies of the two handlers (lines 266-296), with their
    pauses, their [continue] and their error strings, therefore never
    run, [retry_delay] is never read, and no attempt is followed by
    another: the loop ends in its first pass, or, for an empty range, is
    skipped and followed by the last [return]. *)
Definition attempt_loop (prompt : string) (attempts : list Z) (w : world)
    : result string * world :=
  match attempts with
  | [] => (Ok "Unbekannter Fehler nach mehreren API-Versuchen.", w)
  | attempt :: _ =>
      let (o, w) := send E prompt w in
      match o with
      | Response t => (Ok (reply t), sleep (api_sleep_seconds self) w)
      | APIError _ _ | OtherException _ => (Raise AttributeError, w)
      end
  end.

(** [call_gemini_api(prompt)["response"]], or the exception that leaves
    the call *)
Definition call_gemini_api (prompt : string) (w : world) : result string * world :=
  attempt_loop prompt (py_range (api_max_retries self + 1)) w.

End RemoteGenerationClient.

(** ** TranscriptStore *)

(** [save_discussion_data_db]: [sqlite3.connect] and [conn.cursor] come
    before the [try]; the INSERT and the commit are inside it, where any
    [sqlite3.Error] (a failing statement, or the PRIMARY KEY constraint on
    [discussion_id]) is logged and rolled back. *)
Definition save_discussion_data_db (E : environment) (discussion_id topic : string)
    (agents : list string) (chat_history : list message) (summary user : string)
    (w : world) : result unit * world :=
  match db_behaves E with
  | DbConnectFails => (Raise OperationalError, w)
  | DbStatementFails => (Ok tt, w)
  | DbHealthy =>
      if existsb (fun r => String.eqb (row_discussion_id r) discussion_id) (discussions w)
      then (Ok tt, w)
      else (Ok tt,
            {| requests := requests w; slept := slept w;
               discussions := discussions w ++
                 [{| row_discussion_id := discussion_id; row_topic := topic;
                     row_agents := agents; row_chat_history := chat_history;
                     row_summary := summary; row_user := user |}] |})
  end.

(** ** ConversationOrchestrator *)

Record agent := { name : string; personality : string; instruction : string }.

(** One element of the generator's output:
    [(chat_history, text, discussion_id, iteration, agent_name)]. *)
Record progress := {
  p_history : list message;
  p_text : string;
  p_discussion_id : string;
  p_iteration : option Z;
  p_agent : option string
}.

(** The local variables of one pass through the loop body, kept for
    reasoning about the run (the program itself does not store them). *)
Record turn := {
  t_i : Z;
  t_agent_idx : Z;
  t_current_agent_name : string;
  t_current_personality : string;
  t_prev_agent_name : string;
  t_prev_output : string;
  t_prompt_txt : string;
  t_first_output : string;            (* reply to [prompt_txt] *)
  t_qual : string;
  t_agent_output : string;            (* [agent_output] after the quality retry *)
  t_outputs_stored : list string;     (* [agent_outputs] when the stagnation check runs *)
  t_fired : bool;                     (* the stagnation branch was taken *)
  t_outputs_end : list string         (* [agent_outputs] at the end of the pass *)
}.

(** The mutable state of a running generator. *)
Record run_state := {
  agent_outputs : list string;
  topic_changed : bool;
  chat_history : list message;
  emitted : list progress;            (* what has been yielded, oldest first *)
  turns : list turn;                  (* ghost: one entry per finished pass *)
  outside : world
}.

(** Computations over [run_state] that may raise. *)
Definition gen (A : Type) : Type := run_state -> result A * run_state.

#[global] Instance gen_ret : MRet gen := fun A a s => (Ok a, s).
#[global] Instance gen_bind : MBind gen := fun A B f m s =>
  match m s with
  | (Ok a, s') => f a s'
  | (Raise e, s') => (Raise e, s')
  end.

Definition lift {A} (r : result A) : gen A := fun s => (r, s).
Definition gets {A} (f : run_state -> A) : gen A := fun s => (Ok (f s), s).
Definition modify (f : run_state -> run_state) : gen unit := fun s => (Ok tt, f s).

Definition set_agent_outputs (l : list string) (s : run_state) : run_state :=
  {| agent_outputs := l; topic_changed := topic_changed s; chat_history := chat_history s;
     emitted := emitted s; turns := turns s; outside := outside s |}.
Definition set_topic_changed (b : bool) (s : run_state) : run_state :=
  {| agent_outputs := agent_outputs s; topic_changed := b; chat_history := chat_history s;
     emitted := emitted s; turns := turns s; outside := outside s |}.
Definition append_history (m : message) (s : run_state) : run_state :=
  {| agent_outputs := agent_outputs s; topic_changed := topic_changed s;
     chat_history := chat_history s ++ [m];
     emitted := emitted s; turns := turns s; outside := outside s |}.
Definition yield (p : progress) (s : run_state) : run_state :=
  {| agent_outputs := agent_outputs s; topic_changed := topic_changed s;
     chat_history := chat_history s;
     emitted := emitted s ++ [p]; turns := turns s; outside := outside s |}.
Definition note_turn (t : turn) (s : run_state) : run_state :=
  {| agent_outputs := agent_outputs s; topic_changed := topic_changed s;
     chat_history := chat_history s;
     emitted := emitted s; turns := turns s ++ [t]; outside := outside s |}.
Definition set_outside (w : world) (s : run_state) : run_state :=
  {| agent_outputs := agent_outputs s; topic_changed := topic_changed s;
     chat_history := chat_history s;
     emitted := emitted s; turns := turns s; outside := w |}.

(** run a computation on the outside world *)
Definition on_world_raising {A} (f : world -> result A * world) : gen A := fun s =>
  let (a, w) := f (outside s) in (a, set_outside w s).

(** [for x in l: body(x)] *)
Fixpoint for_each {A} (l : list A) (body : A -> gen unit) : gen unit :=
  match l with
  | [] => mret tt
  | x :: l' => body x ≫= fun _ => for_each l' body
  end.

(** Python truthiness of an optional string ([None] and [""] are false) *)
Definition truthy (o : option string) : bool :=
  match o with
  | None => false
  | Some s => negb (String.eqb s "")
  end.

Definition new_topic : string := "Neues Thema: KI-Trends 2026".
Definition creative_prompt : string := "Versuche eine kreativere Antwort.".
Definition error_marker : string := "Fehler bei Gemini API Aufruf".

Section Conversation.
Variable self : settings.
Variable E : environment.
(** the arguments of [joint_conversation_with_selected_agents] *)
Variable conversation_topic : string.
Variable selected_agents : list agent.
Variable iterations : Z.
Variable expertise_level : string.
Variable language : string.
Variable user_state : option string.
Variable discussion_id : string.

Definition active_agents_names : list string := map name selected_agents.
Definition num_agents : Z := Z.of_nat (length active_agents_names).

(** [next((a for a in selected_agents if a["name"] == n), None)]; the
    [.get] that follows fails on [None] *)
Definition agent_config (n : string) : result agent :=
  match find (fun a => String.eqb (name a) n) selected_agents with
  | Some a => Ok a
  | None => Raise AttributeError
  end.

Definition personality_directive (p : string) : string :=
  if String.eqb p "kritisch" then nl +:+ "Sei kritisch und hinterfrage Annahmen."
  else if String.eqb p "visionär" then nl +:+ "Sei visionär und denke groß."
  else if String.eqb p "konservativ" then nl +:+ "Sei konservativ und bleibe bei Bewährtem."
  else "".

Definition language_directive (l : string) : string :=
  if String.eqb l "Deutsch" then nl +:+ nl +:+ "Antworte auf Deutsch."
  else if String.eqb l "Englisch" then nl +:+ nl +:+ "Respond in English."
  else if String.eqb l "Französisch" then nl +:+ nl +:+ "Répondez en français."
  else if String.eqb l "Spanisch" then nl +:+ nl +:+ "Responde en español."
  else "".

Definition build_prompt (i : Z) (current_agent_name current_instruction current_personality
    prev_agent_name prev_output : string) : string :=
  "Wir führen eine Konversation über: '" +:+ conversation_topic +:+ "'." +:+ nl +:+
  "Iteration " +:+ pretty (i + 1) +:+ ": Agent " +:+ current_agent_name +:+
  " (Spezialist für **" +:+ current_agent_name +:+ "**). " +:+ current_instruction +:+ nl +:+
  "Agent " +:+ prev_agent_name +:+ " sagte: " +:+ prev_output +:+ nl +:+
  personality_directive current_personality +:+
  language_directive language.

Definition user_entry (i : Z) (current_agent_name prev_agent_name prev_output : string) : message :=
  {| role := "user";
     content := "Agent " +:+ current_agent_name +:+ " (Iteration " +:+ pretty (i + 1) +:+
                "): Thema " +:+ conversation_topic +:+ ", vorheriger: " +:+
                prev_agent_name +:+ ": " +:+ prev_output |}.

Definition assistant_entry (i : Z) (current_agent_name agent_output : string) : message :=
  {| role := "assistant";
     content := "Antwort von Agent " +:+ current_agent_name +:+ " (Iteration " +:+
                pretty (i + 1) +:+ "):" +:+ nl +:+ agent_output |}.

Definition formatted_output_chunk (i : Z) (current_agent_name current_personality
    agent_output : string) : string :=
  "**Iteration " +:+ pretty (i + 1) +:+ ": Agent " +:+ current_agent_name +:+
  " (" +:+ current_personality +:+ ")**" +:+ nl +:+ nl +:+
  agent_output +:+ nl +:+ nl +:+ "---" +:+ nl +:+ nl.

(** [agent_outputs[idx] = x] on the generator's window *)
Definition store_output (idx : Z) (x : string) : gen unit :=
  outs ← gets agent_outputs;
  outs' ← lift (py_setitem outs idx x);
  modify (set_agent_outputs outs').

(** [i > (iterations * 0.6)] *)
Definition past_threshold (i : Z) : bool :=
  int_gt_float i (SFmul prec emax (float_of_int iterations) float_0_6).

(** The body of [for i in range(iterations)], from [agent_idx = ...] to the
    stagnation check that runs when the consumer asks for the next element. *)
Definition conversation_turn (i : Z) : gen unit :=
  agent_idx ← lift (py_mod i num_agents);
  current_agent_name ← lift (py_index active_agents_names agent_idx);
  current_agent_config ← lift (agent_config current_agent_name);
  let current_personality := personality current_agent_config in
  let current_instruction := instruction current_agent_config in
  prev_idx ← lift (py_mod (agent_idx - 1) num_agents);
  prev_agent_name ← lift (py_index active_agents_names prev_idx);
  outs ← gets agent_outputs;
  prev_output ← lift (py_index outs prev_idx);
  let prompt_txt := build_prompt i current_agent_name current_instruction
                      current_personality prev_agent_name prev_output in
  modify (append_history (user_entry i current_agent_name prev_agent_name prev_output));;
  first_output ← on_world_raising (call_gemini_api self E prompt_txt);
  store_output agent_idx first_output;;
  let qual := evaluate_response first_output in
  agent_output ←
    (if String.eqb qual "schlechte antwort" then
       retry_output ← on_world_raising (call_gemini_api self E creative_prompt);
       let agent_output :=
         if negb (contains error_marker retry_output) then retry_output else first_output in
       store_output agent_idx agent_output;;
       mret agent_output
     else mret first_output);
  modify (append_history (assistant_entry i current_agent_name agent_output));;
  h ← gets chat_history;
  modify (yield {| p_history := h;
                   p_text := formatted_output_chunk i current_agent_name
                               current_personality agent_output;
                   p_discussion_id := discussion_id;
                   p_iteration := Some (i + 1);
                   p_agent := Some current_agent_name |});;
  stored ← gets agent_outputs;
  fired ←
    (if past_threshold i then
       check_idx ← lift (py_mod (agent_idx - 1) num_agents);
       held ← lift (py_index stored check_idx);
       changed ← gets topic_changed;
       if String.eqb agent_output held && negb changed then
         modify (set_agent_outputs (replicate (Z.to_nat num_agents) new_topic));;
         modify (set_topic_changed true);;
         mret true
       else mret false
     else mret false);
  final ← gets agent_outputs;
  modify (note_turn {| t_i := i; t_agent_idx := agent_idx;
                       t_current_agent_name := current_agent_name;
                       t_current_personality := current_personality;
                       t_prev_agent_name := prev_agent_name;
                       t_prev_output := prev_output;
                       t_prompt_txt := prompt_txt;
                       t_first_output := first_output;
                       t_qual := qual;
                       t_agent_output := agent_output;
                       t_outputs_stored := stored;
                       t_fired := fired;
                       t_outputs_end := final |}).

Definition summary_entry (sum_text : string) : message :=
  {| role := "assistant"; content := "**Zusammenfassung**:" +:+ nl +:+ sum_text |}.

Definition final_entry (final_text : string) : message :=
  {| role := "assistant"; content := "Finale Aussage:" +:+ nl +:+ final_text |}.

Definition sum_prompt : string :=
  "Fasse die gesamte Diskussion über '" +:+ conversation_topic +:+ "' zusammen.".

(** What follows the loop: summary call, optional save, final statement,
    last element. *)
Definition conclude : gen unit :=
  sum_text ← on_world_raising (call_gemini_api self E sum_prompt);
  modify (append_history (summary_entry sum_text));;
  (if truthy user_state then
     h ← gets chat_history;
     on_world_raising (save_discussion_data_db E discussion_id conversation_topic
                         active_agents_names h sum_text (default "" user_state))
   else mret tt);;
  outs ← gets agent_outputs;
  final_text ← lift (py_index outs (-1));
  modify (append_history (final_entry final_text));;
  h ← gets chat_history;
  modify (yield {| p_history := h; p_text := sum_text; p_discussion_id := discussion_id;
                   p_iteration := None; p_agent := None |}).

Definition conversation : gen unit :=
  for_each (py_range iterations) conversation_turn;;
  conclude.

(** the generator's state before its first statement runs; the window is
    [[""] * num_agents] *)
Definition start (chat_history : list message) (w : world) : run_state :=
  {| agent_outputs := replicate (Z.to_nat num_agents) "";
     topic_changed := false;
     chat_history := chat_history;
     emitted := [];
     turns := [];
     outside := w |}.

End Conversation.

(** [if discussion_id is None: discussion_id = datetime.now().strftime(...)] *)
Definition run_id (E : environment) (discussion_id : option string) : string :=
  match discussion_id with
  | None => now_stamp E
  | Some d => d
  end.

(** The generator, run to exhaustion by its consumer.  The result is
    [Ok tt] when it finishes and [Raise e] when [e] propagates out of it;
    either way the state shows what was appended, yielded and sent. *)
Definition joint_conversation_with_selected_agents (self : settings) (E : environment)
    (conversation_topic : string) (selected_agents : list agent) (iterations : Z)
    (expertise_level language : string) (chat_history : list message)
    (user_state : option string) (discussion_id : option string) (w : world)
    : result unit * run_state :=
  conversation self E conversation_topic selected_agents iterations language user_state
    (run_id E discussion_id) (start selected_agents chat_history w).

(** ** The UI callback that starts a run *)

(** an entry of [agent_config.json] (all three keys are required by the
    schema) *)
Record agent_data := {
  cfg_name : string;
  cfg_personality : string;
  cfg_description : string
}.

(** the [rating_info] dictionary handed back to the vote buttons *)
Record rating_info := {
  ri_discussion_id : option string;
  ri_iteration : option Z;
  ri_agent_name : option string
}.

(** what the callback yields to the UI *)
Inductive ui_update :=
| NothingSelected (chatbot formatted : string) (discussion_id_state : option string)
    (rating_row_visible : bool) (rating_state : rating_info)
| Update (updated_hist : list message) (formatted_output_text : string) (disc_id : string)
    (rating_row_visible : bool) (rating_state : rating_info) (word_file_visible : bool).

(** [for i, agent_data in enumerate(agent_config_data): if cbox_vals[i]: ...] *)
Fixpoint select_agents (i : Z) (agent_config_data : list agent_data)
    (cbox_vals : list bool) (pers_vals : list string) : result (list agent) :=
  match agent_config_data with
  | [] => Ok []
  | agent_data :: rest =>
      match py_index cbox_vals i with
      | Raise e => Raise e
      | Ok ticked =>
          if ticked then
            match py_index pers_vals i with
            | Raise e => Raise e
            | Ok p =>
                match select_agents (i + 1) rest cbox_vals pers_vals with
                | Raise e => Raise e
                | Ok l => Ok ({| name := cfg_name agent_data; personality := p;
                                 instruction := cfg_description agent_data |} :: l)
                end
            end
          else select_agents (i + 1) rest cbox_vals pers_vals
      end
  end.

(** the [for ... in agent_convo] loop: accumulate the text, refresh the
    rating info, pass the element on *)
Fixpoint forward (formatted_output_text : string) (elements : list progress)
    : list ui_update :=
  match elements with
  | [] => []
  | p :: rest =>
      let formatted_output_text := formatted_output_text +:+ p_text p in
      Update (p_history p) formatted_output_text (p_discussion_id p) true
        {| ri_discussion_id := Some (p_discussion_id p);
           ri_iteration := p_iteration p;
           ri_agent_name := p_agent p |} false
      :: forward formatted_output_text rest
  end.

(** [process_input_custom_agents], with [*args] already split into the
    check boxes, the personalities, and the four trailing values.  The
    result lists what the UI received, the outcome and the world after. *)
Definition process_input_custom_agents (self : settings) (E : environment)
    (agent_config_data : list agent_data)
    (user_topic : string) (chat_history : list message) (rating_state : rating_info)
    (current_usr_state : option string)
    (cbox_vals : list bool) (pers_vals : list string) (iters : Z) (level lang : string)
    (discussion_id_state : option string) (w : world)
    : list ui_update * result unit * world :=
  match select_agents 0 agent_config_data cbox_vals pers_vals with
  | Raise e => ([], Raise e, w)
  | Ok [] =>
      ([NothingSelected "Keine Agenten ausgewählt!" "" discussion_id_state false rating_state],
       Ok tt, w)
  | Ok selected_agents =>
      let discussion_id_state := run_id E discussion_id_state in
      let (r, s) := joint_conversation_with_selected_agents self E user_topic selected_agents
                      iters level lang chat_history current_usr_state
                      (Some discussion_id_state) w in
      (forward "" (emitted s), r, outside s)
  end.

(** ** RatingLedger *)

(** Keys of the per-discussion mapping: callers pass [int] iterations;
    after a round trip through the rating file the keys are strings. *)
Inductive iteration_key :=
| IntKey (i : Z)
| StrKey (s : string).

#[global] Instance iteration_key_eq_dec : EqDecision iteration_key.
Proof. solve_decision. Defined.

#[global] Instance iteration_key_countable : Countable iteration_key.
Proof.
  refine (inj_countable'
    (fun k => match k with IntKey i => inl i | StrKey s => inr s end)
    (fun x => match x with inl i => IntKey i | inr s => StrKey s end) _).
  intros []; reflexivity.
Defined.

Record counters := { upvotes : Z; downvotes : Z }.

(** The value stored under a discussion id in
    [defaultdict(lambda: defaultdict(dict), load_rating_data())]: either a
    [defaultdict(dict)] made by the factory on first access
    ([vivifies = true]) or a plain [dict] as [json.load] returned it. *)
Record per_discussion := {
  vivifies : bool;
  by_iteration : gmap iteration_key (gmap string counters)
}.

Record ratings := {
  discussion_ratings : gmap string per_discussion;
  rating_file : list (gmap string per_discussion)   (* what was dumped, oldest first *)
}.

(** [self.discussion_ratings[discussion_id][iteration]]: the agents'
    dictionary and the ledger after whatever the look-ups created *)
Definition ratings_at (discussion_id : string) (iteration : Z)
    (l : gmap string per_discussion)
    : result (gmap string counters * gmap string per_discussion) :=
  let (d, l) :=
    match l !! discussion_id with
    | Some d => (d, l)
    | None =>
        let d := {| vivifies := true; by_iteration := ∅ |} in (d, <[discussion_id := d]> l)
    end in
  match by_iteration d !! IntKey iteration with
  | Some agents => Ok (agents, l)
  | None =>
      if vivifies d then
        Ok (∅, <[discussion_id := {| vivifies := true;
                                      by_iteration := <[IntKey iteration := ∅]> (by_iteration d) |}]> l)
      else Raise KeyError
  end.

(** write the agents' dictionary of [(discussion_id, iteration)] back *)
Definition update_ratings_at (discussion_id : string) (iteration : Z)
    (agents : gmap string counters) (l : gmap string per_discussion)
    : gmap string per_discussion :=
  alter (fun d => {| vivifies := vivifies d;
                     by_iteration := <[IntKey iteration := agents]> (by_iteration d) |})
        discussion_id l.

Definition add_upvote (c : counters) : counters :=
  {| upvotes := upvotes c + 1; downvotes := downvotes c |}.
Definition add_downvote (c : counters) : counters :=
  {| upvotes := upvotes c; downvotes := downvotes c + 1 |}.

(** [save_rating_data(self.discussion_ratings)] *)
Definition save_rating_data (s : ratings) : ratings :=
  {| discussion_ratings := discussion_ratings s;
     rating_file := rating_file s ++ [discussion_ratings s] |}.

Definition rate_agent_response (discussion_id : string) (iteration : Z)
    (agent_name rating_type : string) (s : ratings) : result unit * ratings :=
  match ratings_at discussion_id iteration (discussion_ratings s) with
  | Raise e => (Raise e, s)
  | Ok (agents, l) =>
      let agents :=
        match agents !! agent_name with
        | None => <[agent_name := {| upvotes := 0; downvotes := 0 |}]> agents
        | Some _ => agents
        end in
      let agents :=
        if String.eqb rating_type "upvote" then alter add_upvote agent_name agents
        else if String.eqb rating_type "downvote" then alter add_downvote agent_name agents
        else agents in
      (Ok tt,
       save_rating_data {| discussion_ratings := update_ratings_at discussion_id iteration agents l;
                           rating_file := rating_file s |})
  end.


(** ** Vocabulary for stating what a call does *)

(** the request was answered: [generate_content] returned *)
Definition answers (o : api_outcome) : bool :=
  match o with
  | Response _ => true
  | _ => false
  end.

(** the outcome of the request that a call started in world [w] sends *)
Definition outcome_of (E : environment) (w : world) (prompt : string) : api_outcome :=
  generate_content E (length (requests w)) prompt.

(** the world after a request with [prompt] that was answered *)
Definition answered (self : settings) (prompt : string) (w : world) : world :=
  {| requests := requests w ++ [prompt];
     slept := slept w ++ [api_sleep_seconds self];
     discussions := discussions w |}.

(** the world after a request with [prompt] that raised *)
Definition refused (prompt : string) (w : world) : world :=
  {| requests := requests w ++ [prompt]; slept := slept w; discussions := discussions w |}.

(** the service raised on the request sent last *)
Definition last_refused (E : environment) (w : world) : bool :=
  match last (requests w) with
  | Some prompt => negb (answers (generate_content E (Nat.pred (length (requests w))) prompt))
  | None => false
  end.

(** a service that answers every request *)
Definition always_answers (E : environment) : Prop :=
  forall k prompt, answers (generate_content E k prompt) = true.

(** ** Vocabulary for stating what a run does *)

Section Passes.
Variable self : settings.
Variable E : environment.
Variable conversation_topic : string.
Variable selected_agents : list agent.
Variable iterations : Z.
Variable language : string.
Variable discussion_id : string.

(** the two transcript entries of a pass *)
Definition turn_entries (t : turn) : list message :=
  [user_entry conversation_topic (t_i t) (t_current_agent_name t) (t_prev_agent_name t)
     (t_prev_output t);
   assistant_entry (t_i t) (t_current_agent_name t) (t_agent_output t)].

(** the element yielded by a pass, given the transcript at that point *)
Definition turn_progress (h : list message) (t : turn) : progress :=
  {| p_history := h;
     p_text := formatted_output_chunk (t_i t) (t_current_agent_name t)
                 (t_current_personality t) (t_agent_output t);
     p_discussion_id := discussion_id;
     p_iteration := Some (t_i t + 1);
     p_agent := Some (t_current_agent_name t) |}.

(** [pass i s t s']: the loop body for index [i] takes the generator from
    [s] to [s'] and its local variables are those of [t]. *)
Record pass (i : Z) (s : run_state) (t : turn) (s' : run_state) : Prop := {
  pass_i : t_i t = i;
  pass_idx : t_agent_idx t = i mod num_agents selected_agents;
  pass_name :
    active_agents_names selected_agents !! Z.to_nat (i mod num_agents selected_agents) =
    Some (t_current_agent_name t);
  pass_config :
    exists a, find (fun a => String.eqb (name a) (t_current_agent_name t)) selected_agents = Some a /\
              t_current_personality t = personality a /\
              t_prompt_txt t =
                build_prompt conversation_topic language i (t_current_agent_name t)
                  (instruction a) (personality a) (t_prev_agent_name t) (t_prev_output t);
  pass_prev_name :
    active_agents_names selected_agents !! Z.to_nat ((i - 1) mod num_agents selected_agents) =
    Some (t_prev_agent_name t);
  pass_prev_output :
    agent_outputs s !! Z.to_nat ((i - 1) mod num_agents selected_agents) =
    Some (t_prev_output t);
  pass_first :
    (call_gemini_api self E (t_prompt_txt t) (outside s)).1 = Ok (t_first_output t);
  pass_qual : t_qual t = evaluate_response (t_first_output t);
  pass_retry :
    let w1 := (call_gemini_api self E (t_prompt_txt t) (outside s)).2 in
    if String.eqb (t_qual t) "schlechte antwort" then
      let retry := call_gemini_api self E creative_prompt w1 in
      exists retry_output,
        retry.1 = Ok retry_output /\
        t_agent_output t =
          (if negb (contains error_marker retry_output) then retry_output
           else t_first_output t) /\
        outside s' = retry.2
    else t_agent_output t = t_first_output t /\ outside s' = w1;
  pass_stored :
    t_outputs_stored t =
    <[Z.to_nat (i mod num_agents selected_agents) := t_agent_output t]> (agent_outputs s);
  pass_fired :
    exists held,
      t_outputs_stored t !! Z.to_nat ((i - 1) mod num_agents selected_agents) = Some held /\
      t_fired t = past_threshold iterations i && String.eqb (t_agent_output t) held
                  && negb (topic_changed s);
  pass_end :
    t_outputs_end t =
    if t_fired t then replicate (Z.to_nat (num_agents selected_agents)) new_topic
    else t_outputs_stored t;
  pass_outputs : agent_outputs s' = t_outputs_end t;
  pass_changed : topic_changed s' = topic_changed s || t_fired t;
  pass_history : chat_history s' = chat_history s ++ turn_entries t;
  pass_emitted :
    emitted s' = emitted s ++ [turn_progress (chat_history s ++ turn_entries t) t];
  pass_turns : turns s' = turns s ++ [t]
}.

(** consecutive passes, starting at index [i] *)
Inductive passes : Z -> run_state -> list turn -> run_state -> Prop :=
| passes_nil i s : passes i s [] s
| passes_cons i s t s1 ts s' :
    pass i s t s1 -> passes (i + 1) s1 ts s' -> passes i s (t :: ts) s'.

(** [halt i s s']: the loop body for index [i], started in [s], is left by
    the exception of a request that the service refused, in state [s'].
    The prompt entry of the pass has been appended; the refused request is
    the one for the turn's prompt, or the one with the creative prompt
    after a reply that was classified poor and stored. *)
Record halt (i : Z) (s s' : run_state) : Prop := {
  halt_history :
    exists current_agent_name prev_agent_name prev_output,
      chat_history s' = chat_history s ++
        [user_entry conversation_topic i current_agent_name prev_agent_name prev_output];
  halt_emitted : emitted s' = emitted s;
  halt_turns : turns s' = turns s;
  halt_changed : topic_changed s' = topic_changed s;
  halt_window :
    agent_outputs s' = agent_outputs s \/
    exists first_output,
      evaluate_response first_output = "schlechte antwort" /\
      agent_outputs s' =
        <[Z.to_nat (i mod num_agents selected_agents) := first_output]> (agent_outputs s);
  halt_requests :
    exists sent, requests (outside s') = requests (outside s) ++ sent /\
                 (1 <= length sent <= 2)%nat;
  halt_refused : last_refused E (outside s') = true;
  halt_discussions : discussions (outside s') = discussions (outside s)
}.

End Passes.

(** ** Sample inputs *)

Definition quiet : world := {| requests := []; slept := []; discussions := [] |}.

Definition agent_A : agent :=
  {| name := "A"; personality := "kritisch"; instruction := "Prüfe die Fakten." |}.
Definition agent_B : agent :=
  {| name := "B"; personality := "visionär"; instruction := "Denke voraus." |}.

(** a service that answers the [k]-th request with the text [r<k>] *)
Definition numbering : environment :=
  {| generate_content := fun k _ => Response (Some ("r" +:+ pretty k));
     db_behaves := DbHealthy;
     now_stamp := "20250101_120000" |}.

(** a service whose first reply admits to repeating itself and which then
    refuses the next request with status 401 *)
Definition retry_unauthorized : environment :=
  {| generate_content := fun k _ =>
       match k with
       | 0%nat => Response (Some "Ich wiederhole mich.")
       | 1%nat => APIError 401 "401 UNAUTHENTICATED"
       | _ => Response (Some "In Ordnung.")
       end;
     db_behaves := DbHealthy;
     now_stamp := "20250101_120000" |}.

(** the numbering service next to a database file that cannot be opened *)
Definition unreachable_db : environment :=
  {| generate_content := generate_content numbering;
     db_behaves := DbConnectFails;
     now_stamp := "20250101_120000" |}.

Definition agent_data_A : agent_data :=
  {| cfg_name := "A"; cfg_personality := "kritisch"; cfg_description := "Prüfe die Fakten." |}.
Definition agent_data_B : agent_data :=
  {| cfg_name := "B"; cfg_personality := "visionär"; cfg_description := "Denke voraus." |}.

Definition no_rating : rating_info :=
  {| ri_discussion_id := None; ri_iteration := None; ri_agent_name := None |}.

(** the ledger of a process started on a rating file that an earlier
    process wrote after one upvote for agent A in iteration 1 of
    discussion [20250101_120000]:
    [{"20250101_120000": {"1": {"A": {"upvotes": 1, "downvotes": 0}}}}] *)
Definition reloaded_ratings : ratings :=
  {| discussion_ratings :=
       {[ "20250101_120000" :=
            {| vivifies := false;
               by_iteration := {[ StrKey "1" := {[ "A" := {| upvotes := 1; downvotes := 0 |} ]} ]} |} ]};
     rating_file := [] |}.


(** ** Further sample inputs *)

(** a service that is rate limited twice and then answers *)
Definition rate_limited_twice : environment :=
  {| generate_content := fun k _ =>
       match k with
       | 0%nat | 1%nat => APIError 429 "429 RESOURCE_EXHAUSTED"
       | _ => Response (Some "Eine neue Perspektive.")
       end;
     db_behaves := DbHealthy;
     now_stamp := "20250101_120000" |}.

(** a service whose response carries no text *)
Definition empty_reply : environment :=
  {| generate_content := fun _ _ => Response None;
     db_behaves := DbHealthy;
     now_stamp := "20250101_120000" |}.

(** a service that is overloaded once and then answers *)
Definition overloaded : environment :=
  {| generate_content := fun k _ =>
       match k with
       | 0%nat => APIError 503 "503 UNAVAILABLE"
       | _ => Response (Some "Eine neue Perspektive.")
       end;
     db_behaves := DbHealthy;
     now_stamp := "20250101_120000" |}.

(** a service whose reply has the words of the handlers' error text *)
Definition misleading : environment :=
  {| generate_content := fun _ _ =>
       Response (Some "Fehler bei Gemini API Aufruf: bitte warten.");
     db_behaves := DbHealthy;
     now_stamp := "20250101_120000" |}.

(** a service that always fails with status 500 *)
Definition always_internal_error : environment :=
  {| generate_content := fun _ _ => APIError 500 "500 INTERNAL";
     db_behaves := DbHealthy;
     now_stamp := "20250101_120000" |}.

(** the database file cannot be opened *)
Definition cannot_connect (E : environment) : bool :=
  match db_behaves E with
  | DbConnectFails => true
  | _ => false
  end.

Definition poor (t : turn) : bool := String.eqb (t_qual t) "schlechte antwort".

(** the requests of one turn: its prompt, then the creative prompt if the
    first reply was classified poor *)
Definition turn_requests (t : turn) : list string :=
  t_prompt_txt t :: (if poor t then [creative_prompt] else []).

(** ** The vote buttons *)

(** Python truthiness of an optional [int] ([None] and [0] are false) *)
Definition truthy_int (o : option Z) : bool :=
  match o with
  | None => false
  | Some z => negb (z =? 0)
  end.

(** the common shape of [upvote_event] and [downvote_event]: read the three
    fields with [.get], vote when all are truthy *)
Definition vote_event (rating_type given missing : string) (r_state : rating_info)
    (s : ratings) : result string * ratings :=
  let did := ri_discussion_id r_state in
  let itn := ri_iteration r_state in
  let agn := ri_agent_name r_state in
  if truthy did && truthy_int itn && truthy agn then
    match rate_agent_response (default "" did) (default 0 itn) (default "" agn) rating_type s with
    | (Ok _, s') => (Ok given, s')
    | (Raise e, s') => (Raise e, s')
    end
  else (Ok missing, s).

Definition upvote_event : rating_info -> ratings -> result string * ratings :=
  vote_event "upvote" "👍 Upvote gegeben" "Fehler beim Upvote (fehlende Daten).".

Definition downvote_event : rating_info -> ratings -> result string * ratings :=
  vote_event "downvote" "👎 Downvote gegeben" "Fehler beim Downvote (fehlende Daten).".



(** ** Vocabulary for the selection *)

(** the ticked entries of the configuration, in its order, each with the
    personality chosen for it *)
Fixpoint ticked_agents (agent_config_data : list agent_data) (cbox_vals : list bool)
    (pers_vals : list string) : list agent :=
  match agent_config_data, cbox_vals, pers_vals with
  | a :: cfg, b :: cbox, p :: pers =>
      (if b then [{| name := cfg_name a; personality := p; instruction := cfg_description a |}]
       else []) ++ ticked_agents cfg cbox pers
  | _, _, _ => []
  end.


(** ** Vocabulary for the rating ledger *)





(** a dictionary as [json.load] returns it: plain, with string keys *)
Definition as_loaded (d : per_discussion) : Prop :=
  vivifies d = false /\ forall i agents, by_iteration d !! IntKey i = Some agents -> False.






(** ** Reading the stored discussions *)

(** a value of the dictionary that [load_discussion_data_db] returns *)
Record stored_discussion := {
  sd_topic : string;
  sd_agents : list string;
  sd_chat_history : list message;
  sd_summary : string;
  sd_user : string;
  sd_timestamp : string
}.

Section TranscriptReader.
Variable E : environment.
(** column [timestamp] of the row with the given primary key; SQLite fills
    it with [CURRENT_TIMESTAMP] when the row is inserted *)
Variable timestamp_of : string -> string.

(** the dictionary entry made of a row.  The columns [agents] and
    [chat_history] hold what [json.dumps] made of a list of strings and of
    a list of role/content dictionaries; [json.loads] gives the lists
    back, and the dumped text is never empty. *)
Definition entry_of_row (row : discussion_row) : stored_discussion :=
  {| sd_topic := row_topic row;
     sd_agents := row_agents row;
     sd_chat_history := row_chat_history row;
     sd_summary := row_summary row;
     sd_user := row_user row;
     sd_timestamp := timestamp_of (row_discussion_id row) |}.

(** the rows the SELECT returns *)
Definition select_rows (user : option string) (w : world) : list discussion_row :=
  if truthy user
  then List.filter (fun r => String.eqb (row_user r) (default "" user)) (discussions w)
  else discussions w.

(** [load_discussion_data_db]: the connection is opened before the [try];
    a failing statement is logged and the empty dictionary returned *)
Definition load_discussion_data_db (user : option string) (w : world)
    : result (gmap string stored_discussion) :=
  match db_behaves E with
  | DbConnectFails => Raise OperationalError
  | DbStatementFails => Ok ∅
  | DbHealthy =>
      Ok (foldl (fun discussions row => <[row_discussion_id row := entry_of_row row]> discussions)
                ∅ (select_rows user w))
  end.

(** what the button [Diskussionen laden] shows *)
Inductive disc_data :=
| Warnung (text : string)
| Discussions (d : gmap string stored_discussion).

Definition load_discs (current_usr : option string) (w : world) : result disc_data :=
  if truthy current_usr then
    match load_discussion_data_db current_usr w with
    | Ok d => Ok (Discussions d)
    | Raise e => Raise e
    end
  else Ok (Warnung "Niemand eingeloggt.").

End TranscriptReader.

(** the primary keys of the table *)
Definition table_ids (w : world) : list string := map row_discussion_id (discussions w).

(** is the id in the table? *)
Definition stored (discussion_id : string) (w : world) : bool :=
  existsb (fun r => String.eqb (row_discussion_id r) discussion_id) (discussions w).

(** a clock for the sample inputs *)
Definition noon : string -> string := fun _ => "2025-01-01 12:00:00".

(** a table with one discussion of user [u] and one of user [v] *)
Definition archive : world :=
  {| requests := []; slept := [];
     discussions :=
       [{| row_discussion_id := "d1"; row_topic := "X"; row_agents := ["A"; "B"];
           row_chat_history := []; row_summary := "Kurz."; row_user := "u" |};
        {| row_discussion_id := "d2"; row_topic := "Y"; row_agents := ["A"];
           row_chat_history := []; row_summary := "Lang."; row_user := "v" |}] |}.

(** ** Accounts *)

(** a UTF-8 continuation byte, [10xxxxxx] *)
Definition continuation (c : ascii) : bool :=
  let n := N_of_ascii c in ((128 <=? n) && (n <? 192))%N.

(** [len(s)]: the number of code points, that is, of the bytes that do not
    continue one *)
Fixpoint py_len (s : string) : Z :=
  match s with
  | EmptyString => 0
  | String c t => (if continuation c then 0 else 1) + py_len t
  end.

(** a character of the class [[a-zA-Z0-9_-]] *)
Definition name_char (c : ascii) : bool :=
  let n := N_of_ascii c in
  (((97 <=? n) && (n <=? 122)) || ((65 <=? n) && (n <=? 90)) || ((48 <=? n) && (n <=? 57))
   || (n =? 95) || (n =? 45))%N.

(** the rest of a match of [[a-zA-Z0-9_-]+$]: more characters of the class,
    up to the end of the string or to a newline that ends it, where [$]
    matches as well *)
Fixpoint name_tail (s : string) : bool :=
  match s with
  | EmptyString => true
  | String c t => if name_char c then name_tail t else String.eqb s nl
  end.

(** [re.match(r"^[a-zA-Z0-9_-]+$", username)] is not [None] *)
Definition valid_username (username : string) : bool :=
  match username with
  | EmptyString => false
  | String c t => name_char c && name_tail t
  end.

(** The user file.  [user_data_file] is what [load_json_data] gets from
    it: [None] when the file is missing, is not JSON or does not pass the
    schema, otherwise the dictionary it holds, here of the shape the
    program writes, user name to the value of ["password"].
    [user_file_writable] tells whether opening it for writing succeeds. *)
Record accounts := {
  user_data_file : option (gmap string string);
  user_file_writable : bool
}.

Section Accounts.
(** [hashlib.sha256(password.encode()).hexdigest()] *)
Variable hash_password : string -> string.

Definition verify_password (password hashed_password : string) : bool :=
  String.eqb (hash_password password) hashed_password.

(** [load_user_data]: the dictionary of the file, [{}] when it cannot be
    used *)
Definition load_user_data (st : accounts) : gmap string string :=
  default ∅ (user_data_file st).

(** [save_user_data]: an [IOError] is logged and nothing is written *)
Definition save_user_data (user_data : gmap string string) (st : accounts) : accounts :=
  if user_file_writable st
  then {| user_data_file := Some user_data; user_file_writable := true |}
  else st.

Definition register_user (username password : string) (st : accounts) : string * accounts :=
  if negb (valid_username username) then
    ("Ungültiger Nutzername. Nur Buchstaben, Zahlen, '-', '_' erlaubt.", st)
  else if py_len password <? 8 then
    ("Passwort muss mindestens 8 Zeichen lang sein.", st)
  else
    let user_data := load_user_data st in
    match user_data !! username with
    | Some _ => ("Nutzername bereits vergeben.", st)
    | None =>
        let user_data := <[username := hash_password password]> user_data in
        ("Registrierung erfolgreich.", save_user_data user_data st)
    end.

Definition login_user (username password : string) (st : accounts) : string * option string :=
  let user_data := load_user_data st in
  match user_data !! username with
  | Some hashed =>
      if verify_password password hashed then ("Login erfolgreich.", Some username)
      else ("Login fehlgeschlagen.", None)
  | None => ("Login fehlgeschlagen.", None)
  end.

(** the click on [Login]: message and new value of [user_state] *)
Definition login_event (u_name u_pass : string) (current_usr : option string) (st : accounts)
    : string * option string :=
  let (msg, logged_in_user) := login_user u_name u_pass st in
  if truthy logged_in_user then (msg, logged_in_user) else (msg, current_usr).

End Accounts.

(** the strings the pattern [^[a-zA-Z0-9_-]+$] describes for [re.match] *)
Definition name_like (username : string) : Prop :=
  exists word, word <> "" /\
    (forall c, In c (list_ascii_of_string word) -> name_char c = true) /\
    (username = word \/ username = word +:+ nl).

(** sample inputs *)
Definition tagged (password : string) : string := "sha256:" +:+ password.

Definition no_accounts : accounts :=
  {| user_data_file := None; user_file_writable := true |}.

Definition read_only_accounts : accounts :=
  {| user_data_file := None; user_file_writable := false |}.

(** ** The claims in the terms of the model *)



(** ** The generator between two passes *)

(** The generator after its first [k] passes through the loop body, where
    it is suspended at the top of the loop: the [k]-th element has been
    handed over and the stagnation check of that pass has run.  The
    arguments are those of [joint_conversation_with_selected_agents]. *)
Definition after_passes (self : settings) (E : environment)
    (conversation_topic : string) (selected_agents : list agent) (iterations : Z)
    (language : string) (chat_history : list message) (discussion_id : option string)
    (w : world) (k : nat) : result unit * run_state :=
  for_each (py_range (Z.of_nat k))
    (conversation_turn self E conversation_topic selected_agents iterations language
       (run_id E discussion_id))
    (start selected_agents chat_history w).

(** pass [k] (0-based) is the one that sets [topic_changed] *)
Definition injects (at_top : nat -> result unit * run_state) (k : nat) : Prop :=
  topic_changed (at_top k).2 = false /\ topic_changed (at_top (S k)).2 = true.

(** a service that answers every request with the same text *)
Definition echo : environment :=
  {| generate_content := fun _ _ => Response (Some "Einverstanden.");
     db_behaves := DbHealthy;
     now_stamp := "20250101_120000" |}.

(** ** Vocabulary for texts *)

(** a text of ASCII characters only *)
Fixpoint ascii_text (s : string) : bool :=
  match s with
  | EmptyString => true
  | String c t => (N_of_ascii c <? 128)%N && ascii_text t
  end.

(** the text does not start in the middle of a code point *)
Definition starts_clean (s : string) : bool :=
  match s with
  | EmptyString => true
  | String c _ => negb (((128 <=? N_of_ascii c) && (N_of_ascii c <? 192))%N)
  end.

(** * Proofs *)

(** ** Binary64 arithmetic: the threshold [iterations * 0.6] *)

(** [digits2_pos] counts binary digits *)
Lemma digits2_pos_bounds (p : positive) :
  2 ^ (Z.pos (digits2_pos p) - 1) <= Z.pos p < 2 ^ Z.pos (digits2_pos p).
Proof.
  induction p as [p IH|p IH|]; cbn [digits2_pos].
  - rewrite Pos2Z.inj_succ. replace (Z.succ (Z.pos (digits2_pos p)) - 1) with (Z.succ (Z.pos (digits2_pos p) - 1)) by lia.
    rewrite !Z.pow_succ_r by lia. lia.
  - rewrite Pos2Z.inj_succ. replace (Z.succ (Z.pos (digits2_pos p)) - 1) with (Z.succ (Z.pos (digits2_pos p) - 1)) by lia.
    rewrite !Z.pow_succ_r by lia. lia.
  - cbn. lia.
Qed.

Lemma digits2_pos_unique (p : positive) (d : Z) :
  2 ^ (d - 1) <= Z.pos p < 2 ^ d -> Z.pos (digits2_pos p) = d.
Proof.
  intros [Hlo Hhi]. pose proof (digits2_pos_bounds p) as [Hlo' Hhi'].
  assert (0 < d).
  { destruct (Z_lt_le_dec 0 d); [assumption|]. 
    assert (2 ^ d <= 2 ^ 0) by (destruct (Z_lt_le_dec d 0); [rewrite Z.pow_neg_r by lia; cbn; lia | apply Z.pow_le_mono_r; lia]).
    cbn in *. lia. }
  destruct (Z_lt_le_dec (Z.pos (digits2_pos p)) d) as [Hlt|Hge].
  - assert (2 ^ Z.pos (digits2_pos p) <= 2 ^ (d - 1)) by (apply Z.pow_le_mono_r; lia). lia.
  - destruct (Z_lt_le_dec d (Z.pos (digits2_pos p))) as [Hlt|Hle]; [|lia].
    assert (2 ^ d <= 2 ^ (Z.pos (digits2_pos p) - 1)) by (apply Z.pow_le_mono_r; lia). lia.
Qed.

Lemma iter_pos_nat {A} (f : A -> A) (p : positive) (x : A) :
  SpecFloat.iter_pos f p x = Nat.iter (Pos.to_nat p) f x.
Proof.
  revert x. induction p as [p IH|p IH|]; intros x; cbn [SpecFloat.iter_pos].
  - rewrite !IH, Pos2Nat.inj_xI.
    replace (S (2 * Pos.to_nat p)) with (Pos.to_nat p + S (Pos.to_nat p))%nat by lia.
    rewrite Nat.iter_add, Nat.iter_succ_r. reflexivity.
  - rewrite !IH, Pos2Nat.inj_xO.
    replace (2 * Pos.to_nat p)%nat with (Pos.to_nat p + Pos.to_nat p)%nat by lia.
    rewrite Nat.iter_add. reflexivity.
  - reflexivity.
Qed.

Lemma shr_1_nonneg (m : Z) (r s : bool) :
  0 <= m ->
  shr_1 (Build_shr_record m r s) = Build_shr_record (m / 2) (Z.odd m) (r || s).
Proof.
  intros Hm. destruct m as [|p|p]; [reflexivity | | lia].
  destruct p as [p|p|]; cbn [shr_1 Z.odd].
  - f_equal. rewrite Pos2Z.inj_xI. apply (Z.div_unique _ 2 _ 1); lia.
  - f_equal. rewrite Pos2Z.inj_xO. apply (Z.div_unique _ 2 _ 0); lia.
  - reflexivity.
Qed.

Lemma shifted_iter (P : Z) (k : nat) :
  0 <= P ->
  shifted P k (Nat.iter k shr_1 (Build_shr_record P false false)).
Proof.
  intros HP. induction k as [|k IH].
  - cbn. unfold shifted. cbn. rewrite Z.div_1_r, Z.mod_1_r. split; [reflexivity|].
    exists 0. repeat split; lia.
  - rewrite Nat.iter_succ. destruct (Nat.iter k shr_1 (Build_shr_record P false false)) as [m r s].
    destruct IH as [Hm (t & Hrem & Ht0 & Ht1 & Hs)]. cbn [shr_m shr_r shr_s] in *.
    assert (H2k : 0 < 2 ^ Z.of_nat k) by (apply Z.pow_pos_nonneg; lia).
    assert (Hm0 : 0 <= m) by (subst m; apply Z.div_pos; lia).
    rewrite shr_1_nonneg by exact Hm0. unfold shifted. cbn [shr_m shr_r shr_s].
    rewrite Nat2Z.inj_succ, Z.pow_succ_r by lia.
    assert (Hdiv : P / (2 * 2 ^ Z.of_nat k) = m / 2).
    { subst m. rewrite (Z.mul_comm 2), Z.div_div by lia. reflexivity. }
    split; [symmetry; exact Hdiv|].
    exists (P mod 2 ^ Z.of_nat k).
    pose proof (Z.mod_pos_bound P (2 ^ Z.of_nat k) H2k) as Hb.
    assert (Hrem' : P mod (2 * 2 ^ Z.of_nat k) = 2 ^ Z.of_nat k * (m mod 2) + P mod 2 ^ Z.of_nat k).
    { rewrite (Z.mul_comm 2). rewrite Z.rem_mul_r by lia. subst m. lia. }
    rewrite Hrem'. rewrite Zmod_odd.
    split; [destruct (Z.odd m); lia|].
    split; [lia|]. split; [lia|].
    destruct r, s; cbn [orb]; split; intros H; try discriminate; try reflexivity; try lia.
Qed.

Lemma shr_spec (P e n : Z) :
  0 <= P -> 0 <= n ->
  exists mrs, shr (Build_shr_record P false false) e n = (mrs, e + n) /\
              shifted P (Z.to_nat n) mrs.
Proof.
  intros HP Hn. destruct n as [|p|p]; [| |lia].
  - exists (Build_shr_record P false false). rewrite Z.add_0_r. split; [reflexivity|].
    apply (shifted_iter P 0 HP).
  - exists (SpecFloat.iter_pos shr_1 p (Build_shr_record P false false)). split; [reflexivity|].
    rewrite iter_pos_nat. cbn [Z.to_nat]. apply shifted_iter, HP.
Qed.

Lemma round_nearest_even_spec (P : Z) (k : nat) (mrs : shr_record) :
  0 <= P -> shifted P k mrs ->
  let m2 := round_nearest_even (shr_m mrs) (loc_of_shr_record mrs) in
  P / 2 ^ Z.of_nat k <= m2 <= P / 2 ^ Z.of_nat k + 1 /\
  2 * Z.abs (m2 * 2 ^ Z.of_nat k - P) <= 2 ^ Z.of_nat k.
Proof.
  intros HP [Hm (t & Hrem & Ht0 & Ht1 & Hs)] m2.
  assert (H2k : 0 < 2 ^ Z.of_nat k) by (apply Z.pow_pos_nonneg; lia).
  pose proof (Z.div_mod P (2 ^ Z.of_nat k) ltac:(lia)) as Hdm.
  pose proof (Z.mod_pos_bound P (2 ^ Z.of_nat k) H2k) as Hb.
  subst m2. destruct mrs as [m r s]. cbn [shr_m shr_r shr_s] in *. subst m.
  set (q := P / 2 ^ Z.of_nat k) in *. set (T := 2 ^ Z.of_nat k) in *.
  set (rem := P mod T) in *.
  destruct r, s; cbn [loc_of_shr_record round_nearest_even].
  - split; [lia|]. nia.
  - assert (t = 0) by (apply Hs; reflexivity).
    destruct (Z.even q); split; try lia; nia.
  - split; [lia|]. nia.
  - split; [lia|]. nia.
Qed.

Lemma shr_fexp_exact (m e D : Z) :
  Zdigits2 m = D -> 53 <= D -> -1074 <= D + e - 53 ->
  shr_fexp 53 1024 m e loc_Exact = shr (Build_shr_record m false false) e (D - 53).
Proof.
  intros HD H53 Hmin. unfold shr_fexp, fexp, emin. rewrite HD. cbn [shr_record_of_loc].
  f_equal. lia.
Qed.

Lemma round_big (P : positive) (e : Z) :
  let D := Z.pos (digits2_pos P) in
  53 <= D -> -1074 <= D + e - 53 -> D + e - 53 + 1 <= 971 ->
  exists m3 e3,
    binary_round_aux 53 1024 false (Z.pos P) e loc_Exact = S754_finite false m3 e3 /\
    2 ^ 52 <= Z.pos m3 < 2 ^ 53 /\
    e + (D - 53) <= e3 <= e + (D - 53) + 1 /\
    2 * Z.abs (Z.pos m3 * 2 ^ (e3 - e) - Z.pos P) <= 2 ^ (D - 53).
Proof.
  intros D H53 Hmin Hmax.
  pose proof (digits2_pos_bounds P) as HP. fold D in HP.
  set (n := D - 53) in *.
  assert (Hn : 0 <= n) by lia.
  unfold binary_round_aux.
  rewrite (shr_fexp_exact (Z.pos P) e D eq_refl H53 Hmin). fold n.
  destruct (shr_spec (Z.pos P) e n ltac:(lia) Hn) as (mrs & -> & Hsh).
  pose proof (round_nearest_even_spec (Z.pos P) (Z.to_nat n) mrs ltac:(lia) Hsh) as Hr.
  cbv zeta in Hr. rewrite Z2Nat.id in Hr by lia.
  set (m2 := round_nearest_even (shr_m mrs) (loc_of_shr_record mrs)) in *.
  destruct Hr as [Hq Habs].
  assert (H2n : 0 < 2 ^ n) by (apply Z.pow_pos_nonneg; lia).
  assert (Hpow : 2 ^ D = 2 ^ 53 * 2 ^ n).
  { replace D with (53 + n) by lia. rewrite Z.pow_add_r by lia. reflexivity. }
  assert (Hpow' : 2 ^ (D - 1) = 2 ^ 52 * 2 ^ n).
  { replace (D - 1) with (52 + n) by lia. rewrite Z.pow_add_r by lia. reflexivity. }
  assert (Hqb : 2 ^ 52 <= Z.pos P / 2 ^ n < 2 ^ 53).
  { split.
    - apply Z.div_le_lower_bound; [lia|]. rewrite Z.mul_comm. lia.
    - apply Z.div_lt_upper_bound; [lia|]. rewrite Z.mul_comm. lia. }
  assert (Hm2 : 2 ^ 52 <= m2 <= 2 ^ 53) by lia.
  destruct m2 as [|p2|p2] eqn:Hp2; [cbn in Hm2; lia | | cbn in Hm2; lia].
  destruct (Z_lt_le_dec (Z.pos p2) (2 ^ 53)) as [Hlt|Hge].
  - (* the rounded mantissa still has 53 digits *)
    assert (Hd2 : Zdigits2 (Z.pos p2) = 53).
    { cbn [Zdigits2]. apply digits2_pos_unique. change (53 - 1) with 52. lia. }
    rewrite (shr_fexp_exact (Z.pos p2) (e + n) 53 Hd2 ltac:(lia) ltac:(lia)).
    change (53 - 53) with 0. cbn [shr shr_m].
    replace (e + n <=? 1024 - 53) with true by (symmetry; apply Z.leb_le; lia).
    exists p2, (e + n). split; [reflexivity|]. split; [lia|]. split; [lia|].
    replace (e + n - e) with n by lia. exact Habs.
  - (* rounding carried into a 54th digit *)
    assert (Heq : Z.pos p2 = 2 ^ 53) by lia.
    assert (Hd2 : Zdigits2 (Z.pos p2) = 54).
    { cbn [Zdigits2]. apply digits2_pos_unique. rewrite Heq. cbn. lia. }
    rewrite (shr_fexp_exact (Z.pos p2) (e + n) 54 Hd2 ltac:(lia) ltac:(lia)).
    change (54 - 53) with 1. cbn [shr SpecFloat.iter_pos].
    rewrite shr_1_nonneg by lia. cbn [shr_m]. rewrite Heq.
    change (2 ^ 53 / 2) with (Z.pos (2 ^ 52)%positive).
    replace (e + n + 1 <=? 1024 - 53) with true by (symmetry; apply Z.leb_le; lia).
    exists (2 ^ 52)%positive, (e + n + 1). split; [reflexivity|].
    split; [cbn; lia|]. split; [lia|].
    replace (e + n + 1 - e) with (n + 1) by lia.
    rewrite Z.pow_add_r by lia. change (2 ^ 1) with 2.
    rewrite Heq in Habs. change (Z.pos (2 ^ 52)) with (2 ^ 52).
    replace (2 ^ 52 * (2 ^ n * 2)) with (2 ^ 53 * 2 ^ n) by (change (2 ^ 53) with (2 ^ 52 * 2); ring).
    exact Habs.
Qed.


Lemma pos_iter_xO (m d : positive) : Z.pos (Pos.iter xO m d) = Z.pos m * 2 ^ Z.pos d.
Proof.
  induction d as [|d IH] using Pos.peano_ind.
  - cbn. lia.
  - rewrite Pos.iter_succ, Pos2Z.inj_xO, IH, Pos2Z.inj_succ, Z.pow_succ_r by lia. ring.
Qed.

Lemma float_of_int_spec (N : Z) :
  0 < N < 2 ^ 53 ->
  exists m e,
    float_of_int N = S754_finite false m e /\
    2 ^ 52 <= Z.pos m < 2 ^ 53 /\ -52 <= e <= 0 /\ Z.pos m = N * 2 ^ (- e).
Proof.
  intros [H0 H53]. destruct N as [|p|p]; try lia.
  unfold float_of_int, binary_normalize, binary_round, prec, emax.
  pose proof (digits2_pos_bounds p) as Hd.
  set (d := Z.pos (digits2_pos p)) in *.
  assert (Hd53 : 1 <= d <= 53).
  { split; [subst d; lia|].
    destruct (Z_lt_le_dec 53 d); [|lia].
    assert (2 ^ 53 <= 2 ^ (d - 1)) by (apply Z.pow_le_mono_r; lia). lia. }
  assert (Hfexp : fexp 53 1024 (d + 0) = d - 53) by (unfold fexp, emin; lia).
  rewrite Hfexp.
  assert (Halign : exists mz, shl_align p 0 (d - 53) = (mz, d - 53) /\
                              Z.pos mz = Z.pos p * 2 ^ (53 - d)).
  { unfold shl_align. rewrite Z.sub_0_r.
    destruct (d - 53) as [|q|q] eqn:Hq; [| lia |].
    - exists p. split; [reflexivity|]. replace (53 - d) with 0 by lia. cbn. lia.
    - exists (Pos.iter xO p q). split; [reflexivity|]. rewrite pos_iter_xO.
      replace (53 - d) with (Z.pos q) by lia. reflexivity. }
  destruct Halign as (mz & -> & Hmz).
  assert (Hc : 2 ^ (d - 1) * 2 ^ (53 - d) = 2 ^ 52 /\ 2 ^ d * 2 ^ (53 - d) = 2 ^ 53).
  { rewrite <- !Z.pow_add_r by lia. split; f_equal; lia. }
  assert (Hpos : 0 < 2 ^ (53 - d)) by (apply Z.pow_pos_nonneg; lia).
  assert (Hmzb : 2 ^ 52 <= Z.pos mz < 2 ^ 53) by (rewrite Hmz; nia).
  assert (Hdz : Z.pos (digits2_pos mz) = 53) by (apply digits2_pos_unique; exact Hmzb).
  destruct (round_big mz (d - 53)) as (m3 & e3 & -> & Hm3 & He3 & Habs);
    rewrite ?Hdz; try lia.
  rewrite Hdz in He3, Habs. change (53 - 53) with 0 in *. change (2 ^ 0) with 1 in Habs.
  assert (He : e3 = d - 53).
  { destruct (Z.eq_dec e3 (d - 53)) as [|Hne]; [assumption|].
    assert (e3 - (d - 53) = 1) as Hone by lia. rewrite Hone in Habs.
    change (2 ^ 1) with 2 in Habs. lia. }
  subst e3. rewrite Z.sub_diag in Habs. change (2 ^ 0) with 1 in Habs.
  exists m3, (d - 53). split; [reflexivity|]. split; [exact Hm3|]. split; [lia|].
  replace (- (d - 53)) with (53 - d) by lia. lia.
Qed.

Lemma small_multiple (z A : Z) : 0 < A -> Z.abs (z * A) < A -> z = 0.
Proof. intros HA H. destruct (Z.eq_dec z 0); [assumption|]. nia. Qed.

Lemma scale_ltb (a b S : Z) : 0 < S -> (a <? b) = (a * S <? b * S).
Proof.
  intros HS. destruct (Z.ltb_spec a b); symmetry.
  - apply Z.ltb_lt. apply Z.mul_lt_mono_pos_r; assumption.
  - apply Z.ltb_ge. apply Z.mul_le_mono_nonneg_r; lia.
Qed.

(** [i > n * 0.6] in binary64 agrees with the exact comparison [5 i > 3 n] *)
Lemma past_threshold_exact (n i : Z) :
  0 < n < 2 ^ 50 ->
  past_threshold n i = (3 * n <? 5 * i).
Proof.
  intros Hn.
  destruct (float_of_int_spec n) as (m & e & Hf & Hm & He & Hval);
    [change (2 ^ 50) with 1125899906842624 in Hn;
     change (2 ^ 53) with 9007199254740992; lia|].
  assert (Hc0 : 0 < 2 ^ (- e)) by (apply Z.pow_pos_nonneg; lia).
  change (2 ^ 50) with 1125899906842624 in Hn.
  change (2 ^ 52) with 4503599627370496 in Hm.
  change (2 ^ 53) with 9007199254740992 in Hm.
  (* n < 2^50 leaves at least three trailing zero bits in the mantissa *)
  assert (He3 : e <= -3).
  { destruct (Z_lt_le_dec (-3) e) as [Hgt|]; [|lia].
    assert (H4 : 2 ^ (- e) <= 2 ^ 2) by (apply Z.pow_le_mono_r; lia).
    change (2 ^ 2) with 4 in H4.
    assert (n * 2 ^ (- e) <= n * 4) by (apply Z.mul_le_mono_nonneg_l; lia).
    lia. }
  unfold past_threshold. rewrite Hf.
  unfold float_0_6, SFmul, prec, emax. cbn [xorb].
  set (M := 5404319552844595%positive).
  pose proof (digits2_pos_bounds (m * M)) as HD.
  set (D := Z.pos (digits2_pos (m * M))) in *.
  assert (HP : 2 ^ 104 <= Z.pos (m * M) < 2 ^ 106).
  { rewrite Pos2Z.inj_mul.
    change (2 ^ 104) with (4503599627370496 * 4503599627370496).
    change (2 ^ 106) with (9007199254740992 * 9007199254740992).
    split.
    - apply Z.mul_le_mono_nonneg; [lia | lia | lia | subst M; lia].
    - apply Z.mul_lt_mono_nonneg; [lia | lia | lia | subst M; lia]. }
  assert (HDr : 105 <= D <= 106).
  { split.
    - destruct (Z_lt_le_dec D 105); [|lia].
      assert (2 ^ D <= 2 ^ 104) by (apply Z.pow_le_mono_r; lia). lia.
    - destruct (Z_lt_le_dec 106 D); [|lia].
      assert (2 ^ 106 <= 2 ^ (D - 1)) by (apply Z.pow_le_mono_r; lia). lia. }
  clear HD HP.
  destruct (round_big (m * M) (e + -53)) as (m3 & e3 & -> & Hm3 & He3' & Habs);
    fold D; try lia.
  fold D in He3', Habs.
  unfold int_gt_float.
  replace (0 <=? e3) with false by (symmetry; apply Z.leb_gt; lia).
  set (s := e3 - (e + -53)) in *.
  set (k := D - 53) in *.
  assert (Hs : k <= s <= k + 1) by lia.
  assert (HA : 0 < 2 ^ k) by (apply Z.pow_pos_nonneg; lia).
  assert (HAr : 2 ^ 52 <= 2 ^ k <= 2 ^ 53) by (split; apply Z.pow_le_mono_r; lia).
  change (2 ^ 52) with 4503599627370496 in HAr.
  change (2 ^ 53) with 9007199254740992 in HAr.
  (* common scale: T = 2^(53 - e) *)
  set (T := 2 ^ (53 - e)).
  assert (HT : T = 9007199254740992 * 2 ^ (- e)).
  { unfold T. replace (53 - e) with (53 + - e) by lia. rewrite Z.pow_add_r by lia. reflexivity. }
  assert (HTs : 2 ^ (- e3) * 2 ^ s = T).
  { unfold T. rewrite <- Z.pow_add_r by lia. f_equal. lia. }
  assert (HTk : T = 2 ^ (53 - e - k) * 2 ^ k).
  { unfold T. rewrite <- Z.pow_add_r by lia. f_equal. lia. }
  assert (Hsk : 2 ^ s = 2 ^ (s - k) * 2 ^ k).
  { rewrite <- Z.pow_add_r by lia. f_equal. lia. }
  assert (Hs0 : 0 < 2 ^ s) by (apply Z.pow_pos_nonneg; lia).
  assert (H8 : 8 <= 2 ^ (- e)).
  { change 8 with (2 ^ 3). apply Z.pow_le_mono_r; lia. }
  (* the float comparison, scaled by 2^s *)
  rewrite (scale_ltb (Z.pos m3) (i * 2 ^ (- e3)) (2 ^ s) Hs0).
  rewrite <- Z.mul_assoc, HTs.
  set (c := 2 ^ (- e)) in *.
  set (Y := Z.pos m3 * 2 ^ s) in *.
  assert (H5P : 5 * Z.pos (m * M) = 3 * (n * T) - n * c).
  { rewrite Pos2Z.inj_mul, Hval, HT. subst M. ring. }
  set (P := Z.pos (m * M)) in *.
  assert (Hnc : n * c < 9007199254740992) by lia.
  assert (Hnc0 : 0 <= n * c) by lia.
  set (A := 2 ^ k) in *.
  set (tau := 2 ^ (53 - e - k)) in *.
  set (y := Z.pos m3 * 2 ^ (s - k)).
  assert (HY : Y = y * A) by (unfold Y, y; rewrite Hsk; ring).
  clearbody T c Y P A tau y. clear Hf Hm3 He3' Hm He Hval Hc0 He3 HDr Hs.
  destruct (Z.ltb_spec (3 * n) (5 * i)) as [Hlt|Hge].
  - (* 5 i >= 3 n + 1 *)
    apply Z.ltb_lt.
    assert (H : (3 * n + 1) * T <= (5 * i) * T) by (apply Z.mul_le_mono_nonneg_r; lia).
    replace ((3 * n + 1) * T) with (3 * (n * T) + T) in H by ring.
    replace (5 * i * T) with (5 * (i * T)) in H by ring.
    lia.
  - apply Z.ltb_ge.
    destruct (Z.eq_dec (5 * i) (3 * n)) as [Heq|Hne].
    + (* n is a multiple of 5 and the product is the integer 3 n / 5 *)
      assert (H5 : 5 * (i * T) = 3 * (n * T)).
      { replace (5 * (i * T)) with (5 * i * T) by ring. rewrite Heq. ring. }
      assert (HiT : i * T = (i * tau) * A) by (rewrite HTk; ring).
      assert (Hclose : Z.abs ((y - i * tau) * A) < A).
      { replace ((y - i * tau) * A) with (y * A - i * tau * A) by ring.
        rewrite <- HY, <- HiT. lia. }
      apply small_multiple in Hclose; [|exact HA].
      assert (y = i * tau) by lia. rewrite HiT, HY. subst y. lia.
    + assert (H : (5 * i) * T <= (3 * n - 1) * T) by (apply Z.mul_le_mono_nonneg_r; lia).
      replace ((3 * n - 1) * T) with (3 * (n * T) - T) in H by ring.
      replace (5 * i * T) with (5 * (i * T)) in H by ring.
      lia.
Qed.



(** ** The attempts of [call_gemini_api] *)

Section Call.
Variable self : settings.
Variable E : environment.
Variable prompt : string.

(** with a negative number of retries the range is empty *)
Lemma call_skipped w :
  api_max_retries self < 0 ->
  call_gemini_api self E prompt w = (Ok "Unbekannter Fehler nach mehreren API-Versuchen.", w).
Proof.
  intros H. unfold call_gemini_api, py_range, seqZ.
  replace (Z.to_nat (api_max_retries self + 1)) with 0%nat by lia. reflexivity.
Qed.

Lemma call_first_attempt w :
  0 <= api_max_retries self ->
  call_gemini_api self E prompt w =
  match outcome_of E w prompt with
  | Response t => (Ok (reply t), answered self prompt w)
  | _ => (Raise AttributeError, refused prompt w)
  end.
Proof.
  intros H. unfold call_gemini_api, py_range. rewrite seqZ_cons by lia.
  unfold attempt_loop, send, outcome_of.
  destruct (generate_content E (length (requests w)) prompt); reflexivity.
Qed.

(** an answered request ends the call with the reply *)
Lemma call_answered w t :
  0 <= api_max_retries self -> outcome_of E w prompt = Response t ->
  call_gemini_api self E prompt w = (Ok (reply t), answered self prompt w).
Proof. intros H Ho. rewrite call_first_attempt, Ho by exact H. reflexivity. Qed.

(** a refused request ends the call with [AttributeError] *)
Lemma call_refused w :
  0 <= api_max_retries self -> answers (outcome_of E w prompt) = false ->
  call_gemini_api self E prompt w = (Raise AttributeError, refused prompt w).
Proof.
  intros H Ho. rewrite call_first_attempt by exact H.
  destruct (outcome_of E w prompt); [discriminate | reflexivity..].
Qed.

Lemma last_refused_refused w :
  answers (outcome_of E w prompt) = false -> last_refused E (refused prompt w) = true.
Proof.
  intros Ho. unfold last_refused, refused. cbn [requests].
  rewrite last_snoc, length_app. cbn [length].
  replace (Nat.pred (length (requests w) + 1)) with (length (requests w)) by lia.
  unfold outcome_of in Ho. rewrite Ho. reflexivity.
Qed.

(** the three ways a call can go *)
Lemma call_cases w :
  (api_max_retries self < 0 /\
   call_gemini_api self E prompt w =
     (Ok "Unbekannter Fehler nach mehreren API-Versuchen.", w)) \/
  (0 <= api_max_retries self /\
   exists t, outcome_of E w prompt = Response t /\
             call_gemini_api self E prompt w = (Ok (reply t), answered self prompt w)) \/
  (0 <= api_max_retries self /\ answers (outcome_of E w prompt) = false /\
   call_gemini_api self E prompt w = (Raise AttributeError, refused prompt w)).
Proof.
  destruct (Z.lt_ge_cases (api_max_retries self) 0) as [Hneg|Hpos].
  - left. split; [exact Hneg | apply call_skipped, Hneg].
  - right. destruct (outcome_of E w prompt) as [t|c e|e] eqn:Ho.
    + left. split; [exact Hpos|]. exists t. split; [reflexivity | apply call_answered; assumption].
    + right. split; [exact Hpos|]. split; [reflexivity|]. apply call_refused; [exact Hpos|].
      rewrite Ho. reflexivity.
    + right. split; [exact Hpos|]. split; [reflexivity|]. apply call_refused; [exact Hpos|].
      rewrite Ho. reflexivity.
Qed.

(** a call that returns has sent at most one request *)
Lemma call_returns w r w' :
  call_gemini_api self E prompt w = (Ok r, w') ->
  discussions w' = discussions w /\
  ((api_max_retries self < 0 /\ w' = w) \/
   (0 <= api_max_retries self /\ w' = answered self prompt w /\
    exists t, outcome_of E w prompt = Response t /\ r = reply t)).
Proof.
  intros H. destruct (call_cases w) as [[Hn Hc]|[(Hp & t & Ho & Hc)|(Hp & Ho & Hc)]];
    rewrite Hc in H; [| |discriminate]; injection H as <- <-.
  - split; [reflexivity|]. left. split; [exact Hn | reflexivity].
  - split; [reflexivity|]. right. split; [exact Hp|]. split; [reflexivity|].
    exists t. split; [exact Ho | reflexivity].
Qed.

(** a call that raises has sent one request, which the service refused *)
Lemma call_raises w e w' :
  call_gemini_api self E prompt w = (Raise e, w') ->
  e = AttributeError /\ w' = refused prompt w /\ last_refused E w' = true.
Proof.
  intros H. destruct (call_cases w) as [[Hn Hc]|[(Hp & t & Ho & Hc)|(Hp & Ho & Hc)]];
    rewrite Hc in H; [discriminate..|]. injection H as <- <-.
  split; [reflexivity|]. split; [reflexivity|]. apply last_refused_refused, Ho.
Qed.

Lemma call_keeps_discussions w :
  discussions (call_gemini_api self E prompt w).2 = discussions w.
Proof.
  destruct (call_cases w) as [[Hn Hc]|[(Hp & t & Ho & Hc)|(Hp & Ho & Hc)]];
    rewrite Hc; reflexivity.
Qed.

End Call.

(** ** C2: the retry policy *)

(** C2 at a failing input.  With the settings of [__init__], a service
    that answers the first request with a rate-limit signal makes the call
    raise [AttributeError] after that one request: there is no pause, no
    second attempt and no returned string.  The same happens for an
    overload signal, and a failing request is never followed by a
    retry. *)
Theorem failed_attempt_is_not_retried :
  call_gemini_api default_settings rate_limited_twice "Hallo" quiet =
    (Raise AttributeError, {| requests := ["Hallo"]; slept := []; discussions := [] |}) /\
  call_gemini_api default_settings overloaded "Hallo" quiet =
    (Raise AttributeError, {| requests := ["Hallo"]; slept := []; discussions := [] |}).
Proof. split; reflexivity. Qed.
(** ** Python indexing *)


Lemma py_pos_in_range (len : nat) (i : Z) :
  0 <= i < Z.of_nat len -> py_pos len i = Some (Z.to_nat i).
Proof.
  intros H. unfold py_pos.
  replace (0 <=? i) with true by (symmetry; apply Z.leb_le; lia).
  replace (i <? Z.of_nat len) with true by (symmetry; apply Z.ltb_lt; lia).
  reflexivity.
Qed.

Lemma py_index_in_range {A} (l : list A) (i : Z) (x : A) :
  0 <= i -> l !! Z.to_nat i = Some x -> py_index l i = Ok x.
Proof.
  intros Hi Hx. unfold py_index.
  rewrite py_pos_in_range by (apply lookup_lt_Some in Hx; lia).
  rewrite Hx. reflexivity.
Qed.

Lemma py_setitem_in_range {A} (l : list A) (i : Z) (x : A) :
  0 <= i < Z.of_nat (length l) -> py_setitem l i x = Ok (<[Z.to_nat i := x]> l).
Proof.
  intros Hi. unfold py_setitem. rewrite py_pos_in_range by exact Hi. reflexivity.
Qed.

(** [l[-1]] is the last element *)
Lemma py_index_last {A} (l : list A) (x : A) :
  last l = Some x -> py_index l (-1) = Ok x.
Proof.
  intros Hl. unfold py_index, py_pos.
  assert (Hlen : (0 < length l)%nat) by (destruct l; [discriminate | cbn; lia]).
  replace (0 <=? -1) with false by reflexivity. cbn [andb].
  replace (-1 <? 0) with true by reflexivity.
  replace (- Z.of_nat (length l) <=? -1) with true by (symmetry; apply Z.leb_le; lia).
  cbn [andb]. rewrite last_lookup in Hl.
  replace (Z.to_nat (Z.of_nat (length l) + -1)) with (Nat.pred (length l)) by lia.
  rewrite Hl. reflexivity.
Qed.

Lemma py_mod_nonzero (a b : Z) : b <> 0 -> py_mod a b = Ok (a mod b).
Proof.
  intros H. unfold py_mod. destruct (b =? 0) eqn:Hb; [|reflexivity].
  apply Z.eqb_eq in Hb. contradiction.
Qed.

(** ** One pass through the loop body *)

Lemma agent_config_found (agents : list agent) (k : nat) (n : string) :
  active_agents_names agents !! k = Some n ->
  exists a, find (fun a => String.eqb (name a) n) agents = Some a /\
            agent_config agents n = Ok a.
Proof.
  intros H. unfold agent_config.
  destruct (find (fun a => String.eqb (name a) n) agents) as [a|] eqn:Hf.
  - eauto.
  - exfalso. unfold active_agents_names in H.
    rewrite list_lookup_fmap in H.
    destruct (agents !! k) as [a|] eqn:Ha; [|discriminate].
    cbn in H. injection H as <-.
    assert (Hin : In a agents).
    { apply list_elem_of_In. eapply list_elem_of_lookup_2. exact Ha. }
    pose proof (find_none _ _ Hf a Hin) as Hx. cbn in Hx.
    rewrite String.eqb_refl in Hx. discriminate.
Qed.

Ltac red_state :=
  cbn [agent_outputs topic_changed chat_history emitted turns outside set_agent_outputs
       set_topic_changed append_history yield note_turn set_outside].

Ltac red_turn :=
  cbn [t_i t_agent_idx t_current_agent_name t_current_personality t_prev_agent_name
       t_prev_output t_prompt_txt t_first_output t_qual t_agent_output t_outputs_stored
       t_fired t_outputs_end].

(** name the recorded turn and the final state of a fully reduced body *)
Ltac name_turn :=
  lazymatch goal with
  | |- exists t s', (Ok (), note_turn ?T ?S) = _ /\ _ =>
      exists T, (note_turn T S); split; [reflexivity|]
  end.


(** ** One pass through the loop body *)

Section OnePass.
Variable self : settings.
Variable E : environment.
Variable topic : string.
Variable agents : list agent.
Variable N : Z.
Variable lang : string.
Variable did : string.

(** With a non-empty roster and a window of the roster's length, the body
    either runs to its end, and is a [pass], or is left by the
    [AttributeError] of a refused request, and is a [halt]. *)
Lemma conversation_turn_outcome (i : Z) (s : run_state) :
  0 < num_agents agents ->
  length (agent_outputs s) = length agents ->
  (exists t s', conversation_turn self E topic agents N lang did i s = (Ok tt, s') /\
                pass self E topic agents N lang did i s t s') \/
  (exists s', conversation_turn self E topic agents N lang did i s =
                (Raise AttributeError, s') /\
              halt E topic agents i s s').
Proof.
  intros HR Hlen.
  set (R := num_agents agents) in *.
  assert (HRlen : R = Z.of_nat (length agents)).
  { unfold R, num_agents, active_agents_names. rewrite length_map. reflexivity. }
  pose proof (Z.mod_pos_bound i R HR) as Hidx.
  pose proof (Z.mod_pos_bound (i - 1) R HR) as Hpidx.
  assert (Hnames : length (active_agents_names agents) = length agents)
    by (unfold active_agents_names; apply length_map).
  destruct (lookup_lt_is_Some_2 (active_agents_names agents) (Z.to_nat (i mod R)))
    as [cur Hcur]; [lia|].
  destruct (lookup_lt_is_Some_2 (active_agents_names agents) (Z.to_nat ((i - 1) mod R)))
    as [prev Hprev]; [lia|].
  destruct (lookup_lt_is_Some_2 (agent_outputs s) (Z.to_nat ((i - 1) mod R)))
    as [pout Hpout]; [lia|].
  destruct (agent_config_found agents _ _ Hcur) as (a & Hfind & Hcfg).
  assert (Hpm : (i mod R - 1) mod R = (i - 1) mod R) by (apply Zminus_mod_idemp_l).
  unfold conversation_turn.
  unfold store_output, mbind, gen_bind, lift, gets, modify, mret, gen_ret, on_world_raising.
  fold R. rewrite (py_mod_nonzero i R) by lia. cbv beta iota.
  rewrite (py_index_in_range _ _ _ (proj1 Hidx) Hcur). cbv beta iota.
  rewrite Hcfg. cbv beta iota.
  rewrite (py_mod_nonzero _ R) by lia. rewrite Hpm. cbv beta iota.
  rewrite (py_index_in_range _ _ _ (proj1 Hpidx) Hprev). cbv beta iota.
  rewrite (py_index_in_range _ _ _ (proj1 Hpidx) Hpout). cbv beta iota zeta.
  destruct (call_gemini_api self E (build_prompt topic lang i cur (instruction a)
              (personality a) prev pout)
              (outside (append_history (user_entry topic i cur prev pout) s)))
    as [[first|e] w1] eqn:Hcall;
    cbn [outside append_history] in Hcall; red_state.
  2: { (* the request for the turn's prompt is refused *)
    right. apply call_raises in Hcall as (-> & Hw1 & Href).
    eexists. split; [reflexivity|]. constructor; red_state; try reflexivity.
    - exists cur, prev, pout. reflexivity.
    - left. reflexivity.
    - exists [build_prompt topic lang i cur (instruction a) (personality a) prev pout].
      rewrite Hw1. split; [reflexivity | cbn; lia].
    - exact Href.
    - rewrite Hw1. reflexivity. }
  rewrite py_setitem_in_range by lia. cbv beta iota. red_state.
  destruct (String.eqb (evaluate_response first) "schlechte antwort") eqn:Hq;
    cbv beta iota; red_state.
  - (* poor reply: one call with the creative prompt *)
    destruct (call_gemini_api self E creative_prompt w1) as [[retry|e] w2] eqn:Hretry;
      red_state.
    2: { right. destruct (call_raises _ _ _ _ _ _ Hretry) as (-> & Hw2 & Href).
      eexists. split; [reflexivity|]. constructor; red_state; try reflexivity.
      - exists cur, prev, pout. reflexivity.
      - right. exists first. split; [apply String.eqb_eq, Hq | reflexivity].
      - exists [build_prompt topic lang i cur (instruction a) (personality a) prev pout;
                creative_prompt].
        rewrite Hw2. cbn [refused requests].
        apply call_returns in Hcall as (_ & [[Hn ->]|(Hp & -> & _)]).
        + exfalso. rewrite call_skipped in Hretry by exact Hn. discriminate.
        + cbn [answered requests]. rewrite <- app_assoc. split; [reflexivity | cbn; lia].
      - exact Href.
      - rewrite Hw2. cbn [refused discussions].
        apply call_returns in Hcall as [Hd _]. exact Hd. }
    rewrite py_setitem_in_range by (rewrite length_insert; lia).
    cbv beta iota. red_state. rewrite list_insert_insert_eq.
    set (out := if negb (contains error_marker retry) then retry else first).
    destruct (lookup_lt_is_Some_2 (<[Z.to_nat (i mod R):= out]> (agent_outputs s))
                (Z.to_nat ((i - 1) mod R))) as [held Hheld]; [rewrite length_insert; lia|].
    left.
    destruct (past_threshold N i) eqn:Hth; cbv beta iota; red_state;
      [rewrite (py_index_in_range _ _ _ (proj1 Hpidx) Hheld); cbv beta iota;
       destruct (String.eqb out held && negb (topic_changed s)) eqn:Hfire;
       cbv beta iota; red_state|];
      name_turn;
      (constructor; unfold turn_entries, turn_progress; red_turn; red_state; fold R;
       rewrite <- ?app_assoc; try reflexivity; try assumption).
    all: try (exists a; repeat split; assumption).
    all: try (rewrite Hcall; reflexivity).
    all: try (rewrite Hcall; cbn [fst snd]; rewrite Hq, Hretry; exists retry;
              repeat split; reflexivity).
    all: try (exists held; split; [exact Hheld|]; rewrite Hth; cbn [andb];
              try rewrite Hfire; reflexivity).
    all: rewrite ?orb_true_r, ?orb_false_r; reflexivity.
  - (* any other reply is kept *)
    destruct (lookup_lt_is_Some_2 (<[Z.to_nat (i mod R):= first]> (agent_outputs s))
                (Z.to_nat ((i - 1) mod R))) as [held Hheld]; [rewrite length_insert; lia|].
    left.
    destruct (past_threshold N i) eqn:Hth; cbv beta iota; red_state;
      [rewrite (py_index_in_range _ _ _ (proj1 Hpidx) Hheld); cbv beta iota;
       destruct (String.eqb first held && negb (topic_changed s)) eqn:Hfire;
       cbv beta iota; red_state|];
      name_turn;
      (constructor; unfold turn_entries, turn_progress; red_turn; red_state; fold R;
       rewrite <- ?app_assoc; try reflexivity; try assumption).
    all: try (exists a; repeat split; assumption).
    all: try (rewrite Hcall; reflexivity).
    all: try (rewrite Hcall; cbn [fst snd]; rewrite Hq; split; reflexivity).
    all: try (exists held; split; [exact Hheld|]; rewrite Hth; cbn [andb];
              try rewrite Hfire; reflexivity).
    all: rewrite ?orb_true_r, ?orb_false_r; reflexivity.
Qed.

End OnePass.

(** ** The loop *)

Section Loop.
Variable self : settings.
Variable E : environment.
Variable topic : string.
Variable agents : list agent.
Variable N : Z.
Variable lang : string.
Variable did : string.

Local Abbreviation pass' := (pass self E topic agents N lang did).
Local Abbreviation passes' := (passes self E topic agents N lang did).

Lemma num_agents_length : num_agents agents = Z.of_nat (length agents).
Proof. unfold num_agents, active_agents_names. rewrite length_map. reflexivity. Qed.

(** a pass keeps the window as long as the roster *)
Lemma pass_window_length i s t s' :
  pass' i s t s' ->
  length (agent_outputs s) = length agents ->
  length (t_outputs_stored t) = length agents /\ length (agent_outputs s') = length agents.
Proof.
  intros H Hlen.
  assert (Hs : length (t_outputs_stored t) = length agents).
  { rewrite (pass_stored _ _ _ _ _ _ _ _ _ _ _ H), length_insert. exact Hlen. }
  split; [exact Hs|].
  rewrite (pass_outputs _ _ _ _ _ _ _ _ _ _ _ H), (pass_end _ _ _ _ _ _ _ _ _ _ _ H).
  destruct (t_fired t); [|exact Hs].
  rewrite length_replicate, num_agents_length. lia.
Qed.

(** the loop over [n] consecutive indices is a sequence of passes, [n] of
    them if it runs to its end, fewer if a pass is left by an exception *)
Lemma for_each_outcome (n : nat) : forall (i : Z) (s : run_state),
  0 < num_agents agents ->
  length (agent_outputs s) = length agents ->
  exists ts s1,
    passes' i s ts s1 /\ length (agent_outputs s1) = length agents /\
    ((length ts = n /\
      for_each (seqZ i (Z.of_nat n)) (conversation_turn self E topic agents N lang did) s =
        (Ok tt, s1)) \/
     ((length ts < n)%nat /\
      exists s',
        for_each (seqZ i (Z.of_nat n)) (conversation_turn self E topic agents N lang did) s =
          (Raise AttributeError, s') /\
        halt E topic agents (i + Z.of_nat (length ts)) s1 s')).
Proof.
  induction n as [|n IH]; intros i s HR Hlen.
  - exists [], s. split; [constructor|]. split; [exact Hlen|]. left. split; reflexivity.
  - rewrite seqZ_cons by lia.
    replace (Z.pred (Z.of_nat (S n))) with (Z.of_nat n) by lia.
    cbn [for_each]. unfold mbind, gen_bind.
    destruct (conversation_turn_outcome self E topic agents N lang did i s HR Hlen)
      as [(t & s1 & Hrun & Hpass)|(s' & Hrun & Hhalt)]; rewrite Hrun.
    + destruct (pass_window_length _ _ _ _ Hpass Hlen) as [_ Hlen1].
      destruct (IH (Z.succ i) s1 HR Hlen1) as (ts & s2 & Hpasses & Hlen2 & Hend).
      exists (t :: ts), s2.
      split; [econstructor; [exact Hpass|]; replace (i + 1) with (Z.succ i) by lia;
              exact Hpasses|].
      split; [exact Hlen2|].
      destruct Hend as [[Hn Hok]|(Hn & s' & Hraise & Hhalt)].
      * left. split; [cbn; lia | exact Hok].
      * right. split; [cbn; lia|]. exists s'. split; [exact Hraise|].
        cbn [length]. replace (i + Z.of_nat (S (length ts)))
          with (Z.succ i + Z.of_nat (length ts)) by lia. exact Hhalt.
    + exists [], s. split; [constructor|]. split; [exact Hlen|].
      right. split; [cbn; lia|]. exists s'. split; [reflexivity|].
      cbn [length]. rewrite Z.add_0_r. exact Hhalt.
Qed.

(** what a sequence of passes adds to the generator's state *)
Lemma passes_state i s ts s' :
  passes' i s ts s' ->
  turns s' = turns s ++ ts /\
  chat_history s' = chat_history s ++ concat (map (turn_entries topic) ts) /\
  length (emitted s') = (length (emitted s) + length ts)%nat /\
  discussions (outside s') = discussions (outside s).
Proof.
  induction 1 as [i s | i s t s1 ts s' Hpass Hrest IH].
  - cbn. rewrite !app_nil_r. repeat split; lia.
  - destruct IH as (Ht & Hh & He & Hd).
    rewrite Ht, Hh, He, Hd.
    rewrite (pass_turns _ _ _ _ _ _ _ _ _ _ _ Hpass),
            (pass_history _ _ _ _ _ _ _ _ _ _ _ Hpass),
            (pass_emitted _ _ _ _ _ _ _ _ _ _ _ Hpass).
    cbn [map concat length]. rewrite <- !app_assoc, length_app. cbn [length].
    repeat split; try lia.
    pose proof (pass_retry _ _ _ _ _ _ _ _ _ _ _ Hpass) as Hw. cbv zeta in Hw.
    pose proof (call_keeps_discussions self E (t_prompt_txt t) (outside s)) as Hd1.
    destruct (String.eqb (t_qual t) "schlechte antwort").
    + destruct Hw as (r & _ & _ & ->). rewrite call_keeps_discussions. exact Hd1.
    + destruct Hw as [_ ->]. exact Hd1.
Qed.

(** the [k]-th of a sequence of passes, with what came before and after *)
Lemma passes_lookup i s ts s' :
  passes' i s ts s' -> forall (k : nat) t, ts !! k = Some t ->
  exists s1 s2,
    passes' i s (take k ts) s1 /\ pass' (i + Z.of_nat k) s1 t s2 /\
    passes' (i + Z.of_nat k + 1) s2 (drop (S k) ts) s'.
Proof.
  induction 1 as [i s | i s t0 s1 ts s' Hpass Hrest IH]; intros k t Hk.
  - discriminate.
  - destruct k as [|k].
    + cbn in Hk. injection Hk as <-. exists s, s1. cbn [take drop].
      rewrite Z.add_0_r. split; [constructor | split; [exact Hpass | exact Hrest]].
    + cbn in Hk. destruct (IH k t Hk) as (s2 & s3 & Hbefore & Hp & Hafter).
      exists s2, s3. cbn [take drop].
      replace (i + Z.of_nat (S k)) with (i + 1 + Z.of_nat k) by lia.
      split; [econstructor; eassumption | split; [exact Hp | exact Hafter]].
Qed.

(** once the topic has been changed, no later pass takes the stagnation
    branch *)
Lemma passes_changed_stays i s ts s' :
  passes' i s ts s' -> topic_changed s = true ->
  topic_changed s' = true /\ forall t, t ∈ ts -> t_fired t = false.
Proof.
  induction 1 as [i s | i s t s1 ts s' Hpass Hrest IH]; intros Hc.
  - split; [exact Hc|]. intros t Ht. inversion Ht.
  - destruct (pass_fired _ _ _ _ _ _ _ _ _ _ _ Hpass) as (held & _ & Hf).
    rewrite Hc, andb_false_r in Hf.
    pose proof (pass_changed _ _ _ _ _ _ _ _ _ _ _ Hpass) as Hc1.
    rewrite Hc in Hc1. cbn in Hc1.
    destruct (IH Hc1) as [Hc' Hnone]. split; [exact Hc'|].
    intros t' Ht'. apply elem_of_cons in Ht' as [->|Ht']; [exact Hf | apply Hnone, Ht'].
Qed.

(** a pass that takes the stagnation branch sets the flag *)
Lemma pass_fired_changed i s t s' :
  pass' i s t s' -> t_fired t = true -> topic_changed s' = true.
Proof.
  intros H Hf. rewrite (pass_changed _ _ _ _ _ _ _ _ _ _ _ H), Hf. apply orb_true_r.
Qed.

(** at most one pass of a run takes the stagnation branch *)
Lemma passes_fire_once i s ts s' (j k : nat) tj tk :
  passes' i s ts s' ->
  ts !! j = Some tj -> ts !! k = Some tk ->
  t_fired tj = true -> t_fired tk = true -> j = k.
Proof.
  intros H. revert j k.
  assert (Hlt : forall j k, (j < k)%nat -> ts !! j = Some tj -> ts !! k = Some tk ->
                  t_fired tj = true -> t_fired tk = true -> False).
  { intros j k Hjk Hj Hk Hfj Hfk.
    destruct (passes_lookup _ _ _ _ H _ _ Hj) as (s1 & s2 & _ & Hp & Hafter).
    pose proof (pass_fired_changed _ _ _ _ Hp Hfj) as Hc.
    destruct (passes_changed_stays _ _ _ _ Hafter Hc) as [_ Hnone].
    assert (Hin : tk ∈ drop (S j) ts).
    { apply list_elem_of_lookup. exists (k - S j)%nat. rewrite lookup_drop.
      replace (S j + (k - S j))%nat with k by lia. exact Hk. }
    rewrite (Hnone _ Hin) in Hfk. discriminate. }
  intros j k Hj Hk Hfj Hfk.
  destruct (Nat.lt_trichotomy j k) as [Hjk|[Heq|Hkj]]; [|exact Heq|].
  - exfalso. eapply Hlt; eassumption.
  - exfalso. 
    assert (Hlt' : forall j k, (j < k)%nat -> ts !! j = Some tk -> ts !! k = Some tj ->
                  t_fired tk = true -> t_fired tj = true -> False).
    { intros j' k' Hjk Hj' Hk' Hfj' Hfk'.
      destruct (passes_lookup _ _ _ _ H _ _ Hj') as (s1 & s2 & _ & Hp & Hafter).
      pose proof (pass_fired_changed _ _ _ _ Hp Hfj') as Hc.
      destruct (passes_changed_stays _ _ _ _ Hafter Hc) as [_ Hnone].
      assert (Hin : tj ∈ drop (S j') ts).
      { apply list_elem_of_lookup. exists (k' - S j')%nat. rewrite lookup_drop.
        replace (S j' + (k' - S j'))%nat with k' by lia. exact Hk'. }
      rewrite (Hnone _ Hin) in Hfk'. discriminate. }
    eapply Hlt'; eassumption.
Qed.

End Loop.


(** ** After the loop *)

Lemma save_keeps_requests E d topic names h summary user w :
  requests (save_discussion_data_db E d topic names h summary user w).2 = requests w.
Proof.
  unfold save_discussion_data_db. destruct (db_behaves E); [|reflexivity..].
  destruct (existsb _ _); reflexivity.
Qed.

Lemma save_discussion_data_db_ok E d topic names h summary user w :
  db_behaves E <> DbConnectFails ->
  (save_discussion_data_db E d topic names h summary user w).1 = Ok tt.
Proof.
  intros H. unfold save_discussion_data_db.
  destruct (db_behaves E); [|reflexivity|contradiction].
  destruct (existsb _ _); reflexivity.
Qed.

Section Conclusion.
Variable self : settings.
Variable E : environment.
Variable topic : string.
Variable agents : list agent.
Variable user : option string.
Variable did : string.

(** With a non-empty window, [conclude] stops where the summary request is
    refused, before anything is appended, or where
    [save_discussion_data_db] raises, before the final statement, or runs
    to its end. *)
Lemma conclude_spec (s : run_state) :
  agent_outputs s <> [] ->
  let c := call_gemini_api self E (sum_prompt topic) (outside s) in
  match c.1 with
  | Raise e => conclude self E topic agents user did s = (Raise e, set_outside c.2 s)
  | Ok sum_text =>
      let h1 := chat_history s ++ [summary_entry sum_text] in
      let saved :=
        if truthy user
        then save_discussion_data_db E did topic (active_agents_names agents) h1 sum_text
               (default "" user) c.2
        else (Ok tt, c.2) in
      match saved.1 with
      | Raise e =>
          conclude self E topic agents user did s =
          (Raise e,
           {| agent_outputs := agent_outputs s; topic_changed := topic_changed s;
              chat_history := h1; emitted := emitted s; turns := turns s;
              outside := saved.2 |})
      | Ok _ =>
          exists final_text,
            last (agent_outputs s) = Some final_text /\
            conclude self E topic agents user did s =
            (Ok tt,
             {| agent_outputs := agent_outputs s; topic_changed := topic_changed s;
                chat_history := h1 ++ [final_entry final_text];
                emitted := emitted s ++
                  [{| p_history := h1 ++ [final_entry final_text]; p_text := sum_text;
                      p_discussion_id := did; p_iteration := None; p_agent := None |}];
                turns := turns s;
                outside := saved.2 |})
      end
  end.
Proof.
  intros Hne c.
  destruct (last (agent_outputs s)) as [ft|] eqn:Hlast;
    [|apply last_None in Hlast; contradiction].
  unfold conclude, mbind, gen_bind, lift, gets, modify, mret, gen_ret, on_world_raising.
  fold c. destruct c as [[sum_text|e] w1] eqn:Hc; cbv beta iota; red_state; cbn [fst snd];
    [|reflexivity].
  destruct (truthy user); cbv beta iota zeta; red_state.
  - destruct (save_discussion_data_db E did topic (active_agents_names agents)
                (chat_history s ++ [summary_entry sum_text]) sum_text (default "" user) w1)
      as [[[]|e] w2]; cbn [fst snd]; red_state.
    + exists ft. split; [reflexivity|].
      rewrite (py_index_last _ _ Hlast). reflexivity.
    + reflexivity.
  - exists ft. split; [reflexivity|].
    rewrite (py_index_last _ _ Hlast). reflexivity.
Qed.

(** [conclude] leaves the recorded turns, the window and the flag alone and
    only adds to the transcript, to what was yielded and to the requests *)
Lemma conclude_keeps (s : run_state) :
  agent_outputs s <> [] ->
  let s' := (conclude self E topic agents user did s).2 in
  turns s' = turns s /\ agent_outputs s' = agent_outputs s /\
  topic_changed s' = topic_changed s /\
  (exists l, emitted s' = emitted s ++ l) /\
  (exists h, chat_history s' = chat_history s ++ h) /\
  (exists sent, requests (outside s') = requests (outside s) ++ sent).
Proof.
  intros Hne. pose proof (conclude_spec s Hne) as H.
  cbv zeta in H. cbv zeta.
  assert (Hsent : exists sent,
            requests (call_gemini_api self E (sum_prompt topic) (outside s)).2 =
            requests (outside s) ++ sent).
  { destruct (call_cases self E (sum_prompt topic) (outside s))
      as [[_ Hc]|[(_ & t & _ & Hc)|(_ & _ & Hc)]]; rewrite Hc; cbn.
    - exists []. rewrite app_nil_r. reflexivity.
    - eexists. reflexivity.
    - eexists. reflexivity. }
  destruct (call_gemini_api self E (sum_prompt topic) (outside s)) as [[sum_text|e] w1];
    cbn [fst snd] in H, Hsent.
  - assert (Hsaved : requests
              (if truthy user
               then save_discussion_data_db E did topic (active_agents_names agents)
                      (chat_history s ++ [summary_entry sum_text]) sum_text
                      (default "" user) w1
               else (Ok tt, w1)).2 = requests w1).
    { destruct (truthy user); [|reflexivity]. apply save_keeps_requests. }
    destruct (_ : result unit * world) as [[[]|e] w'] in H, Hsaved; cbn [fst snd] in H, Hsaved.
    + destruct H as (ft & _ & ->). cbn. rewrite Hsaved. repeat split; try exact Hsent.
      * eexists. reflexivity.
      * eexists. rewrite <- app_assoc. reflexivity.
    + rewrite H. cbn. rewrite Hsaved. repeat split; try exact Hsent.
      * exists []. rewrite app_nil_r. reflexivity.
      * eexists. reflexivity.
  - rewrite H. cbn. repeat split; try exact Hsent.
    + exists []. rewrite app_nil_r. reflexivity.
    + exists []. rewrite app_nil_r. reflexivity.
Qed.

End Conclusion.

(** ** A whole run *)

Section Run.
Variable self : settings.
Variable E : environment.
Variable topic : string.
Variable agents : list agent.
Variable N : Z.
Variable level lang : string.
Variable h0 : list message.
Variable user : option string.
Variable did : option string.
Variable w : world.

Local Abbreviation run :=
  (joint_conversation_with_selected_agents self E topic agents N level lang h0 user did w).

(** A run with a non-empty roster is a sequence of passes from the initial
    state; if there are [N] of them, [conclude] follows, otherwise the
    next pass is left by the exception of a refused request, and so is the
    run. *)
Lemma run_spec :
  agents <> [] ->
  exists ts s,
    passes self E topic agents N lang (run_id E did) 0 (start agents h0 w) ts s /\
    length (agent_outputs s) = length agents /\
    turns s = ts /\
    ((length ts = Z.to_nat N /\
      run = conclude self E topic agents user (run_id E did) s) \/
     ((length ts < Z.to_nat N)%nat /\
      exists s', run = (Raise AttributeError, s') /\
                 halt E topic agents (Z.of_nat (length ts)) s s')).
Proof.
  intros Hne.
  assert (HR : 0 < num_agents agents).
  { rewrite num_agents_length. destruct agents; [contradiction | cbn; lia]. }
  assert (Hlen : length (agent_outputs (start agents h0 w)) = length agents).
  { cbn. rewrite length_replicate, num_agents_length. lia. }
  destruct (for_each_outcome self E topic agents N lang (run_id E did) (Z.to_nat N) 0
              (start agents h0 w) HR Hlen) as (ts & s & Hpasses & Hlen' & Hend).
  exists ts, s. split; [exact Hpasses|]. split; [exact Hlen'|]. split.
  { destruct (passes_state _ _ _ _ _ _ _ _ _ _ _ Hpasses) as (Ht & _). rewrite Ht. reflexivity. }
  unfold joint_conversation_with_selected_agents, conversation, py_range.
  unfold mbind, gen_bind.
  replace (seqZ 0 N) with (seqZ 0 (Z.of_nat (Z.to_nat N)))
    by (unfold seqZ; rewrite Nat2Z.id; reflexivity).
  destruct Hend as [[Hn Hloop]|(Hn & s' & Hloop & Hhalt)]; rewrite Hloop.
  - left. split; [exact Hn | reflexivity].
  - right. split; [exact Hn|]. exists s'. split; [reflexivity|].
    rewrite Z.add_0_l in Hhalt. exact Hhalt.
Qed.

(** a run that finishes has made all its passes *)
Lemma run_completed :
  agents <> [] -> run.1 = Ok tt ->
  exists ts s,
    passes self E topic agents N lang (run_id E did) 0 (start agents h0 w) ts s /\
    length ts = Z.to_nat N /\
    length (agent_outputs s) = length agents /\
    turns s = ts /\
    run = conclude self E topic agents user (run_id E did) s.
Proof.
  intros Hne Hdone.
  destruct (run_spec Hne) as (ts & s & Hpasses & Hwin & Hturns & [[Hn Hrun]|(_ & s' & Hrun & _)]).
  - exists ts, s. repeat split; assumption.
  - rewrite Hrun in Hdone. discriminate.
Qed.

(** a run that finishes: its passes, the summary call, the save and the
    state it leaves behind *)
Lemma run_finished :
  agents <> [] -> run.1 = Ok tt ->
  exists ts s sum_text w1 w2 final_text,
    passes self E topic agents N lang (run_id E did) 0 (start agents h0 w) ts s /\
    length ts = Z.to_nat N /\
    length (agent_outputs s) = length agents /\
    turns s = ts /\
    call_gemini_api self E (sum_prompt topic) (outside s) = (Ok sum_text, w1) /\
    (if truthy user
     then save_discussion_data_db E (run_id E did) topic (active_agents_names agents)
            (chat_history s ++ [summary_entry sum_text]) sum_text (default "" user) w1
     else (Ok tt, w1)) = (Ok tt, w2) /\
    last (agent_outputs s) = Some final_text /\
    run =
      (Ok tt,
       {| agent_outputs := agent_outputs s; topic_changed := topic_changed s;
          chat_history := (chat_history s ++ [summary_entry sum_text])
                          ++ [final_entry final_text];
          emitted := emitted s ++
            [{| p_history := (chat_history s ++ [summary_entry sum_text])
                             ++ [final_entry final_text];
                p_text := sum_text; p_discussion_id := run_id E did;
                p_iteration := None; p_agent := None |}];
          turns := turns s;
          outside := w2 |}).
Proof.
  intros Hne Hdone.
  destruct (run_completed Hne Hdone) as (ts & s & Hpasses & Hlen & Hwin & Hturns & Hrun).
  assert (Hs : agent_outputs s <> []).
  { intros H0. rewrite H0 in Hwin. destruct agents; [contradiction | discriminate]. }
  pose proof (conclude_spec self E topic agents user (run_id E did) s Hs) as Hc.
  cbv zeta in Hc. rewrite <- Hrun in Hc.
  destruct (call_gemini_api self E (sum_prompt topic) (outside s)) as [[sum_text|e] w1] eqn:Hcall;
    cbn [fst snd] in Hc; [|rewrite Hc in Hdone; discriminate].
  destruct (if truthy user then _ else _) as [[[]|e] w2] eqn:Hsave in Hc; cbn [fst snd] in Hc;
    [|rewrite Hc in Hdone; discriminate].
  destruct Hc as (ft & Hft & Hc).
  exists ts, s, sum_text, w1, w2, ft. repeat split; assumption.
Qed.

(** the passes of a run, however it ends: what they recorded, yielded,
    appended and sent is in the state the run leaves behind *)
Lemma run_passes :
  agents <> [] ->
  exists ts s,
    passes self E topic agents N lang (run_id E did) 0 (start agents h0 w) ts s /\
    (length ts <= Z.to_nat N)%nat /\
    length (agent_outputs s) = length agents /\
    turns run.2 = ts /\
    (exists l, emitted run.2 = emitted s ++ l /\ ((length ts < Z.to_nat N)%nat -> l = [])) /\
    (exists h, chat_history run.2 = chat_history s ++ h) /\
    (exists sent, requests (outside run.2) = requests (outside s) ++ sent) /\
    (run.1 = Ok tt -> length ts = Z.to_nat N).
Proof.
  intros Hne.
  destruct (run_spec Hne) as (ts & s & Hpasses & Hwin & Hturns & Hend).
  exists ts, s. split; [exact Hpasses|].
  assert (Hs : agent_outputs s <> []).
  { intros H0. rewrite H0 in Hwin. destruct agents; [contradiction | discriminate]. }
  destruct Hend as [[Hn Hrun]|(Hn & s' & Hrun & Hhalt)]; rewrite Hrun.
  - destruct (conclude_keeps self E topic agents user (run_id E did) s Hs)
      as (Ht & _ & _ & (l & Hem) & Hh & Hsent).
    split; [lia|]. split; [exact Hwin|]. split; [rewrite Ht; exact Hturns|].
    split; [exists l; split; [exact Hem | lia]|]. split; [exact Hh|].
    split; [exact Hsent|]. intros _. exact Hn.
  - cbn [fst snd]. split; [lia|]. split; [exact Hwin|].
    split; [rewrite (halt_turns _ _ _ _ _ _ Hhalt); exact Hturns|].
    split; [exists []; rewrite app_nil_r; split;
            [apply (halt_emitted _ _ _ _ _ _ Hhalt) | reflexivity]|].
    split; [|split; [|discriminate]].
    + destruct (halt_history _ _ _ _ _ _ Hhalt) as (c & p & o & Hh). eexists. exact Hh.
    + destruct (halt_requests _ _ _ _ _ _ Hhalt) as (sent & Hsent & _). exists sent. exact Hsent.
Qed.

End Run.

(** ** Facts about whole runs *)

Section RunFacts.
Variable self : settings.
Variable E : environment.
Variable topic : string.
Variable agents : list agent.
Variable N : Z.
Variable lang : string.
Variable did : string.

Local Abbreviation passes' := (passes self E topic agents N lang did).

(** what has been yielded stays yielded, one element per pass *)
Lemma passes_emitted i s ts s' :
  passes' i s ts s' ->
  exists l, emitted s' = emitted s ++ l /\ length l = length ts /\
    forall (k : nat) t, ts !! k = Some t ->
      exists p, l !! k = Some p /\ p_iteration p = Some (t_i t + 1) /\
                p_agent p = Some (t_current_agent_name t) /\
                p_text p = formatted_output_chunk (t_i t) (t_current_agent_name t)
                             (t_current_personality t) (t_agent_output t).
Proof.
  induction 1 as [i s | i s t s1 ts s' Hpass Hrest IH].
  - exists []. rewrite app_nil_r. split; [reflexivity|]. split; [reflexivity|].
    intros k t Hk. discriminate.
  - destruct IH as (l & Hl & Hlen & Hall).
    rewrite (pass_emitted _ _ _ _ _ _ _ _ _ _ _ Hpass) in Hl.
    eexists (_ :: l). split; [rewrite Hl, <- app_assoc; reflexivity|].
    split; [cbn; lia|].
    intros [|k] t' Hk.
    + cbn in Hk. injection Hk as <-. eexists. split; [reflexivity|].
      repeat split; reflexivity.
    + cbn in Hk. apply (Hall k t' Hk).
Qed.

(** passes keep the window as long as the roster *)
Lemma passes_window_length i s ts s' :
  passes' i s ts s' ->
  length (agent_outputs s) = length agents ->
  length (agent_outputs s') = length agents.
Proof.
  induction 1 as [| ? ? ? ? ? ? Hp1 _ IH]; intros Hl; [exact Hl|].
  apply IH. apply (pass_window_length _ _ _ _ _ _ _ _ _ _ _ Hp1 Hl).
Qed.

(** the loop variable of the [k]-th pass *)
Lemma passes_index i s ts s' (k : nat) t :
  passes' i s ts s' -> ts !! k = Some t -> t_i t = i + Z.of_nat k.
Proof.
  intros H Hk. destruct (passes_lookup _ _ _ _ _ _ _ _ _ _ _ H _ _ Hk) as (s1 & s2 & _ & Hp & _).
  exact (pass_i _ _ _ _ _ _ _ _ _ _ _ Hp).
Qed.

(** the element yielded by the [k]-th pass of a loop that started with
    nothing yielded *)
Lemma passes_elements s ts s' :
  passes' 0 s ts s' -> emitted s = [] ->
  forall (k : nat) t, ts !! k = Some t ->
    emitted s' !! k =
    Some {| p_history := chat_history s ++ concat (map (turn_entries topic) (take (S k) ts));
            p_text := formatted_output_chunk (Z.of_nat k) (t_current_agent_name t)
                        (t_current_personality t) (t_agent_output t);
            p_discussion_id := did;
            p_iteration := Some (Z.of_nat k + 1);
            p_agent := Some (t_current_agent_name t) |}.
Proof.
  intros Hpasses Hnone k t Ht.
  destruct (passes_lookup _ _ _ _ _ _ _ _ _ _ _ Hpasses _ _ Ht)
    as (s1 & s2 & Hbefore & Hp & Hafter).
  rewrite Z.add_0_l in Hp.
  destruct (passes_state _ _ _ _ _ _ _ _ _ _ _ Hbefore) as (_ & Hh1 & Hel1 & _).
  rewrite Hnone in Hel1. cbn [length] in Hel1.
  destruct (passes_emitted _ _ _ _ Hafter) as (l & Hl & _).
  rewrite Hl, (pass_emitted _ _ _ _ _ _ _ _ _ _ _ Hp).
  assert (Hk : length (emitted s1) = k).
  { rewrite Hel1, length_take. apply lookup_lt_Some in Ht. lia. }
  rewrite <- app_assoc, lookup_app_r by lia.
  rewrite Hk, Nat.sub_diag. cbn [lookup list_lookup app].
  unfold turn_progress. rewrite (pass_i _ _ _ _ _ _ _ _ _ _ _ Hp), Hh1.
  rewrite (take_S_r _ _ _ Ht), map_app, concat_app. cbn [map concat].
  rewrite app_nil_r, <- app_assoc. reflexivity.
Qed.

(** the requests of a pass: one for its prompt and, after a poor reply,
    one with the creative prompt, each followed by the pause *)
Lemma pass_requests i s t s' :
  0 <= api_max_retries self ->
  pass self E topic agents N lang did i s t s' ->
  requests (outside s') = requests (outside s) ++ turn_requests t /\
  slept (outside s') =
    slept (outside s) ++ replicate (length (turn_requests t)) (api_sleep_seconds self) /\
  exists text, outcome_of E (outside s) (t_prompt_txt t) = Response text /\
               t_first_output t = reply text.
Proof.
  intros Hmax Hp.
  pose proof (pass_first _ _ _ _ _ _ _ _ _ _ _ Hp) as Hf.
  pose proof (pass_retry _ _ _ _ _ _ _ _ _ _ _ Hp) as Hr. cbv zeta in Hr.
  destruct (call_gemini_api self E (t_prompt_txt t) (outside s)) as [r1 w1] eqn:Hc1.
  cbn [fst snd] in Hf, Hr. subst r1.
  apply call_returns in Hc1 as (_ & [[Hn _]|(_ & Hw1 & text & Ho & Hrep)]); [lia|].
  unfold turn_requests, poor.
  destruct (String.eqb (t_qual t) "schlechte antwort").
  - destruct Hr as (r & Hr1 & _ & Hout).
    destruct (call_gemini_api self E creative_prompt w1) as [r2 w2] eqn:Hc2.
    cbn [fst snd] in Hr1, Hout. subst r2.
    apply call_returns in Hc2 as (_ & [[Hn _]|(_ & Hw2 & _)]); [lia|].
    rewrite Hout, Hw2, Hw1. cbn [answered requests slept length replicate].
    rewrite <- !app_assoc. split; [reflexivity|]. split; [reflexivity|].
    exists text. split; assumption.
  - destruct Hr as [_ Hout]. rewrite Hout, Hw1. cbn [answered requests slept length replicate].
    split; [reflexivity|]. split; [reflexivity|]. exists text. split; assumption.
Qed.

(** the requests of a sequence of passes *)
Lemma passes_requests i s ts s' :
  0 <= api_max_retries self ->
  passes' i s ts s' ->
  requests (outside s') = requests (outside s) ++ concat (map turn_requests ts) /\
  slept (outside s') =
    slept (outside s) ++
    replicate (length (concat (map turn_requests ts))) (api_sleep_seconds self).
Proof.
  intros Hmax. induction 1 as [i s | i s t s1 ts s' Hpass Hrest IH].
  - cbn. rewrite !app_nil_r. split; reflexivity.
  - destruct IH as [Hr Hs].
    destruct (pass_requests _ _ _ _ Hmax Hpass) as (Hr1 & Hs1 & _).
    rewrite Hr, Hs, Hr1, Hs1. cbn [map concat].
    rewrite length_app, replicate_add, <- !app_assoc. split; reflexivity.
Qed.

End RunFacts.



(** ** C1: round-robin scheduling *)




(** ** The generator between two passes *)

Lemma for_each_app {A} (l1 l2 : list A) (body : A -> gen unit) (s : run_state) :
  for_each (l1 ++ l2) body s =
  match for_each l1 body s with
  | (Ok _, s') => for_each l2 body s'
  | (Raise e, s') => (Raise e, s')
  end.
Proof.
  revert s. induction l1 as [|x l1 IH]; intros s; [reflexivity|].
  cbn [app for_each]. unfold mbind, gen_bind.
  destruct (body x s) as [[[]|e] s1]; [apply IH | reflexivity].
Qed.

Lemma for_each_one {A} (x : A) (body : A -> gen unit) (s : run_state) :
  for_each [x] body s = body x s.
Proof.
  cbn [for_each]. unfold mbind, gen_bind, mret, gen_ret.
  destruct (body x s) as [[[]|e] s1]; reflexivity.
Qed.

Section Stations.
Variable self : settings.
Variable E : environment.
Variable topic : string.
Variable agents : list agent.
Variable N : Z.
Variable level lang : string.
Variable h0 : list message.
Variable user : option string.
Variable did : option string.
Variable w : world.
Hypothesis Hne : agents <> [].

Local Abbreviation at_top := (after_passes self E topic agents N lang h0 did w).
Local Abbreviation run :=
  (joint_conversation_with_selected_agents self E topic agents N level lang h0 user did w).
Local Abbreviation body := (conversation_turn self E topic agents N lang (run_id E did)).

Lemma roster_positive : 0 < num_agents agents.
Proof. rewrite num_agents_length. destruct agents; [contradiction | cbn; lia]. Qed.

Lemma start_window : length (agent_outputs (start agents h0 w)) = length agents.
Proof. cbn. rewrite length_replicate, num_agents_length. lia. Qed.

(** one more pass *)
Lemma after_passes_S (k : nat) :
  at_top (S k) =
  match at_top k with
  | (Ok _, s) => body (Z.of_nat k) s
  | (Raise e, s) => (Raise e, s)
  end.
Proof.
  unfold after_passes, py_range.
  replace (Z.of_nat (S k)) with (Z.of_nat k + 1) by lia.
  rewrite seqZ_app by lia. rewrite for_each_app.
  destruct (for_each (seqZ 0 (Z.of_nat k)) body (start agents h0 w)) as [[[]|e] s];
    [|reflexivity].
  rewrite Z.add_0_l. change (seqZ (Z.of_nat k) 1) with [Z.of_nat k]. apply for_each_one.
Qed.

(** the generator got to the top of the loop [k] times: it made [k] passes *)
Lemma after_passes_ok (k : nat) :
  (at_top k).1 = Ok tt ->
  exists ts,
    passes self E topic agents N lang (run_id E did) 0 (start agents h0 w) ts (at_top k).2 /\
    length ts = k /\ length (agent_outputs (at_top k).2) = length agents.
Proof.
  intros Hok.
  destruct (for_each_outcome self E topic agents N lang (run_id E did) k 0
              (start agents h0 w) roster_positive start_window)
    as (ts & s & Hpasses & Hwin & [[Hn Hloop]|(_ & s' & Hloop & _)]);
    unfold after_passes, py_range in *; rewrite Hloop in *; [|discriminate].
  exists ts. repeat split; assumption.
Qed.

(** the pass that leads from one stop to the next *)
Lemma after_passes_pass (k : nat) :
  (at_top (S k)).1 = Ok tt ->
  (at_top k).1 = Ok tt /\
  length (agent_outputs (at_top k).2) = length agents /\
  exists t, pass self E topic agents N lang (run_id E did) (Z.of_nat k)
              (at_top k).2 t (at_top (S k)).2.
Proof.
  intros Hok. rewrite after_passes_S in Hok |- *.
  destruct (at_top k) as [[[]|e] s] eqn:Hk; [|discriminate].
  assert (Hk1 : (at_top k).1 = Ok tt) by (rewrite Hk; reflexivity).
  destruct (after_passes_ok k Hk1) as (ts & _ & _ & Hwin). rewrite Hk in Hwin.
  cbn [fst snd] in *. split; [reflexivity|]. split; [exact Hwin|].
  destruct (conversation_turn_outcome self E topic agents N lang (run_id E did)
              (Z.of_nat k) s roster_positive Hwin)
    as [(t & s' & Hrun & Hpass)|(s' & Hrun & _)]; rewrite Hrun in Hok |- *;
    [|discriminate].
  exists t. exact Hpass.
Qed.

(** earlier stops of a generator that got to a later one *)
Lemma after_passes_earlier (j k : nat) :
  (j <= k)%nat -> (at_top k).1 = Ok tt -> (at_top j).1 = Ok tt.
Proof.
  induction 1 as [|k Hle IH]; [trivial|].
  intros Hok. apply IH. apply (after_passes_pass k Hok).
Qed.

(** the stops of a run that finishes *)
Lemma run_after_passes (k : nat) :
  run.1 = Ok tt -> (k <= Z.to_nat N)%nat ->
  (at_top k).1 = Ok tt /\
  emitted (at_top k).2 = take k (emitted run.2) /\
  (k = Z.to_nat N ->
   agent_outputs run.2 = agent_outputs (at_top k).2 /\
   topic_changed run.2 = topic_changed (at_top k).2).
Proof.
  intros Hdone Hk.
  unfold joint_conversation_with_selected_agents, conversation, mbind, gen_bind in Hdone |- *.
  unfold after_passes, py_range.
  assert (Hsplit : seqZ 0 N = seqZ 0 (Z.of_nat k) ++ seqZ (Z.of_nat k) (N - Z.of_nat k)).
  { destruct (Z.le_gt_cases 0 N) as [HN|HN].
    - replace N with (Z.of_nat k + (N - Z.of_nat k)) at 1 by lia.
      rewrite seqZ_app by lia. reflexivity.
    - assert (k = 0%nat) as -> by lia. rewrite Z.sub_0_r. reflexivity. }
  unfold py_range in Hdone |- *. rewrite Hsplit, for_each_app in Hdone |- *.
  destruct (for_each (seqZ 0 (Z.of_nat k)) body (start agents h0 w)) as [[[]|e] s] eqn:Hpre;
    [|discriminate].
  cbn [fst snd]. split; [reflexivity|].
  assert (Hpre1 : (at_top k).1 = Ok tt) by (unfold after_passes, py_range; rewrite Hpre; reflexivity).
  destruct (after_passes_ok k Hpre1) as (ts & Hpasses & Hlen & Hwin).
  unfold after_passes, py_range in Hpasses, Hwin. rewrite Hpre in Hpasses, Hwin.
  cbn [snd] in Hpasses, Hwin.
  destruct (passes_state _ _ _ _ _ _ _ _ _ _ _ Hpasses) as (_ & _ & Hel & _).
  cbn [start emitted length] in Hel.
  destruct (for_each_outcome self E topic agents N lang (run_id E did)
              (Z.to_nat (N - Z.of_nat k)) (Z.of_nat k) s roster_positive Hwin)
    as (ts2 & s2 & Hpasses2 & Hwin2 & Hend).
  replace (seqZ (Z.of_nat k) (Z.of_nat (Z.to_nat (N - Z.of_nat k))))
    with (seqZ (Z.of_nat k) (N - Z.of_nat k)) in Hend
    by (unfold seqZ; rewrite Nat2Z.id; reflexivity).
  destruct Hend as [[Hn2 Hloop]|(_ & s' & Hloop & _)]; rewrite Hloop in Hdone |- *;
    [|discriminate].
  destruct (passes_emitted _ _ _ _ _ _ _ _ _ _ _ Hpasses2) as (l2 & Hl2 & Hll2 & _).
  assert (Hs2 : agent_outputs s2 <> []).
  { intros H0. rewrite H0 in Hwin2. destruct agents; [contradiction | discriminate]. }
  destruct (conclude_keeps self E topic agents user (run_id E did) s2 Hs2)
    as (_ & Hout & Hch & (l3 & Hl3) & _).
  split.
  - rewrite Hl3, Hl2, <- app_assoc. rewrite take_app_length'; [reflexivity | lia].
  - intros HkN. assert (ts2 = []) as -> by (destruct ts2; [reflexivity | cbn in Hn2; lia]).
    inversion Hpasses2; subst. split; assumption.
Qed.

(** the flag, once set, stays set *)
Lemma flag_stays (j k : nat) :
  (j <= k)%nat -> (at_top k).1 = Ok tt ->
  topic_changed (at_top j).2 = true -> topic_changed (at_top k).2 = true.
Proof.
  induction 1 as [|k Hle IH]; [trivial|].
  intros Hok Hj. destruct (after_passes_pass k Hok) as (Hk & _ & t & Hpass).
  rewrite (pass_changed _ _ _ _ _ _ _ _ _ _ _ Hpass), (IH Hk Hj). reflexivity.
Qed.

End Stations.

(** what one pass does to the window and to the flag *)
Lemma pass_window (self : settings) (E : environment) (topic : string) (agents : list agent)
    (N : Z) (lang did : string) (i : Z) (s : run_state) (t : turn) (s' : run_state) :
  0 < N < 2 ^ 50 ->
  length (agent_outputs s) = length agents ->
  pass self E topic agents N lang did i s t s' ->
  let R := Z.of_nat (length agents) in
  let stored := <[Z.to_nat (i mod R) := t_agent_output t]> (agent_outputs s) in
  last (chat_history s') =
    Some (assistant_entry i (t_current_agent_name t) (t_agent_output t)) /\
  exists held,
    stored !! Z.to_nat ((i - 1) mod R) = Some held /\
    let fires := (3 * N <? 5 * i) && String.eqb (t_agent_output t) held
                 && negb (topic_changed s) in
    topic_changed s' = topic_changed s || fires /\
    agent_outputs s' = if fires then replicate (length agents) new_topic else stored.
Proof.
  intros HN Hwin Hp R stored.
  assert (HnR : num_agents agents = R) by apply num_agents_length.
  split.
  { rewrite (pass_history _ _ _ _ _ _ _ _ _ _ _ Hp). unfold turn_entries.
    rewrite (pass_i _ _ _ _ _ _ _ _ _ _ _ Hp).
    change [?a; ?b] with ([a] ++ [b]). rewrite app_assoc. apply last_snoc. }
  destruct (pass_fired _ _ _ _ _ _ _ _ _ _ _ Hp) as (held & Hheld & Hf).
  rewrite (pass_stored _ _ _ _ _ _ _ _ _ _ _ Hp), HnR in Hheld.
  rewrite past_threshold_exact in Hf by lia.
  exists held. split; [exact Hheld|]. cbv zeta. rewrite <- Hf.
  split; [apply (pass_changed _ _ _ _ _ _ _ _ _ _ _ Hp)|].
  rewrite (pass_outputs _ _ _ _ _ _ _ _ _ _ _ Hp), (pass_end _ _ _ _ _ _ _ _ _ _ _ Hp).
  rewrite (pass_stored _ _ _ _ _ _ _ _ _ _ _ Hp), HnR. unfold R. rewrite Nat2Z.id.
  reflexivity.
Qed.

(** ** C4: the stagnation injection *)

(** C4. Take a run with a non-empty roster of [R] agents and
    [1 <= N < 2^50] iterations, and look at the generator each time it is
    back at the top of its loop.  A pass with 0-based index [k] first
    puts its output into slot [k mod R] of the window; it then sets the
    flag and overwrites every slot of the window with the topic-shift
    sentinel exactly when [5 k > 3 N], that output equals the text then
    held in slot [(k-1) mod R], and the flag is not yet set; otherwise it
    leaves flag and window as they are.  Hence the pass that injects has
    [5 k > 3 N], so its iteration [k + 1] is not before
    [ceil (0.6 N) = (3 N + 4) / 5], its output equals the previous
    agent's slot, and at most one pass of a run injects. *)
Theorem stagnation_injection (self : settings) (E : environment) (topic : string)
    (agents : list agent) (N : Z) (level lang : string) (h0 : list message)
    (user did : option string) (w : world) :
  agents <> [] -> 1 <= N < 2 ^ 50 ->
  let R := Z.of_nat (length agents) in
  let at_top := after_passes self E topic agents N lang h0 did w in
  let run := joint_conversation_with_selected_agents self E topic agents N level lang h0
               user did w in
  (topic_changed (at_top 0%nat).2 = false /\
   agent_outputs (at_top 0%nat).2 = replicate (length agents) "") /\
  (forall k : nat, (at_top (S k)).1 = Ok tt ->
     exists current agent_output held,
       last (chat_history (at_top (S k)).2) =
         Some (assistant_entry (Z.of_nat k) current agent_output) /\
       let stored :=
         <[Z.to_nat (Z.of_nat k mod R) := agent_output]> (agent_outputs (at_top k).2) in
       stored !! Z.to_nat ((Z.of_nat k - 1) mod R) = Some held /\
       let fires := (3 * N <? 5 * Z.of_nat k) && String.eqb agent_output held
                    && negb (topic_changed (at_top k).2) in
       topic_changed (at_top (S k)).2 = topic_changed (at_top k).2 || fires /\
       agent_outputs (at_top (S k)).2 =
         if fires then replicate (length agents) new_topic else stored) /\
  (forall k : nat, (at_top (S k)).1 = Ok tt -> injects at_top k ->
     3 * N < 5 * Z.of_nat k /\ (3 * N + 4) / 5 <= Z.of_nat k + 1 /\
     agent_outputs (at_top (S k)).2 = replicate (length agents) new_topic /\
     exists current agent_output,
       last (chat_history (at_top (S k)).2) =
         Some (assistant_entry (Z.of_nat k) current agent_output) /\
       <[Z.to_nat (Z.of_nat k mod R) := agent_output]> (agent_outputs (at_top k).2)
         !! Z.to_nat ((Z.of_nat k - 1) mod R) = Some agent_output) /\
  (forall j k : nat, (at_top (S j)).1 = Ok tt -> (at_top (S k)).1 = Ok tt ->
     injects at_top j -> injects at_top k -> j = k) /\
  (run.1 = Ok tt ->
   (forall k : nat, (k <= Z.to_nat N)%nat ->
      (at_top k).1 = Ok tt /\ emitted (at_top k).2 = take k (emitted run.2)) /\
   agent_outputs run.2 = agent_outputs (at_top (Z.to_nat N)).2).
Proof.
  intros Hne HN R at_top run.
  assert (Hpass : forall k : nat, (at_top (S k)).1 = Ok tt ->
            exists current agent_output held,
              last (chat_history (at_top (S k)).2) =
                Some (assistant_entry (Z.of_nat k) current agent_output) /\
              let stored :=
                <[Z.to_nat (Z.of_nat k mod R) := agent_output]>
                  (agent_outputs (at_top k).2) in
              stored !! Z.to_nat ((Z.of_nat k - 1) mod R) = Some held /\
              let fires := (3 * N <? 5 * Z.of_nat k) && String.eqb agent_output held
                           && negb (topic_changed (at_top k).2) in
              topic_changed (at_top (S k)).2 = topic_changed (at_top k).2 || fires /\
              agent_outputs (at_top (S k)).2 =
                if fires then replicate (length agents) new_topic else stored).
  { intros k Hok.
    destruct (after_passes_pass self E topic agents N lang h0 did w Hne k Hok)
      as (_ & Hwin & t & Hp).
    assert (HN' : 0 < N < 2 ^ 50) by lia.
    destruct (pass_window _ _ _ _ _ _ _ _ _ _ _ HN' Hwin Hp) as (Hlast & held & Hh & Hrest).
    exists (t_current_agent_name t), (t_agent_output t), held.
    split; [exact Hlast|]. split; [exact Hh | exact Hrest]. }
  split.
  { split; [reflexivity|].
    change (agent_outputs (at_top 0%nat).2) with (replicate (Z.to_nat (num_agents agents)) "").
    rewrite num_agents_length, Nat2Z.id. reflexivity. }
  split; [exact Hpass|]. split; [|split].
  - intros k Hok [Hbefore Hafter].
    destruct (Hpass k Hok) as (cur & out & held & Hlast & Hheld & Hc & Hw).
    cbv zeta in Hc, Hw. fold at_top in Hbefore, Hafter.
    rewrite Hafter, Hbefore in Hc. cbn [orb negb] in Hc. rewrite andb_true_r in Hc.
    symmetry in Hc. apply andb_true_iff in Hc as [Hth Heq].
    apply Z.ltb_lt in Hth. apply String.eqb_eq in Heq. subst held.
    rewrite Hbefore in Hw. cbn [negb] in Hw. rewrite andb_true_r in Hw.
    replace ((3 * N <? 5 * Z.of_nat k) && String.eqb out out) with true in Hw
      by (symmetry; rewrite String.eqb_refl, andb_true_r; apply Z.ltb_lt; exact Hth).
    split; [exact Hth|]. split; [apply Z.div_le_upper_bound; lia|].
    split; [exact Hw|]. exists cur, out. split; [exact Hlast | exact Hheld].
  - intros j k Hj Hk [Hj0 Hj1] [Hk0 Hk1].
    destruct (Nat.lt_trichotomy j k) as [Hlt|[Heq|Hgt]]; [|exact Heq|]; exfalso.
    + assert (Hok : (at_top k).1 = Ok tt)
        by (apply (after_passes_pass self E topic agents N lang h0 did w Hne k Hk)).
      pose proof (flag_stays self E topic agents N lang h0 did w Hne (S j) k
                    ltac:(lia) Hok Hj1) as Hc.
      fold at_top in Hc. congruence.
    + assert (Hok : (at_top j).1 = Ok tt)
        by (apply (after_passes_pass self E topic agents N lang h0 did w Hne j Hj)).
      pose proof (flag_stays self E topic agents N lang h0 did w Hne (S k) j
                    ltac:(lia) Hok Hk1) as Hc.
      fold at_top in Hc. congruence.
  - intros Hdone. split.
    + intros k Hk.
      destruct (run_after_passes self E topic agents N level lang h0 user did w Hne k Hdone Hk)
        as (H1 & H2 & _).
      split; assumption.
    + destruct (run_after_passes self E topic agents N level lang h0 user did w Hne
                  (Z.to_nat N) Hdone (le_n _)) as (_ & _ & H3).
      apply (H3 eq_refl).
Qed.

Lemma stagnation_injection_witness :
  let at_top := after_passes default_settings echo "X" [agent_A; agent_B] 5 "Deutsch" []
                  None quiet in
  injects at_top 4 /\ agent_outputs (at_top 5%nat).2 = [new_topic; new_topic].
Proof.
  intros at_top.
  assert (Hin : injects at_top 4) by (split; vm_compute; reflexivity).
  split; [exact Hin|].
  destruct (stagnation_injection default_settings echo "X" [agent_A; agent_B] 5 "Experte"
              "Deutsch" [] None None quiet ltac:(discriminate)
              ltac:(split; reflexivity || discriminate)) as (_ & _ & Hinj & _).
  destruct (Hinj 4%nat ltac:(vm_compute; reflexivity) Hin) as (_ & _ & Hw & _).
  exact Hw.
Defined.

(** ** C10: a roster of one *)

Section SingleAgent.
Variable self : settings.
Variable E : environment.
Variable topic : string.
Variable a : agent.
Variable N : Z.
Variable lang : string.
Variable h0 : list message.
Variable did : option string.
Variable w : world.
Hypothesis HN : 1 <= N < 2 ^ 50.

Local Abbreviation at_top := (after_passes self E topic [a] N lang h0 did w).

(** with one agent the previous slot is the current slot, so the check
    compares the output with itself: a pass sets the flag as soon as its
    index is past the threshold *)
Lemma single_step (k : nat) :
  (at_top (S k)).1 = Ok tt ->
  exists agent_output,
    last (chat_history (at_top (S k)).2) =
      Some (assistant_entry (Z.of_nat k) (name a) agent_output) /\
    let fires := (3 * N <? 5 * Z.of_nat k) && negb (topic_changed (at_top k).2) in
    topic_changed (at_top (S k)).2 = topic_changed (at_top k).2 || fires /\
    agent_outputs (at_top (S k)).2 = if fires then [new_topic] else [agent_output].
Proof.
  intros Hok.
  destruct (after_passes_pass self E topic [a] N lang h0 did w ltac:(discriminate) k Hok)
    as (_ & Hwin & t & Hp).
  assert (HN' : 0 < N < 2 ^ 50) by lia.
    destruct (pass_window _ _ _ _ _ _ _ _ _ _ _ HN' Hwin Hp) as (Hlast & held & Hh & Hrest).
  cbv zeta in Hrest. cbn [length Z.of_nat Pos.of_succ_nat] in Hh, Hrest.
  rewrite !Z.mod_1_r in Hh. change (Z.to_nat 0) with 0%nat in Hh.
  pose proof (pass_name _ _ _ _ _ _ _ _ _ _ _ Hp) as Hname.
  replace (num_agents [a]) with 1 in Hname by reflexivity.
  rewrite Z.mod_1_r in Hname. cbn in Hname. injection Hname as Hname.
  destruct (agent_outputs (at_top k).2) as [|o [|o' rest]] eqn:Hout; try discriminate.
  cbn in Hh. injection Hh as <-.
  rewrite String.eqb_refl, andb_true_r in Hrest.
  change (Z.of_nat 1) with 1 in Hrest. rewrite Z.mod_1_r in Hrest.
  change (<[Z.to_nat 0:=t_agent_output t]> [o]) with [t_agent_output t] in Hrest.
  change (replicate 1 new_topic) with [new_topic] in Hrest.
  exists (t_agent_output t). rewrite Hname. split; [exact Hlast|]. exact Hrest.
Qed.

(** the flag is set exactly when an earlier index was past the threshold *)
Lemma single_flag (k : nat) :
  (at_top k).1 = Ok tt ->
  topic_changed (at_top k).2 = (3 * N <? 5 * (Z.of_nat k - 1)).
Proof.
  induction k as [|k IH]; intros Hok.
  - cbn. symmetry. apply Z.ltb_ge. lia.
  - destruct (single_step k Hok) as (out & _ & Hc & _). cbv zeta in Hc.
    rewrite Hc, IH
      by (apply (after_passes_pass self E topic [a] N lang h0 did w ltac:(discriminate) k Hok)).
    replace (Z.of_nat (S k) - 1) with (Z.of_nat k) by lia.
    destruct (Z.ltb_spec (3 * N) (5 * (Z.of_nat k - 1)));
      destruct (Z.ltb_spec (3 * N) (5 * Z.of_nat k)); cbn; try reflexivity; lia.
Qed.

End SingleAgent.

(** C10. In every run with a roster of exactly one agent and
    [1 <= N < 2^50] iterations, the slot that the stagnation check
    compares with is the slot just written ([(k-1) mod 1 = k mod 1]), so
    the comparison holds whatever the agent said: at the top of the loop
    after the pass with 0-based index [k] the flag is set exactly when
    [5 k > 3 N]; the pass that sets it is the first whose index exceeds
    0.6 times [N], and it leaves the sentinel in the window, where every
    other pass leaves its own output. *)
Theorem single_agent_stagnation (self : settings) (E : environment) (topic : string)
    (a : agent) (N : Z) (level lang : string) (h0 : list message)
    (user did : option string) (w : world) :
  1 <= N < 2 ^ 50 ->
  let at_top := after_passes self E topic [a] N lang h0 did w in
  let run := joint_conversation_with_selected_agents self E topic [a] N level lang h0
               user did w in
  (forall k : nat, (at_top (S k)).1 = Ok tt ->
     (Z.of_nat k - 1) mod 1 = Z.of_nat k mod 1 /\
     topic_changed (at_top (S k)).2 = (3 * N <? 5 * Z.of_nat k) /\
     (injects at_top k <-> 3 * N < 5 * Z.of_nat k /\ 5 * (Z.of_nat k - 1) <= 3 * N) /\
     exists agent_output,
       last (chat_history (at_top (S k)).2) =
         Some (assistant_entry (Z.of_nat k) (name a) agent_output) /\
       agent_outputs (at_top (S k)).2 =
         if (3 * N <? 5 * Z.of_nat k) && negb (3 * N <? 5 * (Z.of_nat k - 1))
         then [new_topic] else [agent_output]) /\
  (run.1 = Ok tt ->
   forall k : nat, (k <= Z.to_nat N)%nat ->
     (at_top k).1 = Ok tt /\ emitted (at_top k).2 = take k (emitted run.2)).
Proof.
  intros HN at_top run. split.
  - intros k Hok.
    assert (Hk : (at_top k).1 = Ok tt)
      by (apply (after_passes_pass self E topic [a] N lang h0 did w ltac:(discriminate) k Hok)).
    pose proof (single_flag self E topic a N lang h0 did w HN k Hk) as Hbefore.
    pose proof (single_flag self E topic a N lang h0 did w HN (S k) Hok) as Hafter.
    replace (Z.of_nat (S k) - 1) with (Z.of_nat k) in Hafter by lia.
    fold at_top in Hbefore, Hafter.
    split; [rewrite !Z.mod_1_r; reflexivity|]. split; [exact Hafter|]. split.
    + unfold injects. rewrite Hbefore, Hafter, Z.ltb_ge, Z.ltb_lt. tauto.
    + destruct (single_step self E topic a N lang h0 did w HN k Hok) as (out & Hlast & _ & Hw).
      cbv zeta in Hw. fold at_top in Hw, Hlast. rewrite Hbefore in Hw.
      exists out. split; [exact Hlast | exact Hw].
  - intros Hdone k Hk.
    destruct (run_after_passes self E topic [a] N level lang h0 user did w
                ltac:(discriminate) k Hdone Hk) as (H1 & H2 & _).
    split; assumption.
Qed.

Lemma single_agent_stagnation_witness :
  let at_top := after_passes default_settings numbering "X" [agent_B] 10 "Englisch" []
                  None quiet in
  injects at_top 7 /\ agent_outputs (at_top 8%nat).2 = [new_topic] /\
  agent_outputs (at_top 7%nat).2 = ["r6"].
Proof.
  intros at_top.
  destruct (proj1 (single_agent_stagnation default_settings numbering "X" agent_B 10
                     "Experte" "Englisch" [] None None quiet
                     ltac:(split; reflexivity || discriminate))
              7%nat ltac:(vm_compute; reflexivity)) as (_ & _ & Hin & out & _ & Hw).
  split; [apply Hin; lia|]. split; [exact Hw|]. vm_compute. reflexivity.
Defined.

(** ** C6, C7, C5: how a run ends *)

(** C6. The transcript of a completed run with a non-empty roster is the
    transcript it was given, followed by the entries of exactly [N] turns
    in iteration order (each turn is recorded as the pair of its [user]
    and [assistant] entries), followed by exactly one summary entry and
    then exactly one final-statement entry. *)
Theorem transcript_shape (self : settings) (E : environment) (topic : string)
    (agents : list agent) (N : Z) (level lang : string) (h0 : list message)
    (user did : option string) (w : world) :
  agents <> [] -> 1 <= N ->
  let run := joint_conversation_with_selected_agents self E topic agents N level lang h0
               user did w in
  run.1 = Ok tt ->
  exists ts sum_text final_text,
    Z.of_nat (length ts) = N /\
    (forall (k : nat) t, ts !! k = Some t -> t_i t + 1 = Z.of_nat k + 1) /\
    chat_history run.2 =
      h0 ++ concat (map (turn_entries topic) ts)
         ++ [summary_entry sum_text; final_entry final_text].
Proof.
  intros Hne HN run Hdone.
  destruct (run_finished self E topic agents N level lang h0 user did w Hne Hdone)
    as (ts & s & sum_text & w1 & w2 & ft & Hpasses & Hlen & Hwin & Hturns & _ & _ & _ & Hrun).
  fold run in Hrun.
  destruct (passes_state _ _ _ _ _ _ _ _ _ _ _ Hpasses) as (_ & Hh & _ & _).
  cbn [start chat_history] in Hh.
  exists ts, sum_text, ft. split; [lia|]. split.
  - intros k t Hk. rewrite (passes_index _ _ _ _ _ _ _ _ _ _ _ _ _ Hpasses Hk). lia.
  - rewrite Hrun. cbn [snd chat_history]. rewrite Hh, <- !app_assoc. reflexivity.
Qed.

Lemma transcript_shape_witness :
  exists ts sum_text final_text,
    Z.of_nat (length ts) = 3 /\
    chat_history (joint_conversation_with_selected_agents default_settings numbering "X"
                    [agent_A; agent_B] 3 "Experte" "Deutsch" [] (Some "u") None quiet).2 =
      [] ++ concat (map (turn_entries "X") ts)
         ++ [summary_entry sum_text; final_entry final_text].
Proof.
  destruct (transcript_shape default_settings numbering "X" [agent_A; agent_B] 3
              "Experte" "Deutsch" [] (Some "u") None quiet
              ltac:(discriminate) ltac:(lia) ltac:(vm_compute; reflexivity))
    as (ts & sum_text & final_text & Hlen & _ & Hh).
  exists ts, sum_text, final_text. split; [exact Hlen | exact Hh].
Defined.

(** the last of a sequence of passes ends in the final state *)
Lemma passes_last self E topic agents N lang did i s ts s' t :
  passes self E topic agents N lang did i s ts s' ->
  last ts = Some t ->
  exists s1,
    pass self E topic agents N lang did (i + Z.of_nat (length ts) - 1) s1 t s' /\
    (length (agent_outputs s) = length agents ->
     length (agent_outputs s1) = length agents).
Proof.
  intros H Hlast. rewrite last_lookup in Hlast.
  destruct (passes_lookup _ _ _ _ _ _ _ _ _ _ _ H _ _ Hlast) as (s1 & s2 & Hbefore & Hp & Hafter).
  assert (Hlen : (0 < length ts)%nat) by (apply lookup_lt_Some in Hlast; lia).
  rewrite drop_ge in Hafter by lia.
  assert (Hs2 : s2 = s') by (inversion Hafter; reflexivity). subst s2.
  exists s1. split.
  - replace (i + Z.of_nat (length ts) - 1) with (i + Z.of_nat (Nat.pred (length ts))) by lia.
    exact Hp.
  - intros Hl. apply (passes_window_length _ _ _ _ _ _ _ _ _ _ _ Hbefore Hl).
Qed.

(** C7, as the code has it.  In a completed run with a non-empty roster the
    final-statement entry is the last transcript entry and holds the text
    found in the last roster position of the window when the loop has
    ended.  That is the last slot left by the last pass; when [N] is a
    multiple of the roster size and the last pass did not take the
    stagnation branch, it is the output of the agent who spoke last. *)
Theorem final_statement_is_last_slot (self : settings) (E : environment) (topic : string)
    (agents : list agent) (N : Z) (level lang : string) (h0 : list message)
    (user did : option string) (w : world) :
  agents <> [] -> 1 <= N ->
  let R := Z.of_nat (length agents) in
  let run := joint_conversation_with_selected_agents self E topic agents N level lang h0
               user did w in
  run.1 = Ok tt ->
  exists final_text t,
    last (chat_history run.2) = Some (final_entry final_text) /\
    last (agent_outputs run.2) = Some final_text /\
    last (turns run.2) = Some t /\
    last (t_outputs_end t) = Some final_text /\
    (N mod R = 0 -> t_fired t = false -> final_text = t_agent_output t).
Proof.
  intros Hne HN R run Hdone.
  destruct (run_finished self E topic agents N level lang h0 user did w Hne Hdone)
    as (ts & s & sum_text & w1 & w2 & ft & Hpasses & Hlen & Hwin & Hturns & _ & _ & Hft & Hc).
  fold run in Hc.
  assert (HR : 0 < R) by (subst R; destruct agents; [contradiction | cbn; lia]).
  assert (HnR : num_agents agents = R) by apply num_agents_length.
  destruct (last ts) as [t|] eqn:Hlast;
    [|apply last_None in Hlast; rewrite Hlast in Hlen; cbn in Hlen; lia].
  destruct (passes_last _ _ _ _ _ _ _ _ _ _ _ _ Hpasses Hlast) as (s1 & Hp & Hwin1).
  assert (Hwin0 : length (agent_outputs (start agents h0 w)) = length agents).
  { cbn. rewrite length_replicate, num_agents_length. lia. }
  specialize (Hwin1 Hwin0).
  exists ft, t. rewrite Hc. cbn [snd chat_history agent_outputs turns].
  split; [apply last_snoc|].
  split; [exact Hft|]. rewrite Hturns. split; [exact Hlast|].
  rewrite <- (pass_outputs _ _ _ _ _ _ _ _ _ _ _ Hp).
  split; [exact Hft|].
  intros Hmod Hnf.
  rewrite (pass_outputs _ _ _ _ _ _ _ _ _ _ _ Hp), (pass_end _ _ _ _ _ _ _ _ _ _ _ Hp),
    Hnf, (pass_stored _ _ _ _ _ _ _ _ _ _ _ Hp), HnR in Hft.
  rewrite last_lookup, length_insert, Hwin1 in Hft.
  replace (0 + Z.of_nat (length ts) - 1) with (N - 1) in Hft by lia.
  assert (Hidx : (N - 1) mod R = R - 1).
  { symmetry. apply (Z.mod_unique_pos _ _ (N / R - 1)); [lia|].
    pose proof (Z.div_mod N R ltac:(lia)). lia. }
  rewrite Hidx in Hft.
  replace (Z.to_nat (R - 1)) with (Nat.pred (length agents)) in Hft by (subst R; lia).
  rewrite list_lookup_insert_eq in Hft
    by (rewrite Hwin1; destruct agents; [contradiction | cbn; lia]).
  injection Hft as ->. reflexivity.
Qed.

(** C7 as stated fails: with roster [A; B] and three iterations the last
    speaker is A, whose output is [r2], while the final statement is [r1],
    the last output of B. *)
Lemma final_statement_not_last_speaker :
  let run := joint_conversation_with_selected_agents default_settings numbering "X"
               [agent_A; agent_B] 3 "Experte" "Deutsch" [] None None quiet in
  run.1 = Ok tt /\
  (t_current_agent_name <$> last (turns run.2)) = Some "A" /\
  (t_agent_output <$> last (turns run.2)) = Some "r2" /\
  last (chat_history run.2) = Some (final_entry "r1") /\
  last (chat_history run.2) <> (final_entry <$> (t_agent_output <$> last (turns run.2))).
Proof.
  vm_compute. repeat split; discriminate.
Qed.

Lemma final_statement_is_last_slot_witness :
  exists final_text,
    last (chat_history (joint_conversation_with_selected_agents default_settings numbering
                          "X" [agent_A; agent_B] 4 "Experte" "Deutsch" [] None None quiet).2)
    = Some (final_entry final_text) /\
    final_text = "r3".
Proof.
  destruct (final_statement_is_last_slot default_settings numbering "X" [agent_A; agent_B] 4
              "Experte" "Deutsch" [] None None quiet
              ltac:(discriminate) ltac:(lia) ltac:(vm_compute; reflexivity))
    as (ft & t & Hh & _ & Ht & _ & Hsame).
  exists ft. split; [exact Hh|].
  vm_compute in Ht. injection Ht as <-.
  apply (Hsame eq_refl eq_refl).
Defined.

(** ** C3: the quality retry *)

(** C3 at a failing input.  The first reply is classified poor and stored
    in the speaker's slot; the one extra call, with the creative prompt,
    is refused by the service, and the [AttributeError] of the call
    leaves the generator: the run stops in its first turn.  The turn has
    no output: the transcript holds only the prompt entry of the turn,
    nothing was yielded, and the poor reply is retained nowhere but in
    the window of the dead generator. *)
Theorem refused_retry_stops_the_run :
  let run := joint_conversation_with_selected_agents default_settings retry_unauthorized "X"
               [agent_A] 1 "Experte" "Deutsch" [] None None quiet in
  run.1 = Raise AttributeError /\
  requests (outside run.2) =
    [build_prompt "X" "Deutsch" 0 "A" "Prüfe die Fakten." "kritisch" "A" "";
     creative_prompt] /\
  evaluate_response "Ich wiederhole mich." = "schlechte antwort" /\
  agent_outputs run.2 = ["Ich wiederhole mich."] /\
  chat_history run.2 = [user_entry "X" 0 "A" "A" ""] /\
  emitted run.2 = [] /\
  turns run.2 = [].
Proof.
  vm_compute. repeat split.
Qed.

(** ** C5: failures that reach the caller *)

(** C5 at a failing input.  With a logged-in user and a database file that
    cannot be opened, [sqlite3.connect] raises outside the [try] of
    [save_discussion_data_db]; the exception leaves the generator after the
    summary entry, so the final statement is never appended and the last
    element is never yielded. *)
Theorem save_connect_failure_escapes :
  let run := joint_conversation_with_selected_agents default_settings unreachable_db "X"
               [agent_A; agent_B] 2 "Experte" "Deutsch" [] (Some "u") None quiet in
  run.1 = Raise OperationalError /\
  length (emitted run.2) = 2%nat /\
  last (chat_history run.2) = Some (summary_entry "r2") /\
  discussions (outside run.2) = [].
Proof.
  vm_compute. repeat split.
Qed.

(** ** C8: an empty roster *)

(** C8, as the code has it.  The UI callback rejects an empty selection
    (no box ticked, or no agent configured): it yields the one message
    [Keine Agenten ausgewählt!] and returns with the world as it was, so
    no request is sent, nothing sleeps and no row is written.  The
    generator itself does not look at its roster.  Given an empty one and
    at least one iteration, its first [i % num_agents] raises
    [ZeroDivisionError] before anything has happened.  Given an empty one
    and no iteration to run, it sends the summary request; if that is
    refused the exception of the call leaves it, otherwise it appends the
    summary entry, saves the discussion when a user is logged in, and then
    leaves with the exception of the save or with the [IndexError] of
    [agent_outputs[-1]].  It never yields anything. *)
Theorem empty_selection_rejected (self : settings) (E : environment)
    (agent_config_data : list agent_data) (user_topic : string) (h0 : list message)
    (rating_state : rating_info) (current_usr_state : option string)
    (cbox_vals : list bool) (pers_vals : list string) (iters : Z) (level lang : string)
    (discussion_id_state : option string) (w : world) :
  (select_agents 0 agent_config_data cbox_vals pers_vals = Ok [] ->
   process_input_custom_agents self E agent_config_data user_topic h0 rating_state
     current_usr_state cbox_vals pers_vals iters level lang discussion_id_state w =
   ([NothingSelected "Keine Agenten ausgewählt!" "" discussion_id_state false rating_state],
    Ok tt, w)) /\
  let run := joint_conversation_with_selected_agents self E user_topic [] iters level lang
               h0 current_usr_state discussion_id_state w in
  (1 <= iters -> run = (Raise ZeroDivisionError, start [] h0 w)) /\
  (iters <= 0 ->
   let c := call_gemini_api self E (sum_prompt user_topic) w in
   emitted run.2 = [] /\
   match c.1 with
   | Raise e => run = (Raise e, set_outside c.2 (start [] h0 w))
   | Ok sum_text =>
       let h1 := h0 ++ [summary_entry sum_text] in
       let saved :=
         if truthy current_usr_state
         then save_discussion_data_db E (run_id E discussion_id_state) user_topic [] h1
                sum_text (default "" current_usr_state) c.2
         else (Ok tt, c.2) in
       chat_history run.2 = h1 /\ outside run.2 = saved.2 /\
       run.1 = match saved.1 with
               | Raise e => Raise e
               | Ok _ => Raise IndexError
               end
   end).
Proof.
  split.
  { intros Hsel. unfold process_input_custom_agents. rewrite Hsel. reflexivity. }
  intros run. subst run.
  unfold joint_conversation_with_selected_agents, conversation, py_range. split.
  - intros HN. rewrite seqZ_cons by lia. cbn [for_each].
    unfold mbind, gen_bind. reflexivity.
  - intros HN. unfold seqZ. replace (Z.to_nat iters) with 0%nat by lia.
    cbn [seq fmap list_fmap for_each].
    unfold conclude, mbind, gen_bind, mret, gen_ret, lift, gets, modify, on_world_raising.
    cbn [start outside].
    destruct (call_gemini_api self E (sum_prompt user_topic) w) as [[sum_text|e] w1] eqn:Hc;
      cbv beta iota zeta; red_state; cbn [fst snd]; [|split; reflexivity].
    destruct (truthy current_usr_state) eqn:Hu; cbv beta iota; red_state.
    + change (active_agents_names []) with (@nil string).
      change (chat_history (start [] h0 w)) with h0.
      destruct (save_discussion_data_db E (run_id E discussion_id_state) user_topic
                  [] (h0 ++ [summary_entry sum_text])
                  sum_text (default "" current_usr_state) w1) as [[[]|e] w2] eqn:Hsave;
        cbn; repeat split.
    + cbn. repeat split.
Qed.

Lemma empty_selection_rejected_witness :
  process_input_custom_agents default_settings numbering [agent_data_A; agent_data_B] "X" []
    no_rating (Some "u") [false; false] ["kritisch"; "neutral"] 20 "Experte" "Deutsch" None
    quiet =
  ([NothingSelected "Keine Agenten ausgewählt!" "" None false no_rating], Ok tt, quiet).
Proof.
  apply (empty_selection_rejected default_settings numbering [agent_data_A; agent_data_B]).
  reflexivity.
Defined.

(** C8 as stated fails for the generator: called with an empty roster, no
    iteration to run and a logged-in user, it sends a request and stores
    a discussion before it raises [IndexError]. *)
Lemma empty_roster_not_rejected :
  let run := joint_conversation_with_selected_agents default_settings numbering "X" [] 0
               "Experte" "Deutsch" [] (Some "u") None quiet in
  run.1 = Raise IndexError /\
  requests (outside run.2) <> requests quiet /\
  discussions (outside run.2) <> discussions quiet.
Proof.
  vm_compute. repeat split; discriminate.
Qed.

(** ** C9: the rating ledger *)

(** C9 at a failing input.  After a restart the ledger holds the plain
    dictionaries read from the rating file, keyed by strings.  A vote for
    the very key that was rated before the restart finds no entry under
    the integer iteration, and the plain dictionary raises [KeyError]:
    nothing is created, counted or saved. *)
Theorem rate_after_restart_raises :
  rate_agent_response "20250101_120000" 1 "A" "upvote" reloaded_ratings =
  (Raise KeyError, reloaded_ratings).
Proof.
  vm_compute. reflexivity.
Qed.

(** * Further properties of the code *)

(** ** [call_gemini_api] *)

(** X1. A request that fails is not retried.  For any settings with a
    non-negative [api_max_retries]: when the service raises on the
    request of a call, be it the client library's [APIError] with status
    429, 503, 401 or any other, or any other exception, the call raises
    [AttributeError] after that one request, without a pause; none of
    the handlers' error strings is returned and no second request is
    sent. *)
Theorem failed_request_raises (self : settings) (E : environment) (prompt : string)
    (w : world) :
  0 <= api_max_retries self ->
  answers (outcome_of E w prompt) = false ->
  call_gemini_api self E prompt w =
    (Raise AttributeError,
     {| requests := requests w ++ [prompt]; slept := slept w; discussions := discussions w |}).
Proof. intros Hmax Hno. apply call_refused; assumption. Qed.

Lemma failed_request_raises_witness :
  call_gemini_api default_settings always_internal_error "Hallo" quiet =
    (Raise AttributeError, {| requests := ["Hallo"]; slept := []; discussions := [] |}).
Proof.
  apply (failed_request_raises default_settings always_internal_error "Hallo" quiet);
    [cbn; lia | reflexivity].
Defined.

(** X2. A response without text, or with an empty text, counts as an
    answer: the call returns the sentinel [Leere Antwort von Gemini API.]
    after the usual pause, having sent its one request. *)
Theorem empty_payload_is_an_answer (self : settings) (E : environment) (prompt : string)
    (w : world) (t : option string) :
  0 <= api_max_retries self ->
  outcome_of E w prompt = Response t -> no_text t = true ->
  call_gemini_api self E prompt w =
    (Ok "Leere Antwort von Gemini API.",
     {| requests := requests w ++ [prompt];
        slept := slept w ++ [api_sleep_seconds self];
        discussions := discussions w |}).
Proof.
  intros Hmax Ho Hno. rewrite (call_answered self E prompt w t Hmax Ho).
  unfold reply. rewrite Hno. reflexivity.
Qed.

Lemma empty_payload_is_an_answer_witness :
  call_gemini_api default_settings empty_reply "Hallo" quiet =
    (Ok "Leere Antwort von Gemini API.",
     {| requests := ["Hallo"]; slept := [10]; discussions := [] |}).
Proof.
  apply (empty_payload_is_an_answer default_settings empty_reply "Hallo" quiet None);
    [cbn; lia | reflexivity | reflexivity].
Defined.

(** X4. Request budget of one call, for any settings: every request of
    the call carries the call's prompt; there are at most
    [api_max_retries + 1] of them, never more than one (a request that
    fails is not repeated), and at least one whenever [api_max_retries]
    is not negative; the call never touches the stored discussions.  With
    a negative [api_max_retries] the attempt range is empty: nothing is
    sent and the call returns [Unbekannter Fehler nach mehreren
    API-Versuchen.]. *)
Theorem call_request_budget (self : settings) (E : environment) (prompt : string)
    (w : world) :
  let r := call_gemini_api self E prompt w in
  exists n : nat,
    requests r.2 = requests w ++ replicate n prompt /\
    Z.of_nat n <= Z.max 0 (api_max_retries self + 1) /\
    (0 <= api_max_retries self -> (1 <= n)%nat) /\
    (api_max_retries self < 0 ->
       r = (Ok "Unbekannter Fehler nach mehreren API-Versuchen.", w)) /\
    discussions r.2 = discussions w /\
    (n <= 1)%nat.
Proof.
  intros r. subst r.
  destruct (call_cases self E prompt w) as [[Hn Hc]|[(Hp & t & _ & Hc)|(Hp & _ & Hc)]];
    rewrite Hc; cbn [fst snd].
  - exists 0%nat. cbn. rewrite app_nil_r. repeat split; try lia.
  - exists 1%nat. cbn. repeat split; lia.
  - exists 1%nat. cbn. repeat split; lia.
Qed.

(** ** Substrings *)

Lemma prefix_app (n s : string) : String.prefix n (n +:+ s) = true.
Proof.
  induction n as [|c n IH]; [destruct s; reflexivity|].
  change (String c n +:+ s) with (String c (n +:+ s)). cbn [String.prefix].
  destruct (ascii_dec c c); [exact IH | contradiction].
Qed.

Lemma contains_here (n s : string) : String.prefix n s = true -> contains n s = true.
Proof. intros H. destruct s; cbn [contains]; rewrite H; reflexivity. Qed.

Lemma contains_app_l (n pre s : string) :
  contains n s = true -> contains n (pre +:+ s) = true.
Proof.
  intros H. induction pre as [|c pre IH]; [exact H|].
  change (String c pre +:+ s) with (String c (pre +:+ s)).
  cbn [contains]. rewrite IH. apply orb_true_r.
Qed.

(** a text contains whatever it was assembled around *)
Lemma contains_infix (n pre post : string) : contains n (pre +:+ n +:+ post) = true.
Proof. apply contains_app_l, contains_here, prefix_app. Qed.


(** X5. The error check of the quality retry never sees a failure.  The
    orchestrator discards the text of the retry call when it contains
    [Fehler bei Gemini API Aufruf].  Whatever the settings, a text that a
    call returns contains this marker only if it is the very text the
    service sent in answer to the call's request: the sentinel for an
    empty payload and the text returned for an empty attempt range do
    not contain it, and a refused request gives no text at all. *)
Theorem error_marker_only_in_replies (self : settings) (E : environment) (prompt : string)
    (w : world) (r : string) (w' : world) :
  call_gemini_api self E prompt w = (Ok r, w') ->
  contains error_marker r = true ->
  outcome_of E w prompt = Response (Some r) /\ w' = answered self prompt w.
Proof.
  intros Hcall Hmark.
  destruct (call_cases self E prompt w) as [[_ Hc]|[(_ & t & Ho & Hc)|(_ & _ & Hc)]];
    rewrite Hc in Hcall; [| |discriminate]; injection Hcall as <- <-.
  - vm_compute in Hmark. discriminate.
  - split; [|reflexivity]. rewrite Ho. unfold reply in *.
    destruct (no_text t) eqn:Hno; [vm_compute in Hmark; discriminate|].
    destruct t as [t|]; [reflexivity | discriminate].
Qed.

Lemma error_marker_only_in_replies_witness :
  outcome_of misleading quiet "Hallo" =
    Response (Some "Fehler bei Gemini API Aufruf: bitte warten.").
Proof.
  exact (proj1 (error_marker_only_in_replies default_settings misleading "Hallo" quiet
                  "Fehler bei Gemini API Aufruf: bitte warten."
                  (answered default_settings "Hallo" quiet) eq_refl eq_refl)).
Defined.

(** ** [evaluate_response] *)

Lemma lower_one (c : ascii) : lower (String c "") = String (lower_char c) "".
Proof. reflexivity. Qed.

Lemma lower_two (c c1 : ascii) :
  lower (String c (String c1 "")) =
  if dotted_capital_i c c1 then dotted_i ""
  else String (lower_char c) (String (lower_char c1) "").
Proof. cbn [lower]. destruct (dotted_capital_i c c1); reflexivity. Qed.

Lemma lower_three (c c1 c2 : ascii) (t2 : string) :
  lower (String c (String c1 (String c2 t2))) =
  if dotted_capital_i c c1 then dotted_i (lower (String c2 t2))
  else if kelvin_sign c c1 c2 then String "k"%char (lower t2)
  else String (lower_char c) (lower (String c1 (String c2 t2))).
Proof. reflexivity. Qed.

Lemma lower_char_high (c : ascii) :
  (128 <=? N_of_ascii c)%N = true -> lower_char c = c.
Proof.
  intros H. unfold lower_char. apply N.leb_le in H.
  destruct ((65 <=? N_of_ascii c)%N && (N_of_ascii c <=? 90)%N) eqn:Hr; [|reflexivity].
  apply andb_true_iff in Hr as [_ Hr]. apply N.leb_le in Hr. lia.
Qed.

(** a special sequence needs continuation bytes in its second and third
    place *)
Lemma dotted_needs_continuation (c c1 : ascii) :
  dotted_capital_i c c1 = true ->
  ((128 <=? N_of_ascii c1) && (N_of_ascii c1 <? 192))%N = true /\
  (N_of_ascii c <? 128)%N = false.
Proof.
  unfold dotted_capital_i. intros H. apply andb_true_iff in H as [H H1].
  apply N.eqb_eq in H, H1. rewrite H, H1. split; reflexivity.
Qed.

Lemma kelvin_needs_continuation (c c1 c2 : ascii) :
  kelvin_sign c c1 c2 = true ->
  ((128 <=? N_of_ascii c1) && (N_of_ascii c1 <? 192))%N = true /\
  ((128 <=? N_of_ascii c2) && (N_of_ascii c2 <? 192))%N = true /\
  (N_of_ascii c <? 128)%N = false.
Proof.
  unfold kelvin_sign. intros H. apply andb_true_iff in H as [H H2].
  apply andb_true_iff in H as [H H1].
  apply N.eqb_eq in H, H1, H2. rewrite H, H1, H2. repeat split; reflexivity.
Qed.

(** [lower] works on the parts of a text that is cut between two code
    points *)
Lemma lower_app_clean (a b : string) :
  starts_clean b = true -> lower (a +:+ b) = lower a +:+ lower b.
Proof.
  intros Hb.
  enough (H : forall (n : nat) (a : string), (String.length a <= n)%nat ->
                lower (a +:+ b) = lower a +:+ lower b)
    by (apply (H (String.length a)); lia).
  clear a. induction n as [|n IH]; intros a Hlen.
  { destruct a; [reflexivity | cbn in Hlen; lia]. }
  destruct a as [|c [|c1 [|c2 t2]]].
  - reflexivity.
  - change (String c "" +:+ b) with (String c b). rewrite lower_one.
    destruct b as [|c1 [|c2 t2]]; [reflexivity| |].
    + rewrite lower_two. destruct (dotted_capital_i c c1) eqn:Hd.
      * apply dotted_needs_continuation in Hd as [Hd _]. cbn in Hb. rewrite Hd in Hb.
        discriminate.
      * reflexivity.
    + rewrite lower_three. destruct (dotted_capital_i c c1) eqn:Hd.
      * apply dotted_needs_continuation in Hd as [Hd _]. cbn in Hb. rewrite Hd in Hb.
        discriminate.
      * destruct (kelvin_sign c c1 c2) eqn:Hk; [|reflexivity].
        apply kelvin_needs_continuation in Hk as [Hk _]. cbn in Hb. rewrite Hk in Hb.
        discriminate.
  - change (String c (String c1 "") +:+ b) with (String c (String c1 b)).
    rewrite lower_two. destruct b as [|c2 t2].
    + rewrite lower_two. destruct (dotted_capital_i c c1); reflexivity.
    + rewrite lower_three. destruct (dotted_capital_i c c1) eqn:Hd; [reflexivity|].
      destruct (kelvin_sign c c1 c2) eqn:Hk.
      * apply kelvin_needs_continuation in Hk as (_ & Hk & _). cbn in Hb. rewrite Hk in Hb.
        discriminate.
      * change (String c1 (String c2 t2)) with (String c1 "" +:+ String c2 t2).
        rewrite IH by (cbn in *; lia). reflexivity.
  - change (String c (String c1 (String c2 t2)) +:+ b)
      with (String c (String c1 (String c2 (t2 +:+ b)))).
    rewrite !lower_three.
    destruct (dotted_capital_i c c1).
    + change (String c2 (t2 +:+ b)) with (String c2 t2 +:+ b).
      rewrite IH by (cbn in *; lia). reflexivity.
    + destruct (kelvin_sign c c1 c2).
      * rewrite IH by (cbn in *; lia). reflexivity.
      * change (String c1 (String c2 (t2 +:+ b))) with (String c1 (String c2 t2) +:+ b).
        rewrite IH by (cbn in *; lia). reflexivity.
Qed.

Lemma ascii_text_lower_char (c : ascii) :
  (N_of_ascii (lower_char c) <? 128)%N = true -> (N_of_ascii c <? 128)%N = true.
Proof.
  intros H. destruct (N_of_ascii c <? 128)%N eqn:Hc; [reflexivity|].
  rewrite lower_char_high in H by (apply N.leb_le; apply N.ltb_ge in Hc; exact Hc).
  congruence.
Qed.

(** a part whose lower case is plain ASCII ends with a whole code point *)
Lemma lower_app_ascii (a b : string) :
  ascii_text (lower a) = true -> lower (a +:+ b) = lower a +:+ lower b.
Proof.
  enough (H : forall (n : nat) (a : string), (String.length a <= n)%nat ->
                ascii_text (lower a) = true -> lower (a +:+ b) = lower a +:+ lower b)
    by (apply (H (String.length a)); lia).
  clear a. induction n as [|n IH]; intros a Hlen Ha.
  { destruct a; [reflexivity | cbn in Hlen; lia]. }
  destruct a as [|c [|c1 [|c2 t2]]].
  - reflexivity.
  - change (String c "" +:+ b) with (String c b). rewrite lower_one in Ha |- *.
    cbn [ascii_text] in Ha. apply andb_true_iff in Ha as [Hc _].
    apply ascii_text_lower_char in Hc.
    destruct b as [|c1 [|c2 t2]]; [reflexivity| |].
    + rewrite lower_two. destruct (dotted_capital_i c c1) eqn:Hd; [|reflexivity].
      apply dotted_needs_continuation in Hd as [_ Hd]. congruence.
    + rewrite lower_three. destruct (dotted_capital_i c c1) eqn:Hd.
      * apply dotted_needs_continuation in Hd as [_ Hd]. congruence.
      * destruct (kelvin_sign c c1 c2) eqn:Hk; [|reflexivity].
        apply kelvin_needs_continuation in Hk as (_ & _ & Hk). congruence.
  - change (String c (String c1 "") +:+ b) with (String c (String c1 b)).
    rewrite lower_two in Ha |- *.
    destruct (dotted_capital_i c c1) eqn:Hd; [discriminate Ha|].
    cbn [ascii_text] in Ha. apply andb_true_iff in Ha as [Hc Ha].
    apply andb_true_iff in Ha as [Hc1 _].
    apply ascii_text_lower_char in Hc, Hc1.
    destruct b as [|c2 t2].
    + rewrite lower_two, Hd. reflexivity.
    + rewrite lower_three, Hd. destruct (kelvin_sign c c1 c2) eqn:Hk.
      * apply kelvin_needs_continuation in Hk as (_ & _ & Hk). congruence.
      * change (String c1 (String c2 t2)) with (String c1 "" +:+ String c2 t2).
        rewrite IH; [reflexivity | cbn in *; lia |].
        rewrite lower_one. cbn [ascii_text]. rewrite andb_true_r.
        unfold lower_char.
        destruct ((65 <=? N_of_ascii c1)%N && (N_of_ascii c1 <=? 90)%N) eqn:Hr; [|exact Hc1].
        apply andb_true_iff in Hr as [_ Hr]. apply N.leb_le in Hr. apply N.ltb_lt.
        rewrite N_ascii_embedding by lia. lia.
  - change (String c (String c1 (String c2 t2)) +:+ b)
      with (String c (String c1 (String c2 (t2 +:+ b)))).
    rewrite lower_three in Ha. rewrite !lower_three.
    destruct (dotted_capital_i c c1); [discriminate Ha|].
    destruct (kelvin_sign c c1 c2).
    + cbn [ascii_text] in Ha. apply andb_true_iff in Ha as [_ Ha].
      rewrite IH; [reflexivity | cbn in *; lia | exact Ha].
    + cbn [ascii_text] in Ha. apply andb_true_iff in Ha as [_ Ha].
      change (String c1 (String c2 (t2 +:+ b))) with (String c1 (String c2 t2) +:+ b).
      rewrite IH; [reflexivity | cbn in *; lia | exact Ha].
Qed.

(** a text whose lower case starts with a plain ASCII character starts
    with a whole code point *)
Lemma lower_starts_clean (m post : string) (x : ascii) (r : string) :
  lower m = String x r -> (N_of_ascii x <? 128)%N = true ->
  starts_clean (m +:+ post) = true.
Proof.
  intros Hm Hx. destruct m as [|c t]; [discriminate|].
  change (String c t +:+ post) with (String c (t +:+ post)). cbn [starts_clean].
  destruct ((128 <=? N_of_ascii c)%N && (N_of_ascii c <? 192)%N) eqn:Hc; [|reflexivity].
  exfalso. apply andb_true_iff in Hc as [Hlo Hhi].
  assert (Hhead : exists r', lower (String c t) = String c r').
  { assert (Hnd : forall c1, dotted_capital_i c c1 = false).
    { intros c1. unfold dotted_capital_i. apply N.ltb_lt in Hhi.
      destruct (N.eqb_spec (N_of_ascii c) 196); [lia | reflexivity]. }
    assert (Hnk : forall c1 c2, kelvin_sign c c1 c2 = false).
    { intros c1 c2. unfold kelvin_sign. apply N.ltb_lt in Hhi.
      destruct (N.eqb_spec (N_of_ascii c) 226); [lia | reflexivity]. }
    destruct t as [|c1 [|c2 t2]].
    - rewrite lower_one, lower_char_high by exact Hlo. eexists. reflexivity.
    - rewrite lower_two, Hnd, lower_char_high by exact Hlo. eexists. reflexivity.
    - rewrite lower_three, Hnd, Hnk, lower_char_high by exact Hlo. eexists. reflexivity. }
  destruct Hhead as (r' & Hr'). rewrite Hr' in Hm. injection Hm as <- _.
  apply N.leb_le in Hlo. apply N.ltb_lt in Hx. lia.
Qed.

(** X6. The classifier looks for its markers anywhere in the reply and in
    any mix of upper and lower case, and the repetition marker has
    precedence: a reply that contains [wiederhole mich] in some casing is
    classified [schlechte antwort] whatever surrounds it (also when the
    other marker is present); a reply that contains [neue perspektive] in
    some casing is classified [gute antwort] unless it also contains the
    repetition marker. *)
Theorem markers_found_anywhere (pre m post : string) :
  (lower m = "wiederhole mich" ->
   evaluate_response (pre +:+ m +:+ post) = "schlechte antwort") /\
  (lower m = "neue perspektive" ->
   contains "wiederhole mich" (lower (pre +:+ m +:+ post)) = false ->
   evaluate_response (pre +:+ m +:+ post) = "gute antwort").
Proof.
  assert (Hcut : forall marker x r,
            marker = String x r -> (N_of_ascii x <? 128)%N = true ->
            ascii_text marker = true -> lower m = marker ->
            lower (pre +:+ m +:+ post) = lower pre +:+ marker +:+ lower post).
  { intros marker x r Hmk Hx Hascii Hm.
    rewrite lower_app_clean
      by (apply (lower_starts_clean m post x r); [rewrite Hm; exact Hmk | exact Hx]).
    rewrite lower_app_ascii by (rewrite Hm; exact Hascii).
    rewrite Hm. reflexivity. }
  unfold evaluate_response. cbv zeta. split.
  - intros Hm.
    rewrite (Hcut "wiederhole mich" "w"%char "iederhole mich" eq_refl eq_refl eq_refl Hm),
      contains_infix.
    reflexivity.
  - intros Hm Hno. rewrite Hno.
    rewrite (Hcut "neue perspektive" "n"%char "eue perspektive" eq_refl eq_refl eq_refl Hm),
      contains_infix.
    reflexivity.
Qed.

(** ** What a run leaves behind *)

(** X8. Persistence of a run with a non-empty roster: the table of
    discussions only grows, by at most one row; an anonymous run (no user,
    or the empty user name) adds none; a row that is added carries the
    run's id, topic, roster names, user and summary, and its transcript is
    the run's transcript up to and including the summary entry, that is,
    without the final statement, which is appended after saving; a run
    that finishes, with a logged-in user, a working database and an id not
    yet in the table, has added the row. *)
Theorem persistence_of_a_run (self : settings) (E : environment) (topic : string)
    (agents : list agent) (N : Z) (level lang : string) (h0 : list message)
    (user did : option string) (w : world) :
  agents <> [] ->
  let run := joint_conversation_with_selected_agents self E topic agents N level lang h0
               user did w in
  exists l,
    discussions (outside run.2) = discussions w ++ l /\
    (length l <= 1)%nat /\
    (truthy user = false -> l = []) /\
    (forall row, l = [row] ->
       row_discussion_id row = run_id E did /\ row_topic row = topic /\
       row_agents row = map name agents /\ user = Some (row_user row) /\
       last (row_chat_history row) = Some (summary_entry (row_summary row)) /\
       exists final_text,
         chat_history run.2 = row_chat_history row ++ [final_entry final_text]) /\
    (run.1 = Ok tt -> truthy user = true -> db_behaves E = DbHealthy ->
     existsb (fun r => String.eqb (row_discussion_id r) (run_id E did)) (discussions w) = false ->
     exists row, l = [row]).
Proof.
  intros Hne run.
  assert (Hnone : forall r : result unit * run_state,
            discussions (outside r.2) = discussions w -> r.1 <> Ok tt ->
            exists l,
              discussions (outside r.2) = discussions w ++ l /\
              (length l <= 1)%nat /\
              (truthy user = false -> l = []) /\
              (forall row, l = [row] ->
                 row_discussion_id row = run_id E did /\ row_topic row = topic /\
                 row_agents row = map name agents /\ user = Some (row_user row) /\
                 last (row_chat_history row) = Some (summary_entry (row_summary row)) /\
                 exists final_text,
                   chat_history r.2 = row_chat_history row ++ [final_entry final_text]) /\
              (r.1 = Ok tt -> truthy user = true -> db_behaves E = DbHealthy ->
               existsb (fun r => String.eqb (row_discussion_id r) (run_id E did))
                 (discussions w) = false ->
               exists row, l = [row])).
  { intros r Hd Hr. exists []. rewrite app_nil_r. split; [exact Hd|].
    split; [cbn; lia|]. split; [reflexivity|]. split; [intros row Hrow; discriminate|].
    intros Hok. contradiction. }
  destruct (run_spec self E topic agents N level lang h0 user did w Hne)
    as (ts & s & Hpasses & Hwin & Hturns & Hend).
  destruct (passes_state _ _ _ _ _ _ _ _ _ _ _ Hpasses) as (_ & _ & _ & Hd).
  cbn [start outside] in Hd.
  destruct Hend as [[Hlen Hrun]|(Hlen & s' & Hrun & Hhalt)].
  2:{ subst run. rewrite Hrun. apply Hnone; cbn [fst snd]; [|discriminate].
      rewrite (halt_discussions _ _ _ _ _ _ Hhalt). exact Hd. }
  assert (Hs : agent_outputs s <> []).
  { intros H0. rewrite H0 in Hwin. destruct agents; [contradiction | discriminate]. }
  pose proof (conclude_spec self E topic agents user (run_id E did) s Hs) as Hc.
  cbv zeta in Hc. fold run in Hrun. rewrite <- Hrun in Hc.
  pose proof (call_keeps_discussions self E (sum_prompt topic) (outside s)) as Hcd.
  rewrite Hd in Hcd.
  destruct (call_gemini_api self E (sum_prompt topic) (outside s)) as [[sum_text|e] w1];
    cbn [fst snd] in Hc, Hcd.
  2:{ rewrite Hc. apply Hnone; cbn [fst snd]; [exact Hcd | discriminate]. }
  destruct (truthy user) eqn:Hu.
  - destruct user as [u|]; [|discriminate]. cbn [default] in Hc. unfold id in Hc.
    unfold save_discussion_data_db in Hc.
    destruct (db_behaves E) eqn:Hdb.
    + destruct (existsb _ (discussions w1)) eqn:Hex; cbn [fst snd] in Hc;
        destruct Hc as (ft & _ & Hc); rewrite Hc; cbn [fst snd outside discussions chat_history].
      * exists []. rewrite app_nil_r. split; [exact Hcd|]. split; [cbn; lia|].
        split; [reflexivity|]. split; [intros row Hrow; discriminate|].
        intros _ _ _ Hfresh. rewrite Hcd, Hfresh in Hex. discriminate.
      * eexists [_]. rewrite Hcd. split; [reflexivity|]. split; [cbn; lia|].
        split; [discriminate|]. split.
        -- intros row Hrow. injection Hrow as <-. cbn.
           repeat split; try reflexivity; [apply last_snoc | exists ft; reflexivity].
        -- intros _ _ _ _. eexists. reflexivity.
    + cbn [fst snd] in Hc. destruct Hc as (ft & _ & Hc). rewrite Hc.
      cbn [fst snd outside]. exists []. rewrite app_nil_r. split; [exact Hcd|].
      split; [cbn; lia|]. split; [reflexivity|]. split; [intros row Hrow; discriminate|].
      intros _ _ Hh. discriminate.
    + cbn [fst snd] in Hc. rewrite Hc. apply Hnone; cbn [fst snd outside];
        [exact Hcd | discriminate].
  - cbn [fst snd] in Hc. destruct Hc as (ft & _ & Hc). rewrite Hc. cbn [fst snd outside].
    exists []. rewrite app_nil_r. split; [exact Hcd|].
    split; [cbn; lia|]. split; [reflexivity|]. split; [intros row Hrow; discriminate|].
    intros _ Ht. discriminate.
Qed.

Lemma persistence_of_a_run_witness :
  exists row,
    discussions (outside (joint_conversation_with_selected_agents default_settings numbering
                            "X" [agent_A; agent_B] 2 "Experte" "Deutsch" [] (Some "u") None
                            quiet).2) = [row] /\
    row_summary row = "r2".
Proof.
  destruct (persistence_of_a_run default_settings numbering "X" [agent_A; agent_B] 2
              "Experte" "Deutsch" [] (Some "u") None quiet ltac:(discriminate))
    as (l & Hl & _ & _ & _ & Hadd).
  destruct (Hadd eq_refl eq_refl eq_refl eq_refl) as (row & ->).
  exists row. split; [exact Hl|].
  vm_compute in Hl. injection Hl as <-. reflexivity.
Defined.

(** ** The chain of turns and the stream of elements *)











(** X11. A run with a non-empty roster ends in one of three ways.  It
    finishes, with one element per iteration and the closing element, and
    then no user was logged in or the database connection could be opened.
    Or the generation service raises on a request: the exception reaches
    the handler clause [except genai.APIError], whose evaluation raises
    [AttributeError], and that exception leaves [call_gemini_api] and the
    generator; the request sent last is the refused one, at most [N]
    elements were yielded and no row was written.  Or a user is logged in
    and the database connection cannot be opened: the exception of
    [sqlite3.connect] leaves the generator after the iterations were
    yielded and the summary was appended, without the closing element.
    With a service that answers every request, the connection failure is
    the only way not to finish. *)
Theorem run_ends (self : settings) (E : environment) (topic : string)
    (agents : list agent) (N : Z) (level lang : string) (h0 : list message)
    (user did : option string) (w : world) :
  agents <> [] ->
  let run := joint_conversation_with_selected_agents self E topic agents N level lang h0
               user did w in
  ((run.1 = Ok tt /\ truthy user && cannot_connect E = false /\
    length (emitted run.2) = S (Z.to_nat N) /\
    exists final_text, last (chat_history run.2) = Some (final_entry final_text)) \/
   (run.1 = Raise AttributeError /\ last_refused E (outside run.2) = true /\
    (length (emitted run.2) <= Z.to_nat N)%nat /\
    discussions (outside run.2) = discussions w) \/
   (run.1 = Raise OperationalError /\ truthy user && cannot_connect E = true /\
    length (emitted run.2) = Z.to_nat N /\
    exists sum_text, last (chat_history run.2) = Some (summary_entry sum_text))) /\
  (always_answers E ->
   run.1 = if truthy user && cannot_connect E then Raise OperationalError else Ok tt).
Proof.
  intros Hne run.
  assert (Hways :
    (run.1 = Ok tt /\ truthy user && cannot_connect E = false /\
     length (emitted run.2) = S (Z.to_nat N) /\
     exists final_text, last (chat_history run.2) = Some (final_entry final_text)) \/
    (run.1 = Raise AttributeError /\ last_refused E (outside run.2) = true /\
     (length (emitted run.2) <= Z.to_nat N)%nat /\
     discussions (outside run.2) = discussions w) \/
    (run.1 = Raise OperationalError /\ truthy user && cannot_connect E = true /\
     length (emitted run.2) = Z.to_nat N /\
     exists sum_text, last (chat_history run.2) = Some (summary_entry sum_text))).
  { destruct (run_spec self E topic agents N level lang h0 user did w Hne)
      as (ts & s & Hpasses & Hwin & Hturns & Hend).
    destruct (passes_state _ _ _ _ _ _ _ _ _ _ _ Hpasses) as (_ & _ & Hel & Hd).
    cbn [start emitted outside length] in Hel, Hd.
    fold run in Hend.
    destruct Hend as [[Hlen Hrun]|(Hlen & s' & Hrun & Hhalt)].
    2:{ right. left. rewrite Hrun. cbn [fst snd].
        split; [reflexivity|]. split; [exact (halt_refused _ _ _ _ _ _ Hhalt)|].
        rewrite (halt_emitted _ _ _ _ _ _ Hhalt), (halt_discussions _ _ _ _ _ _ Hhalt).
        split; [lia | exact Hd]. }
    assert (Hs : agent_outputs s <> []).
    { intros H0. rewrite H0 in Hwin. destruct agents; [contradiction | discriminate]. }
    pose proof (conclude_spec self E topic agents user (run_id E did) s Hs) as Hc.
    cbv zeta in Hc. rewrite <- Hrun in Hc.
    destruct (call_gemini_api self E (sum_prompt topic) (outside s)) as [[sum_text|e] w1] eqn:Hcall;
      cbn [fst snd] in Hc.
    2:{ right. left. destruct (call_raises _ _ _ _ _ _ Hcall) as (-> & Hw1 & Hr).
        rewrite Hc. cbn [fst snd set_outside outside emitted].
        split; [reflexivity|]. split; [exact Hr|]. split; [lia|].
        rewrite Hw1. cbn [refused discussions]. exact Hd. }
    destruct (truthy user) eqn:Hu; cbn [andb].
    - unfold cannot_connect. destruct (db_behaves E) eqn:Hdb.
      3:{ right. right. unfold save_discussion_data_db in Hc. rewrite Hdb in Hc.
          cbn [fst snd] in Hc. rewrite Hc. cbn [fst snd emitted chat_history].
          split; [reflexivity|]. split; [reflexivity|]. split; [lia|].
          eexists. apply last_snoc. }
      all: left.
      all: rewrite save_discussion_data_db_ok in Hc by (rewrite Hdb; discriminate).
      all: destruct Hc as (ft & _ & ->); cbn [fst snd emitted chat_history].
      all: split; [reflexivity|]; split; [reflexivity|].
      all: split; [rewrite length_app; cbn; lia|].
      all: exists ft; apply last_snoc.
    - left. cbn [fst] in Hc. destruct Hc as (ft & _ & ->). cbn [fst snd emitted chat_history].
      split; [reflexivity|]. split; [reflexivity|]. split; [rewrite length_app; cbn; lia|].
      exists ft. apply last_snoc. }
  split; [exact Hways|].
  intros Hans.
  assert (Hnever : forall w', last_refused E w' = false).
  { intros w'. unfold last_refused. destruct (last (requests w')); [|reflexivity].
    rewrite Hans. reflexivity. }
  destruct Hways as [(Hr & Hcond & _)|[(_ & Hl & _)|(Hr & Hcond & _)]].
  - rewrite Hcond. exact Hr.
  - rewrite Hnever in Hl. discriminate.
  - rewrite Hcond. exact Hr.
Qed.

Lemma run_ends_witness :
  (joint_conversation_with_selected_agents default_settings numbering "X"
     [agent_A] 2 "Experte" "Deutsch" [] (Some "u") None quiet).1 = Ok tt /\
  (joint_conversation_with_selected_agents default_settings unreachable_db "X"
     [agent_A] 2 "Experte" "Deutsch" [] (Some "u") None quiet).1 = Raise OperationalError.
Proof.
  split.
  - apply (proj2 (run_ends default_settings numbering "X" [agent_A] 2 "Experte"
                    "Deutsch" [] (Some "u") None quiet ltac:(discriminate))).
    intros k prompt. reflexivity.
  - apply (proj2 (run_ends default_settings unreachable_db "X" [agent_A] 2 "Experte"
                    "Deutsch" [] (Some "u") None quiet ltac:(discriminate))).
    intros k prompt. reflexivity.
Defined.

(** X12. The requests of a run, for any settings whose [api_max_retries]
    is not negative and any non-empty roster.  No request is repeated:
    every recorded turn has sent its prompt once, followed, exactly when
    the first reply was classified [schlechte antwort], by the fixed
    prompt [Versuche eine kreativere Antwort.] once.  After the turns come
    one or two more requests: when all [N] turns were made, the summary
    prompt alone; otherwise the requests of the turn that the service
    refused.  A run that finishes has recorded [N] turns, and every
    recorded turn has yielded its element, which shows the turn's output.
    A turn is poor when its first reply is classified so; a turn whose
    reply is not poor keeps that reply, and a text adopted from the
    second request never contains the error marker. *)
Theorem requests_of_a_run (self : settings) (E : environment) (topic : string)
    (agents : list agent) (N : Z) (level lang : string) (h0 : list message)
    (user did : option string) (w : world) :
  agents <> [] -> 0 <= api_max_retries self ->
  let run := joint_conversation_with_selected_agents self E topic agents N level lang h0
               user did w in
  (exists sent,
     requests (outside run.2) =
       requests w ++ concat (map turn_requests (turns run.2)) ++ sent /\
     (1 <= length sent <= 2)%nat /\
     (length (turns run.2) = Z.to_nat N -> sent = [sum_prompt topic])) /\
  (run.1 = Ok tt -> length (turns run.2) = Z.to_nat N) /\
  forall (k : nat) t, turns run.2 !! k = Some t ->
    (exists p, emitted run.2 !! k = Some p /\
       p_iteration p = Some (Z.of_nat k + 1) /\
       p_text p = formatted_output_chunk (Z.of_nat k) (t_current_agent_name t)
                    (t_current_personality t) (t_agent_output t)) /\
    poor t = String.eqb (evaluate_response (t_first_output t)) "schlechte antwort" /\
    (poor t = false -> t_agent_output t = t_first_output t) /\
    (t_agent_output t <> t_first_output t ->
     contains error_marker (t_agent_output t) = false).
Proof.
  intros Hne Hmax run.
  destruct (run_spec self E topic agents N level lang h0 user did w Hne)
    as (ts & s & Hpasses & Hwin & Hturns & Hend).
  fold run in Hend.
  destruct (passes_requests self E topic agents N lang (run_id E did) _ _ _ _ Hmax Hpasses)
    as [Hreq _].
  cbn [start outside] in Hreq.
  assert (Hs : agent_outputs s <> []).
  { intros H0. rewrite H0 in Hwin. destruct agents; [contradiction | discriminate]. }
  assert (Hkt : turns run.2 = ts).
  { destruct Hend as [[_ Hrun]|(_ & s' & Hrun & Hhalt)]; rewrite Hrun.
    - destruct (conclude_keeps self E topic agents user (run_id E did) s Hs) as (Hkt & _).
      rewrite Hkt. exact Hturns.
    - cbn [snd]. rewrite (halt_turns _ _ _ _ _ _ Hhalt). exact Hturns. }
  rewrite Hkt. split.
  - destruct Hend as [[Hlen Hrun]|(Hlen & s' & Hrun & Hhalt)]; rewrite Hrun.
    + exists [sum_prompt topic]. split; [|split; [cbn; lia | reflexivity]].
      pose proof (conclude_spec self E topic agents user (run_id E did) s Hs) as Hc.
      cbv zeta in Hc.
      assert (Hsum : requests (call_gemini_api self E (sum_prompt topic) (outside s)).2 =
                     requests (outside s) ++ [sum_prompt topic]).
      { destruct (call_cases self E (sum_prompt topic) (outside s))
          as [[Hn _]|[(_ & t & _ & Hcall)|(_ & _ & Hcall)]]; [lia| |];
          rewrite Hcall; reflexivity. }
      destruct (call_gemini_api self E (sum_prompt topic) (outside s)) as [[sum_text|e] w1];
        cbn [fst snd] in Hc, Hsum.
      * assert (Hsaved : requests
                  (if truthy user
                   then save_discussion_data_db E (run_id E did) topic
                          (active_agents_names agents)
                          (chat_history s ++ [summary_entry sum_text]) sum_text
                          (default "" user) w1
                   else (Ok tt, w1)).2 = requests w1).
        { destruct (truthy user); [|reflexivity]. apply save_keeps_requests. }
        destruct (_ : result unit * world) as [[[]|e] w'] in Hc, Hsaved;
          cbn [fst snd] in Hc, Hsaved.
        -- destruct Hc as (ft & _ & ->). cbn [snd outside].
           rewrite Hsaved, Hsum, Hreq, <- app_assoc. reflexivity.
        -- rewrite Hc. cbn [snd outside].
           rewrite Hsaved, Hsum, Hreq, <- app_assoc. reflexivity.
      * rewrite Hc. cbn [snd set_outside outside].
        rewrite Hsum, Hreq, <- app_assoc. reflexivity.
    + cbn [snd]. destruct (halt_requests _ _ _ _ _ _ Hhalt) as (sent & Hsent & Hbound).
      exists sent. split; [rewrite Hsent, Hreq, <- app_assoc; reflexivity|].
      split; [exact Hbound|]. intros Hfull. lia.
  - destruct (run_passes self E topic agents N level lang h0 user did w Hne)
      as (ts' & s' & Hpasses' & _ & _ & Hturns' & (l & Hem & _) & _ & _ & Hdone).
    fold run in Hturns', Hem, Hdone. rewrite Hkt in Hturns'. subst ts'.
    split; [exact Hdone|].
    intros k t Ht.
    destruct (passes_lookup _ _ _ _ _ _ _ _ _ _ _ Hpasses _ _ Ht) as (s1 & s2 & _ & Hp & _).
    split.
    { pose proof (passes_elements _ _ _ _ _ _ _ _ _ _ Hpasses' eq_refl _ _ Ht) as Hel.
      eexists. split; [rewrite Hem; apply lookup_app_l_Some; exact Hel|].
      split; reflexivity. }
    split; [unfold poor; rewrite (pass_qual _ _ _ _ _ _ _ _ _ _ _ Hp); reflexivity|].
    pose proof (pass_retry _ _ _ _ _ _ _ _ _ _ _ Hp) as Hr. cbv zeta in Hr.
    unfold poor. destruct (String.eqb (t_qual t) "schlechte antwort").
    + destruct Hr as (r & _ & Hout & _). split; [discriminate|].
      intros Hdiff. rewrite Hout in Hdiff |- *.
      destruct (contains error_marker r) eqn:Hm; cbn [negb] in *; [congruence | exact Hm].
    + destruct Hr as [Hout _]. split; [intros _; exact Hout | contradiction].
Qed.

Lemma requests_of_a_run_witness :
  requests (outside (joint_conversation_with_selected_agents default_settings
                       empty_reply "X" [agent_A] 1 "Experte" "Deutsch" [] None None
                       quiet).2) =
  requests quiet ++
  concat (map turn_requests
            (turns (joint_conversation_with_selected_agents default_settings
                      empty_reply "X" [agent_A] 1 "Experte" "Deutsch" [] None None
                      quiet).2)) ++ [sum_prompt "X"].
Proof.
  destruct (requests_of_a_run default_settings empty_reply "X" [agent_A] 1 "Experte"
              "Deutsch" [] None None quiet ltac:(discriminate) ltac:(cbn; lia))
    as [(sent & Hreq & _ & Hfull) _].
  rewrite (Hfull ltac:(vm_compute; reflexivity)) in Hreq. exact Hreq.
Defined.
(** ** [process_input_custom_agents] and the vote buttons *)

Lemma py_index_app_r {A} (pre l : list A) (x : A) :
  py_index (pre ++ x :: l) (Z.of_nat (length pre)) = Ok x.
Proof.
  apply py_index_in_range; [lia|]. rewrite Nat2Z.id.
  rewrite lookup_app_r by lia. rewrite Nat.sub_diag. reflexivity.
Qed.

Lemma select_agents_from (cfg : list agent_data) :
  forall (donec : list bool) (donep : list string) (cbox : list bool) (pers : list string),
    length donec = length donep ->
    length cbox = length cfg -> length pers = length cfg ->
    select_agents (Z.of_nat (length donec)) cfg (donec ++ cbox) (donep ++ pers) =
    Ok (ticked_agents cfg cbox pers).
Proof.
  induction cfg as [|a cfg IH]; intros donec donep cbox pers Hd Hc Hp; [reflexivity|].
  destruct cbox as [|b cbox]; [discriminate|]. destruct pers as [|p pers]; [discriminate|].
  cbn [select_agents ticked_agents]. rewrite py_index_app_r.
  assert (Hnext : select_agents (Z.of_nat (length donec) + 1) cfg (donec ++ b :: cbox)
                    (donep ++ p :: pers) = Ok (ticked_agents cfg cbox pers)).
  { replace (Z.of_nat (length donec) + 1) with (Z.of_nat (length (donec ++ [b])))
      by (rewrite length_app; cbn; lia).
    rewrite (cons_middle b donec cbox), (cons_middle p donep pers), !app_assoc.
    apply IH; [rewrite !length_app; cbn; lia | cbn in Hc; lia | cbn in Hp; lia]. }
  destruct b.
  - rewrite Hd, py_index_app_r, <- Hd, Hnext. reflexivity.
  - exact Hnext.
Qed.

(** X13. The roster of a run is exactly the ticked entries of the agent
    configuration, in configuration order, each with the personality chosen
    for it in the UI and with the configured description as its
    instruction (one check box and one personality per configured agent).
    It is empty exactly when no box is ticked. *)
Theorem selection_is_the_ticked_agents (agent_config_data : list agent_data)
    (cbox_vals : list bool) (pers_vals : list string) :
  length cbox_vals = length agent_config_data ->
  length pers_vals = length agent_config_data ->
  select_agents 0 agent_config_data cbox_vals pers_vals =
    Ok (ticked_agents agent_config_data cbox_vals pers_vals) /\
  (ticked_agents agent_config_data cbox_vals pers_vals = [] <->
   forall b, b ∈ cbox_vals -> b = false).
Proof.
  intros Hc Hp. split.
  - apply (select_agents_from agent_config_data [] [] cbox_vals pers_vals eq_refl Hc Hp).
  - revert cbox_vals pers_vals Hc Hp.
    induction agent_config_data as [|a cfg IH]; intros cbox pers Hc Hp.
    + destruct cbox; [|discriminate]. split; [|reflexivity]. intros _ b Hb. inversion Hb.
    + destruct cbox as [|b cbox]; [discriminate|]. destruct pers as [|p pers]; [discriminate|].
      cbn [ticked_agents]. cbn in Hc, Hp. split.
      * intros Hnil. destruct b; [discriminate|]. cbn in Hnil.
        intros b' Hb'. apply elem_of_cons in Hb' as [->|Hb']; [reflexivity|].
        apply (proj1 (IH cbox pers ltac:(lia) ltac:(lia)) Hnil b' Hb').
      * intros Hall. rewrite (Hall b) by (apply elem_of_cons; left; reflexivity).
        cbn. apply (IH cbox pers ltac:(lia) ltac:(lia)).
        intros b' Hb'. apply Hall. apply elem_of_cons. right. exact Hb'.
Qed.

Lemma selection_is_the_ticked_agents_witness :
  select_agents 0 [agent_data_A; agent_data_B] [false; true] ["kritisch"; "neutral"] =
  Ok [{| name := "B"; personality := "neutral"; instruction := "Denke voraus." |}].
Proof.
  apply (selection_is_the_ticked_agents [agent_data_A; agent_data_B] [false; true]
           ["kritisch"; "neutral"] eq_refl eq_refl).
Defined.





(** ** The rating ledger *)












(** X17. A discussion that came from the rating file cannot be rated.
    If the ledger holds for the discussion a dictionary as [json.load]
    returns it (plain, iteration keys are strings), every call of
    [rate_agent_response] for it, whatever the iteration, agent and type,
    raises [KeyError] and changes neither the ledger nor the file; the
    vote buttons pass the exception on. *)
Theorem loaded_discussion_cannot_be_rated (discussion_id : string) (iteration : Z)
    (agent_name rating_type : string) (s : ratings) (d : per_discussion) :
  discussion_ratings s !! discussion_id = Some d ->
  as_loaded d ->
  rate_agent_response discussion_id iteration agent_name rating_type s = (Raise KeyError, s) /\
  (iteration <> 0 -> agent_name <> "" -> discussion_id <> "" ->
   let r_state := {| ri_discussion_id := Some discussion_id;
                     ri_iteration := Some iteration;
                     ri_agent_name := Some agent_name |} in
   upvote_event r_state s = (Raise KeyError, s) /\
   downvote_event r_state s = (Raise KeyError, s)).
Proof.
  intros Hd [Hplain Hkeys].
  assert (Hr : forall rt, rate_agent_response discussion_id iteration agent_name rt s =
                          (Raise KeyError, s)).
  { intros rt. unfold rate_agent_response, ratings_at. rewrite Hd.
    destruct (by_iteration d !! IntKey iteration) as [agents|] eqn:Hi.
    - destruct (Hkeys _ _ Hi).
    - rewrite Hplain. reflexivity. }
  split; [apply Hr|].
  intros Hi Ha Hdid r_state. unfold upvote_event, downvote_event, vote_event.
  subst r_state. cbn [ri_discussion_id ri_iteration ri_agent_name truthy_int default].
  assert (Ht : forall x : string, x <> "" -> truthy (Some x) = true).
  { intros x Hx. unfold truthy. destruct x; [contradiction | reflexivity]. }
  rewrite (Ht _ Hdid), (Ht _ Ha).
  destruct (Z.eqb_spec iteration 0) as [->|_]; [contradiction|].
  cbn [andb negb]. rewrite !Hr. split; reflexivity.
Qed.

Lemma loaded_discussion_cannot_be_rated_witness :
  rate_agent_response "20250101_120000" 2 "B" "downvote" reloaded_ratings =
    (Raise KeyError, reloaded_ratings).
Proof.
  refine (proj1 (loaded_discussion_cannot_be_rated "20250101_120000" 2 "B" "downvote"
                   reloaded_ratings
                   {| vivifies := false;
                      by_iteration :=
                        {[ StrKey "1" := {[ "A" := {| upvotes := 1; downvotes := 0 |} ]} ]} |}
                   _ _)).
  - reflexivity.
  - split; [reflexivity|]. intros i agents H. cbn [by_iteration] in H.
    apply lookup_singleton_Some in H. destruct H as [H _]. discriminate.
Defined.

(** ** The table of discussions *)

Lemma stored_false (discussion_id : string) (w : world) :
  stored discussion_id w = false <-> discussion_id ∉ table_ids w.
Proof.
  unfold stored, table_ids. induction (discussions w) as [|r l IH]; cbn.
  - split; [intros _; apply not_elem_of_nil | reflexivity].
  - rewrite orb_false_iff, IH, not_elem_of_cons.
    destruct (String.eqb_spec (row_discussion_id r) discussion_id) as [He|He];
      split; intros [H1 H2]; split; congruence.
Qed.

(** [save_discussion_data_db] on a working database adds the row when its
    id is new and nothing otherwise *)
Lemma save_healthy E d topic names h summary user w :
  db_behaves E = DbHealthy ->
  save_discussion_data_db E d topic names h summary user w =
    (Ok tt,
     if stored d w then w
     else {| requests := requests w; slept := slept w;
             discussions := discussions w ++
               [{| row_discussion_id := d; row_topic := topic; row_agents := names;
                   row_chat_history := h; row_summary := summary; row_user := user |}] |}).
Proof.
  intros Hdb. unfold save_discussion_data_db, stored. rewrite Hdb.
  destruct (existsb _ _); reflexivity.
Qed.



(** the world a run with a non-empty roster leaves behind: that of the
    summary call, which does not touch the table, followed by the save *)

(** ** Loading *)

Section Loading.
Variable timestamp_of : string -> string.

Local Abbreviation collect :=
  (foldl (fun (discussions : gmap string stored_discussion) row =>
            <[row_discussion_id row := entry_of_row timestamp_of row]> discussions)).

Lemma collect_absent (rows : list discussion_row) (m0 : gmap string stored_discussion)
    (discussion_id : string) :
  discussion_id ∉ map row_discussion_id rows ->
  collect m0 rows !! discussion_id = m0 !! discussion_id.
Proof.
  revert m0. induction rows as [|r rows IH]; intros m0 Hnot; [reflexivity|].
  cbn in Hnot. apply not_elem_of_cons in Hnot as [Hr Hrows].
  cbn [foldl]. rewrite IH by exact Hrows. apply lookup_insert_ne. congruence.
Qed.

Lemma collect_distinct (rows : list discussion_row) :
  NoDup (map row_discussion_id rows) ->
  forall discussion_id sd,
    collect ∅ rows !! discussion_id = Some sd <->
    exists row, row ∈ rows /\ row_discussion_id row = discussion_id /\
                sd = entry_of_row timestamp_of row.
Proof.
  induction rows as [|r rows IH] using rev_ind; intros Hnd d sd.
  - cbn. rewrite lookup_empty. split; [discriminate|].
    intros (row & Hin & _). apply elem_of_nil in Hin. contradiction.
  - rewrite map_app in Hnd. apply NoDup_app in Hnd as (Hnd & Hfresh & _).
    rewrite foldl_snoc. destruct (decide (row_discussion_id r = d)) as [<-|Hd].
    + rewrite lookup_insert_eq. split.
      * intros [= <-]. exists r.
        split; [apply elem_of_app; right; apply list_elem_of_singleton; reflexivity|].
        split; reflexivity.
      * intros (row & Hin & Hid & ->). apply elem_of_app in Hin as [Hin|Hin].
        -- exfalso. apply (Hfresh (row_discussion_id row)).
           ++ apply list_elem_of_In, in_map, list_elem_of_In, Hin.
           ++ rewrite Hid. cbn. apply list_elem_of_singleton. reflexivity.
        -- apply list_elem_of_singleton in Hin. subst row. reflexivity.
    + rewrite lookup_insert_ne by exact Hd. rewrite (IH Hnd). split.
      * intros (row & Hin & Hid & ->). exists row.
        split; [apply elem_of_app; left; exact Hin|]. split; [exact Hid | reflexivity].
      * intros (row & Hin & Hid & ->). apply elem_of_app in Hin as [Hin|Hin].
        -- exists row. split; [exact Hin|]. split; [exact Hid | reflexivity].
        -- apply list_elem_of_singleton in Hin. subst row. contradiction.
Qed.

Lemma select_rows_elem (user : option string) (w : world) (row : discussion_row) :
  row ∈ select_rows user w <->
  row ∈ discussions w /\ (truthy user = true -> user = Some (row_user row)).
Proof.
  unfold select_rows. destruct (truthy user) eqn:Hu.
  - destruct user as [u|]; [|discriminate]. cbn [default]. unfold id.
    rewrite !list_elem_of_In, filter_In.
    split.
    + intros [H1 H2]. apply String.eqb_eq in H2. subst u. split; [exact H1 | reflexivity].
    + intros [H1 H2]. split; [exact H1|]. specialize (H2 eq_refl). injection H2 as ->.
      apply String.eqb_refl.
  - split; [intros H; split; [exact H | discriminate] | intros [H _]; exact H].
Qed.

Lemma select_rows_distinct (user : option string) (w : world) :
  NoDup (table_ids w) -> NoDup (map row_discussion_id (select_rows user w)).
Proof.
  unfold select_rows, table_ids. destruct (truthy user); [|trivial].
  induction (discussions w) as [|r l IH]; intros Hnd; [constructor|].
  cbn in Hnd. apply NoDup_cons in Hnd as [Hr Hl]. cbn [List.filter].
  destruct (String.eqb (row_user r) (default "" user)); [|apply IH, Hl].
  cbn. apply NoDup_cons. split; [|apply IH, Hl].
  intros Hin. apply Hr. apply list_elem_of_In, in_map_iff in Hin as (row & Hid & Hin).
  apply list_elem_of_In, in_map_iff. exists row. split; [exact Hid|].
  apply filter_In in Hin. apply Hin.
Qed.

End Loading.

Lemma collect_from (timestamp_of : string -> string) (rows : list discussion_row)
    (discussion_id : string) (sd : stored_discussion) :
  foldl (fun (discussions : gmap string stored_discussion) row =>
           <[row_discussion_id row := entry_of_row timestamp_of row]> discussions) ∅ rows
    !! discussion_id = Some sd ->
  exists row, row ∈ rows /\ row_discussion_id row = discussion_id /\
              sd = entry_of_row timestamp_of row.
Proof.
  revert sd. induction rows as [|r rows IH] using rev_ind; intros sd.
  - cbn. rewrite lookup_empty. discriminate.
  - rewrite foldl_snoc. destruct (decide (row_discussion_id r = discussion_id)) as [Hd|Hd].
    + rewrite <- Hd at 1. rewrite lookup_insert_eq. intros [= <-]. exists r.
      split; [apply elem_of_app; right; apply list_elem_of_singleton; reflexivity|].
      split; [exact Hd | reflexivity].
    + rewrite lookup_insert_ne by exact Hd. intros H.
      destruct (IH _ H) as (row & Hin & Hid & ->). exists row.
      split; [apply elem_of_app; left; exact Hin|]. split; [exact Hid | reflexivity].
Qed.

(** X18. Save and load agree.  On a working database, saving a discussion
    under an id that is not yet in the table for a user with a non-empty
    name makes exactly that discussion appear for this user: what the user
    loads afterwards is what they loaded before, which had no entry for
    the id, with one entry added that carries the saved topic, agent
    names, transcript, summary and user, and the row's timestamp; what any
    other user loads is unchanged. *)
Theorem saved_discussion_is_loaded (E : environment) (timestamp_of : string -> string)
    (discussion_id topic : string) (agents : list string) (chat_history : list message)
    (summary user : string) (w : world) :
  db_behaves E = DbHealthy -> user <> "" -> stored discussion_id w = false ->
  let w' := (save_discussion_data_db E discussion_id topic agents chat_history summary
               user w).2 in
  exists m,
    load_discussion_data_db E timestamp_of (Some user) w = Ok m /\
    m !! discussion_id = None /\
    load_discussion_data_db E timestamp_of (Some user) w' =
      Ok (<[discussion_id :=
              {| sd_topic := topic; sd_agents := agents; sd_chat_history := chat_history;
                 sd_summary := summary; sd_user := user;
                 sd_timestamp := timestamp_of discussion_id |}]> m) /\
    (forall other, other <> "" -> other <> user ->
       load_discussion_data_db E timestamp_of (Some other) w' =
       load_discussion_data_db E timestamp_of (Some other) w).
Proof.
  intros Hdb Hu Hnew w'. subst w'. rewrite (save_healthy _ _ _ _ _ _ _ _ Hdb), Hnew.
  cbn [snd]. unfold load_discussion_data_db. rewrite Hdb.
  assert (Ht : forall x : string, x <> "" -> truthy (Some x) = true).
  { intros x Hx. unfold truthy. destruct x; [contradiction | reflexivity]. }
  eexists. split; [reflexivity|]. split; [|split].
  - rewrite collect_absent; [apply lookup_empty|].
    apply stored_false in Hnew. intros Hin. apply Hnew.
    apply list_elem_of_In, in_map_iff in Hin as (row & Hid & Hin).
    unfold select_rows in Hin. rewrite (Ht _ Hu) in Hin. apply filter_In in Hin.
    apply list_elem_of_In, in_map_iff. exists row. split; [exact Hid | apply Hin].
  - unfold select_rows. rewrite (Ht _ Hu). cbn [discussions default]. unfold id.
    rewrite List.filter_app, foldl_app. cbn [List.filter row_user].
    rewrite String.eqb_refl. reflexivity.
  - intros other Ho Hne. unfold select_rows. rewrite (Ht _ Ho). cbn [discussions default].
    unfold id. rewrite List.filter_app. cbn [List.filter row_user].
    destruct (String.eqb_spec user other) as [->|_]; [contradiction|].
    rewrite app_nil_r. reflexivity.
Qed.

Lemma saved_discussion_is_loaded_witness :
  load_discussion_data_db numbering noon (Some "u")
    (save_discussion_data_db numbering "d1" "X" ["A"; "B"] [] "Kurz." "u" quiet).2 =
  Ok {[ "d1" := {| sd_topic := "X"; sd_agents := ["A"; "B"]; sd_chat_history := [];
                   sd_summary := "Kurz."; sd_user := "u";
                   sd_timestamp := "2025-01-01 12:00:00" |} ]}.
Proof.
  destruct (saved_discussion_is_loaded numbering noon "d1" "X" ["A"; "B"] [] "Kurz." "u"
              quiet eq_refl ltac:(discriminate) eq_refl) as (m & Hm & _ & Hload & _).
  cbn in Hm. injection Hm as <-. exact Hload.
Defined.

(** X19. What a load returns.  If the connection cannot be opened,
    [load_discussion_data_db] raises; if the statement fails, it returns
    the empty dictionary; otherwise, the ids in the table being distinct
    (they are its primary key), the dictionary has exactly one entry per
    selected row, under the row's id and with the row's columns, where
    the selected rows are those of the given user, or all rows when no
    user or the empty name is given. *)
Theorem load_returns_the_users_rows (E : environment) (timestamp_of : string -> string)
    (user : option string) (w : world) :
  NoDup (table_ids w) ->
  match db_behaves E with
  | DbConnectFails => load_discussion_data_db E timestamp_of user w = Raise OperationalError
  | DbStatementFails => load_discussion_data_db E timestamp_of user w = Ok ∅
  | DbHealthy =>
      exists m,
        load_discussion_data_db E timestamp_of user w = Ok m /\
        forall discussion_id sd,
          m !! discussion_id = Some sd <->
          exists row, row ∈ discussions w /\ row_discussion_id row = discussion_id /\
                      (truthy user = true -> user = Some (row_user row)) /\
                      sd = entry_of_row timestamp_of row
  end.
Proof.
  intros Hnd. unfold load_discussion_data_db.
  destruct (db_behaves E); [|reflexivity..].
  eexists. split; [reflexivity|]. intros d sd.
  rewrite (collect_distinct timestamp_of _ (select_rows_distinct user w Hnd)).
  split; intros (row & Hin & Hid & Hrest).
  - apply select_rows_elem in Hin as [Hin Hown]. exists row. tauto.
  - destruct Hrest as [Hown ->]. exists row. split; [apply select_rows_elem; tauto|].
    split; [exact Hid | reflexivity].
Qed.

Lemma load_returns_the_users_rows_witness :
  exists m, load_discussion_data_db numbering noon (Some "v") archive = Ok m /\
            m !! "d1" = None /\ (sd_topic <$> m !! "d2") = Some "Y".
Proof.
  destruct (load_returns_the_users_rows numbering noon (Some "v") archive) as (m & Hm & Hiff).
  - unfold table_ids. cbn. apply NoDup_cons. split; [|apply NoDup_singleton].
    intros H. apply list_elem_of_singleton in H. discriminate.
  - exists m. split; [exact Hm|]. split.
    + destruct (m !! "d1") as [sd|] eqn:Hsd; [|reflexivity].
      apply Hiff in Hsd as (row & Hin & Hid & Hown & _). specialize (Hown eq_refl).
      cbn in Hin. apply elem_of_cons in Hin as [->|Hin]; [discriminate|].
      apply list_elem_of_singleton in Hin. subst row. discriminate.
    + rewrite (proj2 (Hiff "d2" _) (ex_intro _ _ (conj
                (proj2 (elem_of_cons _ _ _) (or_intror (proj2 (list_elem_of_singleton _ _) eq_refl)))
                (conj eq_refl (conj (fun _ => eq_refl) eq_refl))))).
      reflexivity.
Defined.

(** X20. The button [Diskussionen laden] never shows another user's
    discussion: without a logged-in user it shows the warning; with one,
    every entry shown was saved under that user's name and is a row of
    the table. *)
Theorem load_discs_shows_own_only (E : environment) (timestamp_of : string -> string)
    (current_usr : option string) (w : world) (shown : disc_data) :
  load_discs E timestamp_of current_usr w = Ok shown ->
  match shown with
  | Warnung text => truthy current_usr = false /\ text = "Niemand eingeloggt."
  | Discussions m =>
      truthy current_usr = true /\
      forall discussion_id sd, m !! discussion_id = Some sd ->
        current_usr = Some (sd_user sd) /\
        exists row, row ∈ discussions w /\ row_discussion_id row = discussion_id /\
                    sd = entry_of_row timestamp_of row
  end.
Proof.
  unfold load_discs. destruct (truthy current_usr) eqn:Hu.
  - unfold load_discussion_data_db.
    destruct (db_behaves E); [| |discriminate]; intros [= <-]; (split; [reflexivity|]);
      intros d sd Hsd; [|rewrite lookup_empty in Hsd; discriminate].
    apply collect_from in Hsd as (row & Hin & Hid & ->).
    apply select_rows_elem in Hin as [Hin Hown].
    split; [apply Hown, Hu|]. exists row. split; [exact Hin|]. split; [exact Hid | reflexivity].
  - intros [= <-]. split; reflexivity.
Qed.

Lemma load_discs_shows_own_only_witness :
  exists m,
    load_discs numbering noon (Some "u") archive = Ok (Discussions m) /\
    forall discussion_id sd, m !! discussion_id = Some sd -> sd_user sd = "u".
Proof.
  eexists. split; [reflexivity|]. intros discussion_id sd Hsd.
  destruct (load_discs_shows_own_only numbering noon (Some "u") archive (Discussions _)
              eq_refl) as [_ Hown].
  destruct (Hown discussion_id sd Hsd) as [Hu _]. injection Hu as <-. reflexivity.
Defined.




(** ** Accounts *)

Lemma name_tail_spec (t : string) :
  name_tail t = true <->
  exists word, (forall c, In c (list_ascii_of_string word) -> name_char c = true) /\
               (t = word \/ t = word +:+ nl).
Proof.
  split.
  - induction t as [|c t IH]; intros H.
    + exists "". split; [intros c []|]. left. reflexivity.
    + cbn [name_tail] in H. destruct (name_char c) eqn:Hc.
      * destruct (IH H) as (word & Hall & Ht). exists (String c word). split.
        -- intros c' [<-|Hin]; [exact Hc | apply Hall, Hin].
        -- destruct Ht as [->| ->]; [left | right]; reflexivity.
      * apply String.eqb_eq in H. exists "". split; [intros c' []|]. right. exact H.
  - intros (word & Hall & Ht). revert t Ht. induction word as [|c word IH]; intros t Ht.
    + destruct Ht as [->| ->]; reflexivity.
    + assert (Hc : name_char c = true) by (apply Hall; left; reflexivity).
      assert (Hw : forall c', In c' (list_ascii_of_string word) -> name_char c' = true).
      { intros c' Hin. apply Hall. right. exact Hin. }
      destruct Ht as [->| ->].
      * change (name_tail (String c word))
          with (if name_char c then name_tail word else String.eqb (String c word) nl).
        rewrite Hc. apply (IH Hw). left. reflexivity.
      * change (name_tail (String c word +:+ nl))
          with (if name_char c then name_tail (word +:+ nl)
                else String.eqb (String c (word +:+ nl)) nl).
        rewrite Hc. apply (IH Hw). right. reflexivity.
Qed.

Lemma valid_username_truthy (username : string) :
  valid_username username = true -> truthy (Some username) = true.
Proof. destruct username; [discriminate | reflexivity]. Qed.

Lemma valid_username_iff (username : string) :
  valid_username username = true <-> name_like username.
Proof.
  unfold name_like. split.
  - destruct username as [|c t]; [discriminate|]. cbn [valid_username].
    intros H. apply andb_true_iff in H as [Hc Ht].
    apply name_tail_spec in Ht as (word & Hall & Ht).
    exists (String c word). split; [discriminate|]. split.
    + intros c' [<-|Hin]; [exact Hc | apply Hall, Hin].
    + destruct Ht as [->| ->]; [left | right]; reflexivity.
  - intros (word & Hne & Hall & Hu). destruct word as [|c word]; [contradiction|].
    assert (Hc : name_char c = true) by (apply Hall; left; reflexivity).
    assert (Ht : name_tail (match username with String _ t => t | _ => "" end) = true).
    { apply name_tail_spec. exists word. split.
      - intros c' Hin. apply Hall. right. exact Hin.
      - destruct Hu as [->| ->]; [left | right]; reflexivity. }
    destruct Hu as [->| ->].
    + change (name_char c && name_tail word = true). rewrite Hc. exact Ht.
    + change (name_char c && name_tail (word +:+ nl) = true). rewrite Hc. exact Ht.
Qed.

(** X23. The user names that can be registered.  [register_user] answers
    with the invalid-name message, leaving the user file as it is, for
    every submitted name except the strings made of one or more characters
    of the class [[a-zA-Z0-9_-]] and those strings followed by one
    newline, which pass because [$] also matches before a newline that
    ends the string; for these it never gives that message. *)
Theorem register_checks_the_name (hash_password : string -> string)
    (username password : string) (st : accounts) :
  ((register_user hash_password username password st).1 =
     "Ungültiger Nutzername. Nur Buchstaben, Zahlen, '-', '_' erlaubt."
   <-> ~ name_like username) /\
  (~ name_like username -> (register_user hash_password username password st).2 = st).
Proof.
  rewrite <- valid_username_iff. unfold register_user.
  destruct (valid_username username); cbn [negb].
  - split; [|intros H; exfalso; apply H; reflexivity].
    destruct (py_len password <? 8); [|destruct (load_user_data st !! username)];
      cbn [fst]; (split; [discriminate | intros H; exfalso; apply H; reflexivity]).
  - cbn [fst snd]. split; [|reflexivity]. split; [discriminate | reflexivity].
Qed.

Lemma register_checks_the_name_witness :
  (register_user tagged ("ada_1" +:+ nl) "geheim123" no_accounts).1 =
    "Registrierung erfolgreich." /\
  (register_user tagged "ada 1" "geheim123" no_accounts).2 = no_accounts.
Proof.
  split; [reflexivity|].
  apply (register_checks_the_name tagged "ada 1" "geheim123" no_accounts).
  intros H. apply valid_username_iff in H. discriminate.
Defined.

Section AccountFacts.
Variable hash_password : string -> string.

Lemma register_accepted (username password : string) (st : accounts) :
  valid_username username = true -> 8 <= py_len password ->
  load_user_data st !! username = None ->
  register_user hash_password username password st =
    ("Registrierung erfolgreich.",
     save_user_data (<[username := hash_password password]> (load_user_data st)) st).
Proof.
  intros Hv Hp Hfree. unfold register_user. rewrite Hv. cbn [negb].
  destruct (Z.ltb_spec (py_len password) 8) as [Hlt|_]; [lia|].
  rewrite Hfree. reflexivity.
Qed.

End AccountFacts.

(** X24. Registration followed by login.  With a valid user name that is
    not taken, a password of at least 8 characters and a user file that
    can be written, [register_user] reports success; afterwards
    [login_user] with that name succeeds exactly for the passwords whose
    hash equals that of the registered one, the login click then makes
    the name the session user whatever the session was, and logins under
    every other name behave as before the registration. *)
Theorem register_then_login (hash_password : string -> string) (username password : string)
    (st : accounts) :
  valid_username username = true -> 8 <= py_len password ->
  load_user_data st !! username = None -> user_file_writable st = true ->
  let r := register_user hash_password username password st in
  r.1 = "Registrierung erfolgreich." /\
  (forall p', login_user hash_password username p' r.2 =
                if String.eqb (hash_password p') (hash_password password)
                then ("Login erfolgreich.", Some username)
                else ("Login fehlgeschlagen.", None)) /\
  (forall current_usr,
     login_event hash_password username password current_usr r.2 =
       ("Login erfolgreich.", Some username)) /\
  (forall u' p', u' <> username ->
     login_user hash_password u' p' r.2 = login_user hash_password u' p' st).
Proof.
  intros Hv Hp Hfree Hw r. subst r.
  rewrite (register_accepted hash_password _ _ _ Hv Hp Hfree). cbn [fst snd].
  unfold save_user_data. rewrite Hw.
  assert (Hlogin : forall p',
            login_user hash_password username p'
              {| user_data_file := Some (<[username := hash_password password]>
                                           (load_user_data st));
                 user_file_writable := true |} =
            if String.eqb (hash_password p') (hash_password password)
            then ("Login erfolgreich.", Some username)
            else ("Login fehlgeschlagen.", None)).
  { intros p'. unfold login_user, load_user_data. cbn [user_data_file default]. unfold id.
    rewrite lookup_insert_eq. reflexivity. }
  split; [reflexivity|]. split; [exact Hlogin|]. split.
  - intros cur. unfold login_event. rewrite Hlogin, String.eqb_refl.
    rewrite (valid_username_truthy _ Hv). reflexivity.
  - intros u' p' Hne. unfold login_user, load_user_data. cbn [user_data_file default].
    unfold id. rewrite lookup_insert_ne by congruence. reflexivity.
Qed.

Lemma register_then_login_witness :
  (register_user tagged "ada_1" "geheim123" no_accounts).1 = "Registrierung erfolgreich." /\
  login_user tagged "ada_1" "geheim123" (register_user tagged "ada_1" "geheim123" no_accounts).2
    = ("Login erfolgreich.", Some "ada_1") /\
  login_user tagged "ada_1" "geheim124" (register_user tagged "ada_1" "geheim123" no_accounts).2
    = ("Login fehlgeschlagen.", None).
Proof.
  destruct (register_then_login tagged "ada_1" "geheim123" no_accounts eq_refl
              ltac:(vm_compute; discriminate) eq_refl eq_refl) as (Hr & Hl & _).
  split; [exact Hr|]. split; [rewrite Hl | rewrite Hl]; reflexivity.
Defined.

(** X25. No registration attempt touches an existing account: whatever
    name and password are submitted and whatever the outcome, every
    account the user file held before is in it afterwards with the same
    password hash; a submitted name that is taken is refused (when name
    and password pass their checks) and the file is left as it is. *)
Theorem registration_keeps_accounts (hash_password : string -> string)
    (username password : string) (st : accounts) (u' hashed : string) :
  load_user_data st !! u' = Some hashed ->
  load_user_data (register_user hash_password username password st).2 !! u' = Some hashed /\
  (u' = username ->
   (register_user hash_password username password st).2 = st /\
   (valid_username username = true -> 8 <= py_len password ->
    (register_user hash_password username password st).1 = "Nutzername bereits vergeben.")).
Proof.
  intros Hold. split.
  - unfold register_user. destruct (valid_username username); cbn [negb snd]; [|exact Hold].
    destruct (py_len password <? 8); cbn [snd]; [exact Hold|].
    destruct (load_user_data st !! username) as [h|] eqn:Hu; cbn [snd]; [exact Hold|].
    unfold save_user_data. destruct (user_file_writable st); [|exact Hold].
    unfold load_user_data in *. cbn [user_data_file default]. unfold id.
    rewrite lookup_insert_ne by congruence. exact Hold.
  - intros ->. unfold register_user. rewrite Hold.
    destruct (valid_username username); cbn [negb]; [|split; [reflexivity | discriminate]].
    destruct (Z.ltb_spec (py_len password) 8); cbn [fst snd];
      split; try reflexivity; intros; lia.
Qed.

Lemma registration_keeps_accounts_witness :
  let st := (register_user tagged "ada_1" "geheim123" no_accounts).2 in
  load_user_data (register_user tagged "bob" "passwort9" st).2 !! "ada_1"
    = Some "sha256:geheim123" /\
  (register_user tagged "ada_1" "anderes99" st).1 = "Nutzername bereits vergeben.".
Proof.
  intros st.
  pose proof (registration_keeps_accounts tagged "bob" "passwort9" st "ada_1"
                "sha256:geheim123" eq_refl) as [H1 _].
  pose proof (registration_keeps_accounts tagged "ada_1" "anderes99" st "ada_1"
                "sha256:geheim123" eq_refl) as [_ H2].
  split; [exact H1|]. destruct (H2 eq_refl) as [_ H3].
  apply H3; [reflexivity | vm_compute; discriminate].
Defined.

(** X26. A registration that cannot be written is lost without notice.
    When the user file cannot be opened for writing, a registration that
    passes all checks still answers that it succeeded, but the file is
    unchanged, so the login with the same name and password fails and
    the login click leaves the session as it was. *)
Theorem unwritable_registration_is_lost (hash_password : string -> string)
    (username password : string) (st : accounts) :
  valid_username username = true -> 8 <= py_len password ->
  load_user_data st !! username = None -> user_file_writable st = false ->
  register_user hash_password username password st = ("Registrierung erfolgreich.", st) /\
  login_user hash_password username password st = ("Login fehlgeschlagen.", None) /\
  forall current_usr,
    login_event hash_password username password current_usr st =
      ("Login fehlgeschlagen.", current_usr).
Proof.
  intros Hv Hp Hfree Hw.
  rewrite (register_accepted hash_password _ _ _ Hv Hp Hfree).
  unfold save_user_data. rewrite Hw.
  assert (Hl : login_user hash_password username password st = ("Login fehlgeschlagen.", None)).
  { unfold login_user. rewrite Hfree. reflexivity. }
  split; [reflexivity|]. split; [exact Hl|].
  intros cur. unfold login_event. rewrite Hl. reflexivity.
Qed.

Lemma unwritable_registration_is_lost_witness :
  register_user tagged "ada_1" "geheim123" read_only_accounts =
    ("Registrierung erfolgreich.", read_only_accounts) /\
  login_user tagged "ada_1" "geheim123" read_only_accounts = ("Login fehlgeschlagen.", None).
Proof.
  destruct (unwritable_registration_is_lost tagged "ada_1" "geheim123" read_only_accounts
              eq_refl ltac:(vm_compute; discriminate) eq_refl eq_refl) as (Hr & Hl & _).
  split; [exact Hr | exact Hl].
Defined.
